(** * ScorchCrawl: admission core, agent job engine and local scraper

  A shallow embedding of the TypeScript modules of the MCP server
    - rate-limiter    (ConcurrencyTracker, SlidingWindowRateLimiter, QuotaMonitor,
                       RateLimitGuard, findStaleJobs, envInt, buildErrorHook)
    - copilot-agent   (startAgent, runAgentJob, the stale-job reaper,
                       buildAgentConfig)
    - local-scraper   (detectSPASkeleton, localScrape, isLocalProxyEnabled)
    - the entry point (removeEmptyTopLevel, the tool scorch_scrape)
    - response utils  (mapError, truncateString, truncateAtBoundary, wordCount)
    - the Playwright service (the page semaphore of POST /scrape)
  followed by the properties of these definitions.

  Conventions.
    - A JavaScript string is its sequence of UTF-16 code units ([list N]);
      [.length] is [length].
    - Integral JavaScript numbers (counters, millisecond clocks) are [Z];
      percentages are [Q] (every finite double is a rational and doubles
      compare as rationals do).
    - [Date.now()] is an explicit argument [now].
    - A [Map<string, V>] is a [gmap (list N) V]. *)

From Stdlib Require Import ZArith QArith Qround String Ascii DecimalString Lia.
From Stdlib Require DecimalPos.
From stdpp Require Import gmap list.

Local Open Scope Z_scope.

(* ===================================================================== *)
(** * JavaScript strings *)
(* ===================================================================== *)

Module JsString.

Abbreviation jsstring := (list N).

(** An ASCII literal as a JavaScript string. *)
Fixpoint js (s : string) : jsstring :=
  match s with
  | EmptyString => []
  | String a r => N_of_ascii a :: js r
  end.

(** The double-quote character. *)
Definition dquote : jsstring := [34%N].

(** ECMAScript WhiteSpace and LineTerminator code units: what the regular
    expression class [\s] matches and what [String.prototype.trim] strips. *)
Definition isWhiteSpace (c : N) : bool :=
  ((9 <=? c) && (c <=? 13) || (c =? 32) || (c =? 160) || (c =? 5760)
   || (8192 <=? c) && (c <=? 8202) || (c =? 8232) || (c =? 8233)
   || (c =? 8239) || (c =? 8287) || (c =? 12288) || (c =? 65279))%N.

(** [s.replace(/\s+/g, ' ')]: every maximal run of white space becomes one
    space (a white-space unit followed by another one is dropped, the last
    unit of the run yields the space). *)
Fixpoint collapseWhiteSpace (s : jsstring) : jsstring :=
  match s with
  | [] => []
  | c :: r =>
      if isWhiteSpace c then
        match r with
        | c' :: _ => if isWhiteSpace c' then collapseWhiteSpace r
                     else 32%N :: collapseWhiteSpace r
        | [] => [32%N]
        end
      else c :: collapseWhiteSpace r
  end.

Fixpoint trimStart (s : jsstring) : jsstring :=
  match s with
  | [] => []
  | c :: r => if isWhiteSpace c then trimStart r else s
  end.

Definition trimEnd (s : jsstring) : jsstring := rev (trimStart (rev s)).

(** [s.trim()] *)
Definition trim (s : jsstring) : jsstring := trimEnd (trimStart s).

Definition eqb (a b : jsstring) : bool := bool_decide (a = b).

(** [s.startsWith(p)] *)
Fixpoint startsWith (p s : jsstring) : bool :=
  match p, s with
  | [], _ => true
  | _ :: _, [] => false
  | a :: p', b :: s' => (a =? b)%N && startsWith p' s'
  end.

(** [s.includes(p)] *)
Fixpoint includes (p s : jsstring) : bool :=
  startsWith p s ||
  match s with
  | [] => false
  | _ :: s' => includes p s'
  end.

(** [xs.join(sep)] *)
Fixpoint join (sep : jsstring) (xs : list jsstring) : jsstring :=
  match xs with
  | [] => []
  | [x] => x
  | x :: rest => x ++ sep ++ join sep rest
  end.

(** [String(n)] for an integral number (below 10^21 in absolute value,
    where JavaScript prints plain decimal digits). *)
Definition showInt (z : Z) : jsstring :=
  js (NilZero.string_of_int (Z.to_int z)).

(** The fractional digits of [r / 1000] for [0 <= r < 1000], without
    trailing zeros. *)
Definition fracDigits (r : Z) : jsstring :=
  let d1 := r / 100 in
  let d2 := (r / 10) mod 10 in
  let d3 := r mod 10 in
  if d3 =? 0 then
    if d2 =? 0 then showInt d1 else showInt d1 ++ showInt d2
  else showInt d1 ++ showInt d2 ++ showInt d3.

(** [String(ms / 1000)] for an integral [ms] (below 10^15 in absolute
    value): the shortest decimal that reads back as the same double is the
    exact quotient, with at most three fractional digits. *)
Definition showThousandths (ms : Z) : jsstring :=
  let a := Z.abs ms in
  let body :=
    if a mod 1000 =? 0 then showInt (a / 1000)
    else showInt (a / 1000) ++ js "." ++ fracDigits (a mod 1000) in
  if ms <? 0 then js "-" ++ body else body.

(** [x.toFixed(1)] for [|x| < 10^21]: the sign is split off, then [n] is
    the integer for which [n / 10 - x] is closest to zero, the larger one on
    a tie. *)
Definition toFixed1 (x : Q) : jsstring :=
  let neg := negb (Qle_bool 0 x) in
  let ax := if neg then Qopp x else x in
  let n := Qfloor (ax * (10 # 1) + (1 # 2)) in
  (if neg then js "-" else []) ++ showInt (n / 10) ++ js "." ++ showInt (n mod 10).

(** [Math.ceil(a / b)] for integral [a] and [b > 0]. *)
Definition ceilDiv (a b : Z) : Z := - ((- a) / b).

(** [s.slice(0, e)]: a negative [e] counts from the end of the string. *)
Definition slice0 (e : Z) (s : jsstring) : jsstring :=
  take (Z.to_nat (if e <? 0 then Z.of_nat (length s) + e else e)) s.

(** [s.lastIndexOf(p)]: the largest index at which [p] starts, or -1. *)
Fixpoint lastIndexOf (p s : jsstring) : Z :=
  match s with
  | [] => if startsWith p [] then 0 else -1
  | _ :: r =>
      let later := lastIndexOf p r in
      if 0 <=? later then later + 1
      else if startsWith p s then 0 else -1
  end.

(** [s.split(sep)] for a separator of one code unit. *)
Fixpoint splitOn (sep : N) (s : jsstring) : list jsstring :=
  match s with
  | [] => [[]]
  | c :: r =>
      if (c =? sep)%N then [] :: splitOn sep r
      else match splitOn sep r with
           | piece :: pieces => (c :: piece) :: pieces
           | [] => [[c]]
           end
  end.

(** [s.split(/\s+/)]: the pieces between the maximal runs of white space
    (the first and the last piece may be empty). *)
Fixpoint splitWhiteSpace (s : jsstring) : list jsstring :=
  match s with
  | [] => [[]]
  | c :: r =>
      if isWhiteSpace c then
        match r with
        | c' :: _ => if isWhiteSpace c' then splitWhiteSpace r
                     else [] :: splitWhiteSpace r
        | [] => [[]; []]
        end
      else match splitWhiteSpace r with
           | piece :: pieces => (c :: piece) :: pieces
           | [] => [[c]]
           end
  end.

(** The decimal digit that a code unit stands for. *)
Definition digitOf (c : N) : option Z :=
  if ((48 <=? c) && (c <=? 57))%N then Some (Z.of_N c - 48) else None.

End JsString.
Export JsString.

(* ===================================================================== *)
(** * rate-limiter *)
(* ===================================================================== *)

Module RateLimiter.

Record RateLimitConfig := {
  maxGlobalConcurrency : Z;
  maxPerUserConcurrency : Z;
  rateLimitWindowMs : Z;
  maxRequestsPerWindow : Z;
  maxGlobalRequestsPerWindow : Z;
  quotaRejectThresholdPercent : Q;
  staleJobTimeoutMs : Z;
  gcIntervalMs : Z
}.

(** A JavaScript number that is an integer or [NaN] (what arithmetic on
    [undefined] produces). *)
Inductive jsnum := Num (z : Z) | NaN.

Record RateLimitResult := {
  allowed : bool;
  reason : option jsstring;
  retryAfterSeconds : option jsnum
}.

(** [{ allowed: true }] *)
Definition allow : RateLimitResult :=
  {| allowed := true; reason := None; retryAfterSeconds := None |}.

(** [{ allowed: false, reason, retryAfterSeconds }] *)
Definition reject (why : jsstring) (retry : option jsnum) : RateLimitResult :=
  {| allowed := false; reason := Some why; retryAfterSeconds := retry |}.

Record QuotaInfo := {
  remainingPercent : Q;
  usedRequests : Z;
  entitlementRequests : Z;
  isUnlimited : bool;
  resetDate : option jsstring;
  lastUpdated : Z
}.

(* ------------------------------------------------------------------- *)
(** ** class ConcurrencyTracker *)

Module ConcurrencyTracker.

(** The fields of an instance. *)
Record t := {
  globalActive : Z;
  perUser : gmap jsstring Z
}.

Definition new : t := {| globalActive := 0; perUser := ∅ |}.

(** [this.perUser.get(userKey) || 0] *)
Definition userCount (this : t) (userKey : jsstring) : Z :=
  default 0 (perUser this !! userKey).

Definition canAcquire (cfg : RateLimitConfig) (this : t) (userKey : jsstring)
    : RateLimitResult :=
  if maxGlobalConcurrency cfg <=? globalActive this then
    reject (js "Server is at maximum capacity ("
              ++ showInt (maxGlobalConcurrency cfg)
              ++ js " concurrent jobs). Please retry shortly.")
           (Some (Num 10))
  else
    let n := userCount this userKey in
    if maxPerUserConcurrency cfg <=? n then
      reject (js "You already have " ++ showInt n
                ++ js " concurrent agent jobs (max "
                ++ showInt (maxPerUserConcurrency cfg)
                ++ js "). Wait for a job to complete before starting another.")
             (Some (Num 15))
    else allow.

Definition acquire (this : t) (userKey : jsstring) : t :=
  {| globalActive := globalActive this + 1;
     perUser := <[userKey := userCount this userKey + 1]> (perUser this) |}.

Definition release (this : t) (userKey : jsstring) : t :=
  let cur := userCount this userKey in
  {| globalActive := Z.max 0 (globalActive this - 1);
     perUser := if cur <=? 1 then delete userKey (perUser this)
                else <[userKey := cur - 1]> (perUser this) |}.

(** [{ global, perUser }] *)
Definition stats (this : t) : Z * gmap jsstring Z :=
  (globalActive this, perUser this).

End ConcurrencyTracker.

(* ------------------------------------------------------------------- *)
(** ** class SlidingWindowRateLimiter *)

Module SlidingWindowRateLimiter.

Record t := {
  perUser : gmap jsstring (list Z);
  globalTimestamps : list Z
}.

Definition new : t := {| perUser := ∅; globalTimestamps := [] |}.

(** [ts.filter((t) => t > windowStart)] *)
Definition prune (windowStart : Z) (ts : list Z) : list Z :=
  List.filter (fun t => windowStart <? t) ts.

(** [Math.ceil((oldest + windowMs - now) / 1000)], where [oldest] is
    [ts[0]]: [undefined] on an empty array, and then the result is [NaN]. *)
Definition retryAfter (cfg : RateLimitConfig) (now : Z) (ts : list Z) : jsnum :=
  match ts with
  | oldest :: _ => Num (ceilDiv (oldest + rateLimitWindowMs cfg - now) 1000)
  | [] => NaN
  end.

(** [Math.max(1, x)] *)
Definition max1 (x : jsnum) : jsnum :=
  match x with
  | Num z => Num (Z.max 1 z)
  | NaN => NaN
  end.

Definition check (cfg : RateLimitConfig) (now : Z) (userKey : jsstring) (this : t)
    : RateLimitResult * t :=
  let windowStart := now - rateLimitWindowMs cfg in
  let g := prune windowStart (globalTimestamps this) in
  if maxGlobalRequestsPerWindow cfg <=? Z.of_nat (length g) then
    (reject (js "Global rate limit reached ("
               ++ showInt (maxGlobalRequestsPerWindow cfg)
               ++ js " requests per "
               ++ showThousandths (rateLimitWindowMs cfg)
               ++ js "s window). Please wait.")
            (Some (max1 (retryAfter cfg now g))),
     {| perUser := perUser this; globalTimestamps := g |})
  else
    let userTs := prune windowStart (default [] (perUser this !! userKey)) in
    let this' := {| perUser := <[userKey := userTs]> (perUser this);
                    globalTimestamps := g |} in
    if maxRequestsPerWindow cfg <=? Z.of_nat (length userTs) then
      (reject (js "Rate limit reached ("
                 ++ showInt (maxRequestsPerWindow cfg)
                 ++ js " requests per "
                 ++ showThousandths (rateLimitWindowMs cfg)
                 ++ js "s window). Please wait.")
              (Some (max1 (retryAfter cfg now userTs))),
       this')
    else (allow, this').

Definition record (now : Z) (userKey : jsstring) (this : t) : t :=
  {| perUser :=
       <[userKey := default [] (perUser this !! userKey) ++ [now]]> (perUser this);
     globalTimestamps := globalTimestamps this ++ [now] |}.

Definition gc (cfg : RateLimitConfig) (now : Z) (this : t) : t :=
  let cutoff := now - rateLimitWindowMs cfg in
  {| perUser := filter (fun kv => kv.2 ≠ []) (prune cutoff <$> perUser this);
     globalTimestamps := prune cutoff (globalTimestamps this) |}.

End SlidingWindowRateLimiter.

(* ------------------------------------------------------------------- *)
(** ** class QuotaMonitor *)

Module QuotaMonitor.

(** The field [perUser] of an instance. *)
Abbreviation t := (gmap jsstring QuotaInfo).

(** [Partial<QuotaInfo>] as passed to [update]. *)
Record Snapshot := {
  snapRemainingPercent : option Q;
  snapUsedRequests : option Z;
  snapEntitlementRequests : option Z;
  snapIsUnlimited : option bool;
  snapResetDate : option jsstring
}.

(** [a ?? b] *)
Definition nullish {A} (a b : option A) : option A :=
  match a with Some _ => a | None => b end.

Definition update (now : Z) (userKey : jsstring) (snapshot : Snapshot) (this : t) : t :=
  let existing := this !! userKey in
  <[userKey :=
      {| remainingPercent :=
           default (100 # 1)
             (nullish (snapRemainingPercent snapshot) (remainingPercent <$> existing));
         usedRequests :=
           default 0 (nullish (snapUsedRequests snapshot) (usedRequests <$> existing));
         entitlementRequests :=
           default (-1)
             (nullish (snapEntitlementRequests snapshot)
                      (entitlementRequests <$> existing));
         isUnlimited :=
           default false (nullish (snapIsUnlimited snapshot) (isUnlimited <$> existing));
         resetDate := nullish (snapResetDate snapshot) (existing ≫= resetDate);
         lastUpdated := now |}]> this.

(** Truthiness of an optional string: present and non-empty. *)
Definition truthy (s : option jsstring) : bool :=
  match s with
  | Some (_ :: _) => true
  | _ => false
  end.

(** The reason of a rejection. *)
Definition exhausted (info : QuotaInfo) : jsstring :=
  let resetMsg :=
    if truthy (resetDate info)
    then js " Quota resets on " ++ default [] (resetDate info) ++ js "."
    else [] in
  js "Copilot quota nearly exhausted (" ++ toFixed1 (remainingPercent info)
    ++ js "% remaining, " ++ showInt (usedRequests info) ++ js "/"
    ++ showInt (entitlementRequests info) ++ js " used)." ++ resetMsg
    ++ js " Upgrade your plan or wait for reset.".

Definition check (cfg : RateLimitConfig) (now : Z) (userKey : jsstring) (this : t)
    : RateLimitResult :=
  match this !! userKey with
  | None => allow
  | Some info =>
      if isUnlimited info then allow
      else if 5 * 60 * 1000 <? now - lastUpdated info then allow
      else if Qle_bool (remainingPercent info) (quotaRejectThresholdPercent cfg)
      then reject (exhausted info) None
      else allow
  end.

(** [get] *)
Definition get (userKey : jsstring) (this : t) : option QuotaInfo := this !! userKey.

Definition gc (now : Z) (this : t) : t :=
  let cutoff := now - 30 * 60 * 1000 in
  filter (fun kv => ¬ (lastUpdated kv.2 < cutoff)) this.

End QuotaMonitor.

(* ------------------------------------------------------------------- *)
(** ** class RateLimitGuard *)

Module RateLimitGuard.

Record t := {
  config : RateLimitConfig;
  concurrency : ConcurrencyTracker.t;
  rateLimit : SlidingWindowRateLimiter.t;
  quota : QuotaMonitor.t
}.

Definition new (cfg : RateLimitConfig) : t :=
  {| config := cfg; concurrency := ConcurrencyTracker.new;
     rateLimit := SlidingWindowRateLimiter.new; quota := ∅ |}.

(** Concurrency, then sliding window, then quota; the first rejection is
    returned.  Only the sliding-window check writes (it stores the pruned
    arrays), and it runs only when the concurrency check passed. *)
Definition check (now : Z) (userKey : jsstring) (this : t) : RateLimitResult * t :=
  let concResult :=
    ConcurrencyTracker.canAcquire (config this) (concurrency this) userKey in
  if negb (allowed concResult) then (concResult, this)
  else
    let '(rateResult, rl) :=
      SlidingWindowRateLimiter.check (config this) now userKey (rateLimit this) in
    let this' := {| config := config this; concurrency := concurrency this;
                    rateLimit := rl; quota := quota this |} in
    if negb (allowed rateResult) then (rateResult, this')
    else
      let quotaResult := QuotaMonitor.check (config this) now userKey (quota this) in
      if negb (allowed quotaResult) then (quotaResult, this')
      else (allow, this').

Definition acquire (now : Z) (userKey : jsstring) (this : t) : t :=
  {| config := config this;
     concurrency := ConcurrencyTracker.acquire (concurrency this) userKey;
     rateLimit := SlidingWindowRateLimiter.record now userKey (rateLimit this);
     quota := quota this |}.

Definition release (userKey : jsstring) (this : t) : t :=
  {| config := config this;
     concurrency := ConcurrencyTracker.release (concurrency this) userKey;
     rateLimit := rateLimit this;
     quota := quota this |}.

(** [stats().concurrency] *)
Definition stats (this : t) : Z * gmap jsstring Z :=
  ConcurrencyTracker.stats (concurrency this).

(** [this.quota.update(userKey, snapshot)] *)
Definition quotaUpdate (now : Z) (userKey : jsstring) (snapshot : QuotaMonitor.Snapshot)
    (this : t) : t :=
  {| config := config this;
     concurrency := concurrency this;
     rateLimit := rateLimit this;
     quota := QuotaMonitor.update now userKey snapshot (quota this) |}.

(** One tick of the GC timer. *)
Definition gcTick (now : Z) (this : t) : t :=
  {| config := config this;
     concurrency := concurrency this;
     rateLimit := SlidingWindowRateLimiter.gc (config this) now (rateLimit this);
     quota := QuotaMonitor.gc now (quota this) |}.

End RateLimitGuard.

(* ------------------------------------------------------------------- *)
(** ** findStaleJobs *)

Inductive JobStatus := Processing | Completed | Failed.

Global Instance JobStatus_eq_dec : EqDecision JobStatus.
Proof. solve_decision. Defined.

(** [StaleJobCandidate], with the status strings that jobs take. *)
Record StaleJobCandidate := {
  candId : jsstring;
  candStatus : JobStatus;
  candCreatedAt : Z
}.

Definition isStale (now timeoutMs : Z) (job : StaleJobCandidate) : bool :=
  bool_decide (candStatus job = Processing) && (timeoutMs <? now - candCreatedAt job).

Definition findStaleJobs (now : Z) (jobs : list StaleJobCandidate)
    (timeoutMs : Z) : list jsstring :=
  candId <$> List.filter (isStale now timeoutMs) jobs.

(* ------------------------------------------------------------------- *)
(** ** envInt *)

(** The value of a run of decimal digits, read from the left onto [acc];
    reading stops at the first code unit that is not a digit. *)
Fixpoint digitsValue (acc : Z) (s : jsstring) : Z :=
  match s with
  | [] => acc
  | c :: r =>
      match digitOf c with
      | Some d => digitsValue (10 * acc + d) r
      | None => acc
      end
  end.

(** [parseInt(s, 10)]: leading white space is skipped, a sign is read, then
    the longest run of digits; [None] is [NaN].  The integer is the exact
    one, which is what JavaScript returns below 2^53. *)
Definition parseInt10 (s : jsstring) : option Z :=
  let t := trimStart s in
  let '(negative, body) :=
    match t with
    | 45%N :: r => (true, r)
    | 43%N :: r => (false, r)
    | _ => (false, t)
    end in
  match body with
  | c :: _ =>
      match digitOf c with
      | Some _ => Some (if negative : bool then - digitsValue 0 body
                        else digitsValue 0 body)
      | None => None
      end
  | [] => None
  end.

(** [v] is [process.env[key]]. *)
Definition envInt (v : option jsstring) (fallback : Z) : Z :=
  match v with
  | None => fallback
  | Some s => default fallback (parseInt10 s)
  end.

(* ------------------------------------------------------------------- *)
(** ** buildErrorHook *)

Inductive ErrorContext := ModelCall | ToolExecution | SystemContext | UserInput.

Global Instance ErrorContext_eq_dec : EqDecision ErrorContext.
Proof. solve_decision. Defined.

(** The argument of the hook. *)
Record ErrorInput := {
  inputError : jsstring;
  errorContext : ErrorContext;
  recoverable : bool
}.

Inductive ErrorHandling := DoAbort | DoRetry | DoSkip.

Global Instance ErrorHandling_eq_dec : EqDecision ErrorHandling.
Proof. solve_decision. Defined.

(** What the hook returns; a field that the returned object does not have
    is [None]. *)
Record ErrorHookOutput := {
  errorHandling : ErrorHandling;
  suppressOutput : option bool;
  userNotification : option jsstring;
  retryCount : option Z
}.

Section ErrorHook.
(** [String.prototype.toLowerCase] *)
Variable toLowerCase : jsstring -> jsstring.

(** The hook for a job; the job id and the logger only enter the warning
    that is logged. *)
Definition buildErrorHook (input : ErrorInput) : ErrorHookOutput :=
  let lowerErr := toLowerCase (inputError input) in
  if includes (js "quota") lowerErr
     || includes (js "402") lowerErr
     || includes (js "not licensed") lowerErr
     || includes (js "authentication") lowerErr
  then {| errorHandling := DoAbort; suppressOutput := Some false;
          userNotification := None; retryCount := None |}
  else if includes (js "rate limit") lowerErr || includes (js "429") lowerErr
  then {| errorHandling := DoAbort; suppressOutput := Some false;
          userNotification := Some (js "Rate limit reached. Please retry later.");
          retryCount := None |}
  else if bool_decide (errorContext input = ModelCall) && recoverable input
  then {| errorHandling := DoRetry; suppressOutput := None;
          userNotification := None; retryCount := Some 2 |}
  else if bool_decide (errorContext input = ToolExecution)
  then {| errorHandling := DoSkip; suppressOutput := None;
          userNotification := None; retryCount := None |}
  else {| errorHandling := DoAbort; suppressOutput := None;
          userNotification := None; retryCount := None |}.

End ErrorHook.

End RateLimiter.
Export RateLimiter.

(* ===================================================================== *)
(** * copilot-agent *)
(* ===================================================================== *)

Module CopilotAgent.

Record AgentConfig := {
  allowedModels : list jsstring;
  defaultModel : jsstring
}.

(** [schema] is left out: like [urls] it only enters the prompt that is
    sent to the session. *)
Record AgentJobRequest := {
  prompt : jsstring;
  urls : option (list jsstring);
  model : option jsstring
}.

(** [job.result] of a completed job. *)
Record JobResult := {
  resSuccess : bool;
  resData : jsstring;
  resModel : jsstring
}.

Record AgentJob := {
  id : jsstring;
  status : JobStatus;
  jobPrompt : jsstring;
  createdAt : Z;
  completedAt : option Z;
  result : option JobResult;
  error : option jsstring;
  progress : option jsstring;
  _userKey : option jsstring
}.

(** Where the background task [runAgentJob] of a job is suspended.  Every
    constructor but [Settled] is an [await]; timers (the reaper) run only
    while the task is suspended. *)
Inductive TaskPc :=
| AwaitClient                       (* await getCopilotClient(copilotToken) *)
| AwaitSession                      (* await client.createSession(...) *)
| AwaitResponse                     (* await session.sendAndWait(...) *)
| AwaitDestroy (thrown : option jsstring)
                                    (* await session.destroy(), in the finally block;
                                       [thrown] is the pending exception, if any *)
| Settled.                          (* promise settled, .finally has run *)

Record Task := {
  taskJob : jsstring;
  taskUserKey : jsstring;           (* [userKey] captured by the .finally closure *)
  taskModel : jsstring;
  taskPc : TaskPc
}.

(** The module-level state: the job store (a [Map] in insertion order, here
    the list of its values), the guard singleton and the background tasks.
    [releases] is a trace of the calls [rateLimitGuard.release(key)], each
    with the id of the job on whose behalf it was made. *)
Record Engine := {
  agentJobs : list AgentJob;
  rateLimitGuard : RateLimitGuard.t;
  tasks : list Task;
  releases : list (jsstring * jsstring)
}.

Definition newEngine (cfg : RateLimitConfig) : Engine :=
  {| agentJobs := []; rateLimitGuard := RateLimitGuard.new cfg; tasks := [];
     releases := [] |}.

(** [agentJobs.get(id)] *)
Definition getJob (jobId : jsstring) (jobs : list AgentJob) : option AgentJob :=
  List.find (fun j => eqb (id j) jobId) jobs.

(** [agentJobs.set(id, job)] *)
Definition setJob (job : AgentJob) (jobs : list AgentJob) : list AgentJob :=
  match getJob (id job) jobs with
  | Some _ => (fun j => if eqb (id j) (id job) then job else j) <$> jobs
  | None => jobs ++ [job]
  end.

(** Assignment to fields of the job object with the given id (the object is
    shared by the store and by the task that owns it). *)
Definition mutateJob (jobId : jsstring) (f : AgentJob -> AgentJob)
    (jobs : list AgentJob) : list AgentJob :=
  (fun j => if eqb (id j) jobId then f j else j) <$> jobs.

Definition withProgress (p : jsstring) (j : AgentJob) : AgentJob :=
  {| id := id j; status := status j; jobPrompt := jobPrompt j;
     createdAt := createdAt j; completedAt := completedAt j; result := result j;
     error := error j; progress := Some p; _userKey := _userKey j |}.

Definition withFailure (now : Z) (msg : jsstring) (j : AgentJob) : AgentJob :=
  {| id := id j; status := Failed; jobPrompt := jobPrompt j;
     createdAt := createdAt j; completedAt := Some now; result := result j;
     error := Some msg; progress := progress j; _userKey := _userKey j |}.

Definition withCompletion (now : Z) (r : JobResult) (j : AgentJob) : AgentJob :=
  {| id := id j; status := Completed; jobPrompt := jobPrompt j;
     createdAt := createdAt j; completedAt := Some now; result := Some r;
     error := error j; progress := progress j; _userKey := _userKey j |}.

Definition asCandidate (j : AgentJob) : StaleJobCandidate :=
  {| candId := id j; candStatus := status j; candCreatedAt := createdAt j |}.

(** [s || fallback] for an optional string. *)
Definition orElse (s : option jsstring) (fallback : jsstring) : jsstring :=
  match s with
  | Some (c :: r) => c :: r
  | _ => fallback
  end.

(** [rateLimitGuard.release(key)], logged. *)
Definition releaseFor (jobId key : jsstring) (e : Engine) : Engine :=
  {| agentJobs := agentJobs e;
     rateLimitGuard := RateLimitGuard.release key (rateLimitGuard e);
     tasks := tasks e;
     releases := releases e ++ [(jobId, key)] |}.

Definition withJobs (f : list AgentJob -> list AgentJob) (e : Engine) : Engine :=
  {| agentJobs := f (agentJobs e); rateLimitGuard := rateLimitGuard e;
     tasks := tasks e; releases := releases e |}.

Definition withPc (jobId : jsstring) (pc : TaskPc) (e : Engine) : Engine :=
  {| agentJobs := agentJobs e; rateLimitGuard := rateLimitGuard e;
     tasks := (fun t => if eqb (taskJob t) jobId
                        then {| taskJob := taskJob t; taskUserKey := taskUserKey t;
                                taskModel := taskModel t; taskPc := pc |}
                        else t) <$> tasks e;
     releases := releases e |}.

(** ** The stale-job reaper (one tick of its [setInterval]) *)

Definition timeoutMessage (cfg : RateLimitConfig) : jsstring :=
  js "Job timed out after " ++ showThousandths (staleJobTimeoutMs cfg)
    ++ js "s without completing.".

Definition reapJob (now : Z) (e : Engine) (jobId : jsstring) : Engine :=
  match getJob jobId (agentJobs e) with
  | Some job =>
      let cfg := RateLimitGuard.config (rateLimitGuard e) in
      releaseFor jobId (orElse (_userKey job) [])
        (withJobs (mutateJob jobId (withFailure now (timeoutMessage cfg))) e)
  | None => e
  end.

Definition reaperTick (now : Z) (e : Engine) : Engine :=
  let staleIds :=
    findStaleJobs now (asCandidate <$> agentJobs e)
      (staleJobTimeoutMs (RateLimitGuard.config (rateLimitGuard e))) in
  foldl (reapJob now) e staleIds.

(** ** startAgent *)

Record StartResult := {
  srId : jsstring;
  srStatus : jsstring;
  srRateLimited : option bool;
  srRetryAfterSeconds : option jsnum;
  srError : option jsstring
}.

Definition modelError (requestedModel : jsstring) (cfg : AgentConfig) : jsstring :=
  js "Model " ++ dquote ++ requestedModel ++ dquote
    ++ js " is not in the allowed list: " ++ join (js ", ") (allowedModels cfg).

(** [jobId] is the value of [uuidv4()].  The call is synchronous up to the
    first [await] of [runAgentJob], which has by then set [job.progress]. *)
Definition startAgent (now : Z) (jobId : jsstring) (request : AgentJobRequest)
    (cfg : AgentConfig) (copilotToken : option jsstring) (e : Engine)
    : StartResult * Engine :=
  let userKey := orElse copilotToken (js "__server__") in
  let '(gate, g) := RateLimitGuard.check now userKey (rateLimitGuard e) in
  let e1 := {| agentJobs := agentJobs e; rateLimitGuard := g;
               tasks := tasks e; releases := releases e |} in
  if negb (allowed gate) then
    ({| srId := jobId; srStatus := js "rate_limited"; srRateLimited := Some true;
        srRetryAfterSeconds := retryAfterSeconds gate; srError := reason gate |},
     e1)
  else
    let requestedModel := orElse (model request) (defaultModel cfg) in
    if negb (bool_decide (requestedModel ∈ allowedModels cfg)) then
      ({| srId := jobId; srStatus := js "failed"; srRateLimited := None;
          srRetryAfterSeconds := None;
          srError := Some (modelError requestedModel cfg) |},
       e1)
    else
      let job := {| id := jobId; status := Processing; jobPrompt := prompt request;
                    createdAt := now; completedAt := None; result := None;
                    error := None;
                    progress := Some (js "Initializing Copilot SDK agent...");
                    _userKey := Some userKey |} in
      ({| srId := jobId; srStatus := js "processing"; srRateLimited := None;
          srRetryAfterSeconds := None; srError := None |},
       {| agentJobs := setJob job (agentJobs e1);
          rateLimitGuard := RateLimitGuard.acquire now userKey g;
          tasks := tasks e1 ++ [{| taskJob := jobId; taskUserKey := userKey;
                                   taskModel := requestedModel;
                                   taskPc := AwaitClient |}];
          releases := releases e1 |}).

(** ** runAgentJob, one resumption at a time *)

(** How the awaited operation of a suspended task comes back. *)
Inductive Resume :=
| Resolved (content : option jsstring)   (* the awaited promise is fulfilled;
                                            [content] is [response?.data?.content]
                                            for sendAndWait *)
| Rejected (message : jsstring).         (* it throws; [err.message || err] *)

Definition agentError (msg : jsstring) : jsstring := js "Agent error: " ++ msg.

(** The outer catch block, then the promise settles and the [.finally]
    callback releases the slot; no timer runs in between.  ([runAgentJob]
    catches whatever is thrown, so the [.catch] callback of [startAgent] never
    runs.) *)
Definition failAndSettle (now : Z) (t : Task) (msg : jsstring) (e : Engine) : Engine :=
  releaseFor (taskJob t) (taskUserKey t)
    (withPc (taskJob t) Settled
       (withJobs (mutateJob (taskJob t) (withFailure now (agentError msg))) e)).

Definition resumeTask (now : Z) (t : Task) (r : Resume) (e : Engine) : Engine :=
  match taskPc t, r with
  | AwaitClient, Resolved _ =>
      withPc (taskJob t) AwaitSession
        (withJobs
           (mutateJob (taskJob t)
              (withProgress (js "Creating agent session with model: " ++ taskModel t)))
           e)
  | AwaitSession, Resolved _ =>
      withPc (taskJob t) AwaitResponse
        (withJobs (mutateJob (taskJob t) (withProgress (js "Agent is researching..."))) e)
  | AwaitResponse, Resolved content =>
      withPc (taskJob t) (AwaitDestroy None)
        (withJobs
           (mutateJob (taskJob t)
              (withCompletion now
                 {| resSuccess := true;
                    resData := orElse content (js "No response generated");
                    resModel := taskModel t |}))
           e)
  | AwaitResponse, Rejected msg => withPc (taskJob t) (AwaitDestroy (Some msg)) e
  | AwaitClient, Rejected msg | AwaitSession, Rejected msg => failAndSettle now t msg e
  | AwaitDestroy None, _ =>
      (* errors of session.destroy() are ignored *)
      releaseFor (taskJob t) (taskUserKey t) (withPc (taskJob t) Settled e)
  | AwaitDestroy (Some msg), _ => failAndSettle now t msg e
  | Settled, _ => e
  end.

(** The quota snapshot of an [assistant.usage] event (the first available
    category), under either naming of its fields. *)
Record UsageSnapshot := {
  remainingPercentage : option Q;
  percent_remaining : option Q;
  usUsedRequests : option Z;
  remaining : option Z;
  usEntitlementRequests : option Z;
  entitlement : option Z;
  isUnlimitedEntitlement : option bool;
  unlimited : option bool;
  usResetDate : option jsstring
}.

(** The object handed to [rateLimitGuard.quota.update]. *)
Definition quotaSnapshot (snap : UsageSnapshot) : QuotaMonitor.Snapshot :=
  {| QuotaMonitor.snapRemainingPercent :=
       Some (default (100 # 1)
               (QuotaMonitor.nullish (remainingPercentage snap) (percent_remaining snap)));
     QuotaMonitor.snapUsedRequests :=
       Some (default 0 (QuotaMonitor.nullish (usUsedRequests snap) (remaining snap)));
     QuotaMonitor.snapEntitlementRequests :=
       Some (default (-1)
               (QuotaMonitor.nullish (usEntitlementRequests snap) (entitlement snap)));
     QuotaMonitor.snapIsUnlimited :=
       Some (default false
               (QuotaMonitor.nullish (isUnlimitedEntitlement snap) (unlimited snap)));
     QuotaMonitor.snapResetDate := usResetDate snap |}.

(** [assistant.usage] events reach the quota monitor while the session is
    waiting for its response. *)
Definition usageEvent (now : Z) (t : Task) (snap : UsageSnapshot) (e : Engine)
    : Engine :=
  match taskPc t with
  | AwaitResponse =>
      {| agentJobs := agentJobs e;
         rateLimitGuard :=
           RateLimitGuard.quotaUpdate now (taskUserKey t) (quotaSnapshot snap)
             (rateLimitGuard e);
         tasks := tasks e; releases := releases e |}
  | _ => e
  end.

(** ** The event loop *)

Inductive Event :=
| Start (jobId : jsstring) (request : AgentJobRequest) (cfg : AgentConfig)
        (copilotToken : option jsstring)
| Resumes (jobId : jsstring) (r : Resume)
| Usage (jobId : jsstring) (snap : UsageSnapshot)
| ReaperTick
| GuardGc.

Definition findTask (jobId : jsstring) (e : Engine) : option Task :=
  List.find (fun t => eqb (taskJob t) jobId) (tasks e).

(** One macrotask at wall-clock time [now]. *)
Definition step (e : Engine) (ev : Z * Event) : Engine :=
  let now := ev.1 in
  match ev.2 with
  | Start jobId request cfg copilotToken =>
      (startAgent now jobId request cfg copilotToken e).2
  | Resumes jobId r =>
      match findTask jobId e with
      | Some t => resumeTask now t r e
      | None => e
      end
  | Usage jobId snap =>
      match findTask jobId e with
      | Some t => usageEvent now t snap e
      | None => e
      end
  | ReaperTick => reaperTick now e
  | GuardGc =>
      {| agentJobs := agentJobs e;
         rateLimitGuard := RateLimitGuard.gcTick now (rateLimitGuard e);
         tasks := tasks e; releases := releases e |}
  end.

Definition run (e : Engine) (trace : list (Z * Event)) : Engine :=
  foldl step e trace.

(** How often [rateLimitGuard.release] was called for a job. *)
Definition releaseCount (jobId : jsstring) (e : Engine) : nat :=
  length (List.filter (fun r => eqb r.1 jobId) (releases e)).

(** [getAgentStatus] *)
Definition getAgentStatus (jobId : jsstring) (e : Engine) : option AgentJob :=
  getJob jobId (agentJobs e).

(** ** The agent configuration, from the environment *)

(** The two variables of [process.env] that name models. *)
Record AgentEnv := {
  COPILOT_AGENT_MODELS : option jsstring;
  COPILOT_AGENT_DEFAULT_MODEL : option jsstring
}.

Definition DEFAULT_MODELS : list jsstring :=
  [ js "gpt-4.1"; js "gpt-4o"; js "gpt-5-mini"; js "grok-code-fast-1" ].

(** [envModels.split(',').map((m) => m.trim()).filter(Boolean)], or the
    defaults when the variable is unset or empty. *)
Definition parseAllowedModels (env : AgentEnv) : list jsstring :=
  match COPILOT_AGENT_MODELS env with
  | Some (c :: r) =>
      List.filter (fun m => negb (eqb m [])) (trim <$> splitOn 44 (c :: r))
  | _ => DEFAULT_MODELS
  end.

Definition getDefaultModel (env : AgentEnv) : jsstring :=
  match COPILOT_AGENT_DEFAULT_MODEL env with
  | Some (c :: r) => trim (c :: r)
  | _ => orElse (head (parseAllowedModels env)) (js "gpt-4.1")
  end.

(** [buildAgentConfig], without the optional provider (which only enters
    the session configuration). *)
Definition buildAgentConfig (env : AgentEnv) : AgentConfig :=
  {| allowedModels := parseAllowedModels env;
     defaultModel := getDefaultModel env |}.

(** ** The cache of Copilot clients *)

(** A [CopilotClient]: which object it is, and the [githubToken] it was
    constructed with (the CLI path and URL are left out). *)
Record CopilotClient := {
  clientObject : nat;
  githubToken : option jsstring
}.

(** A value of [clientCache]. *)
Record CachedClient := {
  client : CopilotClient;
  lastUsed : Z
}.

Definition MAX_CLIENT_AGE_MS : Z := 30 * 60 * 1000.

(** [getCopilotClient(userToken)]: the client and the cache afterwards.
    [envToken] is [process.env.GITHUB_TOKEN]; [fresh] names the object that
    [new CopilotClient(...)] would create. *)
Definition getCopilotClient (envToken : option jsstring) (fresh : nat) (now : Z)
    (userToken : option jsstring) (clientCache : gmap jsstring CachedClient)
    : CopilotClient * gmap jsstring CachedClient :=
  let cacheKey := orElse userToken [] in
  match clientCache !! cacheKey with
  | Some existing =>
      (client existing,
       <[cacheKey := {| client := client existing; lastUsed := now |}]> clientCache)
  | None =>
      let token :=
        match userToken with
        | Some (c :: r) => Some (c :: r)
        | _ => match envToken with
               | Some (c :: r) => Some (c :: r)
               | _ => None
               end
        end in
      let created := {| clientObject := fresh; githubToken := token |} in
      (created, <[cacheKey := {| client := created; lastUsed := now |}]> clientCache)
  end.

(** One tick of the timer that purges stale clients: the cache afterwards
    (the clients it drops are stopped). *)
Definition purgeClients (now : Z) (clientCache : gmap jsstring CachedClient)
    : gmap jsstring CachedClient :=
  filter (fun kv => ¬ (MAX_CLIENT_AGE_MS < now - lastUsed kv.2)) clientCache.

End CopilotAgent.
Export CopilotAgent.

(* ===================================================================== *)
(** * local-scraper *)
(* ===================================================================== *)

Module LocalScraper.

(** ** External libraries

    cheerio, turndown, the WHATWG [URL] class and [String.prototype.toLowerCase]
    are not part of the repository; the scraper is written against this
    interface.  Selectors are taken to be well formed (cheerio throws on a
    malformed one). *)

(** One element of a cheerio selection. *)
Record Element := {
  elText : jsstring;                       (* $(el).text() *)
  elHtml : jsstring;                       (* $(el).html() *)
  elAttrs : list (jsstring * jsstring)     (* $(el).attr(name) *)
}.

Class Libs := {
  Dom : Type;
  load : jsstring -> Dom;                      (* cheerio.load(html) *)
  html : Dom -> jsstring;                      (* $.html() *)
  select : jsstring -> Dom -> list Element;    (* $(selector), document order *)
  remove : jsstring -> Dom -> Dom;             (* $(selector).remove() *)
  turndown : jsstring -> jsstring;             (* getTurndown().turndown(html) *)
  urlResolve : jsstring -> jsstring -> option jsstring;
                                               (* new URL(href, base).href;
                                                  None when the constructor throws *)
  urlSearchParam : jsstring -> jsstring -> option (option jsstring);
                                               (* new URL(u).searchParams.get(name);
                                                  None when the constructor throws *)
  toLowerCase : jsstring -> jsstring
}.

(** [sel.text()]: the texts of all matched elements, concatenated. *)
Definition text (sel : list Element) : jsstring := concat (elText <$> sel).

(** [sel.html()]: inner HTML of the first matched element, or null. *)
Definition innerHtml (sel : list Element) : option jsstring := elHtml <$> head sel.

(** [sel.attr(name)]: attribute of the first matched element, or undefined. *)
Definition attr (name : jsstring) (sel : list Element) : option jsstring :=
  head sel ≫= fun el => snd <$> List.find (fun kv => eqb kv.1 name) (elAttrs el).

(** [a || b] on optional strings (the empty string is falsy). *)
Definition orStr (a : option jsstring) (b : option jsstring) : option jsstring :=
  match a with
  | Some (_ :: _) => a
  | _ => b
  end.

(** [s || undefined] *)
Definition nonEmpty (s : jsstring) : option jsstring :=
  match s with
  | [] => None
  | _ => Some s
  end.

(** ** SPA / JS-rendered page detection *)

(** U+2026, the horizontal ellipsis. *)
Definition ellipsis : jsstring := [8230%N].

Definition SPA_LOADING_PATTERNS : list jsstring :=
  [ js "loading...";
    js "loading" ++ ellipsis;
    js "please wait";
    js "just a moment";
    js "checking your browser";
    js "one moment please";
    js "redirecting";
    js "enable javascript";
    js "javascript is required";
    js "javascript must be enabled";
    js "this app requires javascript";
    js "you need to enable javascript";
    js "noscript" ].

Definition SPA_ROOT_SELECTORS : list jsstring :=
  [ js "#root"; js "#app"; js "#__next"; js "#__nuxt"; js "#svelte";
    js "app-root"; js "#___gatsby"; js "#main-app" ].

Definition MIN_MEANINGFUL_TEXT_LENGTH : nat := 200.

(** [SCRIPT_HEAVY_RATIO = 0.65] as the fraction 13 / 20.  For lengths of
    JavaScript strings (below 2^53) the double comparison
    [scriptContent / htmlLength > 0.65] holds exactly when
    [20 * scriptContent > 13 * htmlLength]. *)
Definition SCRIPT_HEAVY_NUM : Z := 13.
Definition SCRIPT_HEAVY_DEN : Z := 20.

Definition len (s : jsstring) : Z := Z.of_nat (length s).

(** First pattern that the text includes ([for ... if (includes) return]). *)
Definition firstPattern (lowerText : jsstring) : option jsstring :=
  List.find (fun pattern => includes pattern lowerText) SPA_LOADING_PATTERNS.

Section Detect.
Context {L : Libs}.

(** The visible text: body text of a re-parsed copy without script, style
    and noscript elements, white space collapsed, trimmed. *)
Definition visibleText (doc : Dom) : jsstring :=
  let clone := remove (js "script, style, noscript") (load (html doc)) in
  trim (collapseWhiteSpace (text (select (js "body") clone))).

(** The loop over [SPA_ROOT_SELECTORS]: the first selector that matches and
    whose collapsed text is short, with the length of that text. *)
Fixpoint firstRootContainer (doc : Dom) (sels : list jsstring)
    : option (jsstring * nat) :=
  match sels with
  | [] => None
  | sel :: rest =>
      let el := select sel doc in
      match el with
      | _ :: _ =>
          let innerText := trim (collapseWhiteSpace (text el)) in
          if (length innerText <? MIN_MEANINGFUL_TEXT_LENGTH)%nat
          then Some (sel, length innerText)
          else firstRootContainer doc rest
      | [] => firstRootContainer doc rest
      end
  end.

(** Sum of [$(el).html()?.length || 0] over the script elements. *)
Definition scriptContentLength (doc : Dom) : Z :=
  foldl (fun sum el => sum + len (elHtml el)) 0 (select (js "script") doc).

(** [Math.round(ratio * 100)], on the exact quotient. *)
Definition roundPercent (scriptContent htmlLength : Z) : Z :=
  (200 * scriptContent + htmlLength) / (2 * htmlLength).

Definition scriptHeavy (rawHtml : jsstring) (doc : Dom) (trimmedText : jsstring)
    : option jsstring :=
  let scriptContent := scriptContentLength doc in
  let htmlLength := len rawHtml in
  if (1000 <? htmlLength)
     && (SCRIPT_HEAVY_NUM * htmlLength <? SCRIPT_HEAVY_DEN * scriptContent)
     && (length trimmedText <? MIN_MEANINGFUL_TEXT_LENGTH)%nat
  then Some (js "Script-heavy page (" ++ showInt (roundPercent scriptContent htmlLength)
               ++ js "% scripts, " ++ showInt (len trimmedText) ++ js " chars text)")
  else None.

(** Rule 2 and rule 3, reached when rule 1 returned nothing. *)
Definition shortPageOrScriptHeavy (rawHtml : jsstring) (doc : Dom)
    (trimmedText lowerText : jsstring) : option jsstring :=
  match (if (length trimmedText <? 500)%nat then firstPattern lowerText else None) with
  | Some pattern =>
      Some (js "Short page with loading indicator: " ++ dquote ++ pattern ++ dquote)
  | None => scriptHeavy rawHtml doc trimmedText
  end.

Definition detectSPASkeleton (rawHtml : jsstring) (_bodyText : jsstring) (doc : Dom)
    : option jsstring :=
  let trimmedText := visibleText doc in
  let lowerText := toLowerCase trimmedText in
  if (length trimmedText <? MIN_MEANINGFUL_TEXT_LENGTH)%nat then
    match firstRootContainer doc SPA_ROOT_SELECTORS with
    | Some (sel, n) =>
        Some (js "SPA root container " ++ dquote ++ sel ++ dquote
                ++ js " with minimal content (" ++ showInt (Z.of_nat n) ++ js " chars)")
    | None =>
        match firstPattern lowerText with
        | Some pattern =>
            Some (js "Loading indicator detected: " ++ dquote ++ pattern ++ dquote)
        | None =>
            if (length trimmedText <? 50)%nat
            then Some (js "Near-empty body text (" ++ showInt (len trimmedText)
                         ++ js " chars)")
            else shortPageOrScriptHeavy rawHtml doc trimmedText lowerText
        end
    end
  else shortPageOrScriptHeavy rawHtml doc trimmedText lowerText.

End Detect.

(** ** localScrape *)

(** An entry of [options.formats]: a string or an object with a [type]. *)
Inductive Format := FString (name : jsstring) | FTyped (type : jsstring).

Definition formatName (f : Format) : jsstring :=
  match f with
  | FString name => name
  | FTyped type => type
  end.

Record ScrapeOptions := {
  formats : option (list Format);
  onlyMainContent : bool;
  includeTags : option (list jsstring);
  excludeTags : option (list jsstring);
  waitFor : option Z;
  timeout : option Z;
  skipTlsVerification : bool;
  headers : list (jsstring * jsstring)
}.

Record Metadata := {
  title : jsstring;
  description : option jsstring;
  language : option jsstring;
  sourceURL : jsstring;
  url : jsstring;
  statusCode : Z;
  contentType : jsstring;
  proxyUsed : jsstring
}.

Record ScrapeData := {
  markdown : option jsstring;
  dataHtml : option jsstring;
  dataRawHtml : option jsstring;
  links : option (list jsstring);
  metadata : Metadata
}.

Record LocalScrapeResult := {
  success : bool;
  data : option ScrapeData;
  error : option jsstring
}.

(** A thrown JavaScript error. *)
Record JsError := {
  errName : jsstring;
  errMessage : jsstring
}.

Record Response := {
  respUrl : jsstring;                       (* response.url, after redirects *)
  respStatus : Z;
  respContentType : option jsstring;        (* response.headers.get('content-type') *)
  respText : JsError + jsstring             (* await response.text() *)
}.

(** What [await fetch(url, fetchOptions)] does. *)
Inductive FetchOutcome :=
| FetchThrows (err : JsError)
| FetchReturns (response : Response).

(** The part of [process.env] the server reads and writes. *)
Record ProcessEnv := {
  NODE_TLS_REJECT_UNAUTHORIZED : option jsstring;
  SCORCHCRAWL_LOCAL_PROXY : option jsstring;
  SCORCHCRAWL_API_URL : option jsstring
}.

Definition setTlsFlag (v : option jsstring) (env : ProcessEnv) : ProcessEnv :=
  {| NODE_TLS_REJECT_UNAUTHORIZED := v;
     SCORCHCRAWL_LOCAL_PROXY := SCORCHCRAWL_LOCAL_PROXY env;
     SCORCHCRAWL_API_URL := SCORCHCRAWL_API_URL env |}.

(** [obj[k] = v] on an object kept as its list of entries. *)
Fixpoint setEntry {A} (k : jsstring) (v : A) (obj : list (jsstring * A))
    : list (jsstring * A) :=
  match obj with
  | [] => [(k, v)]
  | (k', v') :: rest => if eqb k' k then (k, v) :: rest
                        else (k', v') :: setEntry k v rest
  end.

Definition defaultHeaders : list (jsstring * jsstring) :=
  [ (js "User-Agent",
     js "Mozilla/5.0 (Windows NT 10.0; Win64; x64) AppleWebKit/537.36 (KHTML, like Gecko) Chrome/131.0.0.0 Safari/537.36");
    (js "Accept",
     js "text/html,application/xhtml+xml,application/xml;q=0.9,image/avif,image/webp,*/*;q=0.8");
    (js "Accept-Language", js "en-US,en;q=0.9");
    (js "Accept-Encoding", js "gzip, deflate, br");
    (js "Cache-Control", js "no-cache") ].

(** [{ ...defaults, ...(options.headers || {}) }] *)
Definition requestHeaders (opts : ScrapeOptions) : list (jsstring * jsstring) :=
  foldl (fun acc kv => setEntry kv.1 kv.2 acc) defaultHeaders (headers opts).

(** [[...new Set(xs)]]: first occurrences, in order. *)
Definition uniq (xs : list jsstring) : list jsstring :=
  foldl (fun seen x => if bool_decide (x ∈ seen) then seen else seen ++ [x]) [] xs.

Definition needsServer (name : jsstring) : bool :=
  eqb name (js "json") || eqb name (js "screenshot")
  || eqb name (js "branding") || eqb name (js "summary").

Definition hasFormat (name : jsstring) (names : list jsstring) : bool :=
  bool_decide (name ∈ names).

(** [options.timeout || 30000] *)
Definition timeoutOf (opts : ScrapeOptions) : Z :=
  match timeout opts with
  | Some 0 | None => 30000
  | Some t => t
  end.

(** The catch block of [localScrape]. *)
Definition failure (opts : ScrapeOptions) (err : JsError) : LocalScrapeResult :=
  if eqb (errName err) (js "AbortError") then
    {| success := false; data := None;
       error := Some (js "Timeout after " ++ showInt (timeoutOf opts) ++ js "ms") |}
  else
    (* err.message || String(err); String(err) is the name when the message is empty *)
    {| success := false; data := None;
       error := Some (match errMessage err with
                            | [] => errName err
                            | m => m
                            end) |}.

Definition noiseSelector : jsstring :=
  js "nav, header, footer, aside, .sidebar, .menu, .navigation, .breadcrumb, .cookie-banner, .ad, .advertisement, [role="
    ++ dquote ++ js "navigation" ++ dquote ++ js "], [role="
    ++ dquote ++ js "banner" ++ dquote ++ js "], [role="
    ++ dquote ++ js "complementary" ++ dquote ++ js "]".

Definition mainSelectors : list jsstring :=
  [ js "main"; js "article";
    js "[role=" ++ dquote ++ js "main" ++ dquote ++ js "]";
    js ".main-content"; js ".content"; js "#content"; js "#main" ].

Definition metaProperty (name : jsstring) : jsstring :=
  js "meta[property=" ++ dquote ++ name ++ dquote ++ js "]".

Definition metaName (name : jsstring) : jsstring :=
  js "meta[name=" ++ dquote ++ name ++ dquote ++ js "]".

Section Scrape.
Context {L : Libs}.

(** The first main-content selector whose first element has more than 100
    code units of inner HTML; [''] when there is none. *)
Fixpoint findMainHtml (doc : Dom) (sels : list jsstring) : jsstring :=
  match sels with
  | [] => []
  | sel :: rest =>
      match head (select sel doc) with
      | Some el => if 100 <? len (elHtml el) then elHtml el
                   else findMainHtml doc rest
      | None => findMainHtml doc rest
      end
  end.

Definition targetHtmlOf (opts : ScrapeOptions) (rawHtml : jsstring) (doc : Dom)
    : jsstring :=
  let bodyOrRaw := default rawHtml (orStr (innerHtml (select (js "body") doc)) None) in
  match includeTags opts with
  | Some (t :: ts) =>
      join (js (String "010" EmptyString))
        (List.filter (fun h => negb (eqb h []))
           ((fun sel => default [] (innerHtml (select sel doc))) <$> (t :: ts)))
  | _ =>
      if onlyMainContent opts then
        match findMainHtml doc mainSelectors with
        | [] => bodyOrRaw
        | mainHtml => mainHtml
        end
      else bodyOrRaw
  end.

(** The two removals: the noise elements when [onlyMainContent] is set, then
    the caller's [excludeTags]. *)
Definition pruneDom (opts : ScrapeOptions) (doc0 : Dom) : Dom :=
  let doc1 := if onlyMainContent opts then remove noiseSelector doc0 else doc0 in
  match excludeTags opts with
  | Some (t :: ts) => remove (join (js ", ") (t :: ts)) doc1
  | _ => doc1
  end.

(** Whether the loop over [$('a[href]')] keeps an href. *)
Definition keepHref (href : jsstring) : bool :=
  negb (eqb href []) && negb (startsWith (js "#") href)
  && negb (startsWith (js "javascript:") href).

(** The loop over [$('a[href]')]: hrefs that are empty or start with [#] or
    [javascript:] are skipped; the others are resolved against [url], the
    address that was requested, and kept as they are when [new URL] throws. *)
Definition collectLinks (requestUrl : jsstring) (doc : Dom) : list jsstring :=
  omap (fun el =>
          match attr (js "href") [el] with
          | Some href =>
              if keepHref href
              then Some (default href (urlResolve href requestUrl))
              else None
          | None => None
          end)
       (select (js "a[href]") doc).

(** Everything after [await response.text()] has produced [rawHtml]. *)
Definition processBody (requestUrl : jsstring) (opts : ScrapeOptions)
    (response : Response) (rawHtml : jsstring) : LocalScrapeResult :=
  let names := formatName <$> default [FString (js "markdown")] (formats opts) in
  let contentType := default (js "text/html") (orStr (respContentType response) None) in
  let doc0 := load rawHtml in
  let title :=
    default []
      (orStr (Some (trim (default [] (elText <$> head (select (js "title") doc0)))))
         (orStr (attr (js "content") (select (metaProperty (js "og:title")) doc0))
                (Some []))) in
  let description :=
    default []
      (orStr (attr (js "content")
                (select (metaName (js "description")) doc0))
         (orStr (attr (js "content") (select (metaProperty (js "og:description")) doc0))
                (Some []))) in
  let language :=
    default [] (orStr (attr (js "lang") (select (js "html") doc0)) (Some [])) in
  let doc := pruneDom opts doc0 in
  let targetHtml := targetHtmlOf opts rawHtml doc in
  let d :=
    {| markdown := if hasFormat (js "markdown") names
                   then Some (turndown targetHtml) else None;
       dataHtml := if hasFormat (js "html") names then Some targetHtml else None;
       dataRawHtml := if hasFormat (js "rawHtml") names then Some rawHtml else None;
       links := if hasFormat (js "links") names
                then Some (uniq (collectLinks requestUrl doc)) else None;
       metadata :=
         {| title := title;
            description := nonEmpty description;
            language := nonEmpty language;
            sourceURL := requestUrl;
            url := default requestUrl (orStr (Some (respUrl response)) None);
            statusCode := respStatus response;
            contentType := contentType;
            proxyUsed := js "local" |} |} in
  let bodyText := text (select (js "body") doc) in
  match detectSPASkeleton rawHtml bodyText doc with
  | Some _ =>
      {| success := false; data := Some d;
         error := Some (js "SPA_SKELETON_DETECTED") |}
  | None => {| success := true; data := Some d; error := None |}
  end.

(** [fetch] is what the network does with the request (address and
    headers).  The result comes with [process.env] as the call leaves it. *)
Definition localScrape (fetch : jsstring -> list (jsstring * jsstring) -> FetchOutcome)
    (requestUrl : jsstring) (opts : ScrapeOptions) (env : ProcessEnv)
    : LocalScrapeResult * ProcessEnv :=
  let names := formatName <$> default [FString (js "markdown")] (formats opts) in
  if existsb needsServer names then
    ({| success := false; data := None;
        error := Some (js "FORMAT_NEEDS_SERVER") |}, env)
  else
    let env1 := if skipTlsVerification opts
                then setTlsFlag (Some (js "0")) env else env in
    match fetch requestUrl (requestHeaders opts) with
    | FetchThrows err => (failure opts err, env1)
    | FetchReturns response =>
        let env2 := if skipTlsVerification opts
                    then setTlsFlag None env1 else env1 in
        match respText response with
        | inl err => (failure opts err, env2)
        | inr rawHtml => (processBody requestUrl opts response rawHtml, env2)
        end
    end.

(** [isLocalProxyEnabled] *)
Definition isLocalProxyEnabled (env : ProcessEnv) : bool :=
  let flag := SCORCHCRAWL_LOCAL_PROXY env in
  if bool_decide (toLowerCase <$> flag = Some (js "true"))
     || bool_decide (flag = Some (js "1"))
  then true
  else
    match SCORCHCRAWL_API_URL env with
    | Some (c :: r) =>
        match urlSearchParam (c :: r) (js "localProxy") with
        | Some v => bool_decide (v = Some (js "true")) || bool_decide (v = Some (js "1"))
        | None => false
        end
    | _ => false
    end.

End Scrape.

End LocalScraper.

(* ===================================================================== *)
(** * The entry point: tool dispatch *)
(* ===================================================================== *)

Module McpServer.
Import LocalScraper.

(** Tool arguments: JSON values (numbers in the fields read here are
    integral). *)
#[warnings="-register-all"]
Inductive JsValue :=
| VUndefined
| VNull
| VBool (b : bool)
| VNumber (z : Z)
| VString (s : jsstring)
| VArray (items : list JsValue)
| VObject (fields : list (jsstring * JsValue)).

(** An object as the list of its own enumerable entries, in the order of
    [Object.entries]. *)
Abbreviation JsObject := (list (jsstring * JsValue)).

(** The four [continue] tests of [removeEmptyTopLevel]. *)
Definition isEmptyLeaf (v : JsValue) : bool :=
  match v with
  | VUndefined | VNull => true                 (* v == null *)
  | VString s => eqb (trim s) []               (* v.trim() === '' *)
  | VArray [] => true                          (* v.length === 0 *)
  | VObject [] => true                         (* Object.keys(v).length === 0 *)
  | _ => false
  end.

(** [out[k] = v] creates an own property, except for the key [__proto__],
    which on an object literal is the prototype accessor. *)
Definition assignable (k : jsstring) : bool := negb (eqb k (js "__proto__")).

Definition removeEmptyTopLevel (obj : JsObject) : JsObject :=
  List.filter (fun kv => negb (isEmptyLeaf kv.2) && assignable kv.1) obj.

(** [obj[k]] *)
Definition getField (k : jsstring) (obj : JsObject) : JsValue :=
  default VUndefined (snd <$> List.find (fun kv => eqb kv.1 k) obj).

Definition asStrings (v : JsValue) : option (list jsstring) :=
  match v with
  | VArray items =>
      Some (omap (fun i => match i with VString s => Some s | _ => None end) items)
  | _ => None
  end.

Definition asFormat (v : JsValue) : option Format :=
  match v with
  | VString s => Some (FString s)
  | VObject fields =>
      match getField (js "type") fields with
      | VString t => Some (FTyped t)
      | _ => None
      end
  | _ => None
  end.

(** [cleaned as any], read as the options of [localScrape]. *)
Definition optionsOf (cleaned : JsObject) : ScrapeOptions :=
  {| formats := match getField (js "formats") cleaned with
                | VArray items => Some (omap asFormat items)
                | _ => None
                end;
     onlyMainContent := match getField (js "onlyMainContent") cleaned with
                        | VBool b => b
                        | _ => false
                        end;
     includeTags := asStrings (getField (js "includeTags") cleaned);
     excludeTags := asStrings (getField (js "excludeTags") cleaned);
     waitFor := match getField (js "waitFor") cleaned with
                | VNumber z => Some z
                | _ => None
                end;
     timeout := match getField (js "timeout") cleaned with
                | VNumber z => Some z
                | _ => None
                end;
     skipTlsVerification := match getField (js "skipTlsVerification") cleaned with
                            | VBool b => b
                            | _ => false
                            end;
     headers := match getField (js "headers") cleaned with
                | VObject fields =>
                    omap (fun kv => match kv.2 with
                                    | VString s => Some (kv.1, s)
                                    | _ => None
                                    end) fields
                | _ => []
                end |}.

Definition ORIGIN : jsstring := js "scorchcrawl-mcp".

(** A call [client.scrape(url, options)] on the engine client. *)
Record EngineRequest := {
  reqUrl : jsstring;
  reqOptions : JsObject
}.

(** The value handed to [asText], or the exception that leaves [execute]. *)
Inductive Outcome :=
| LocalResult (r : LocalScrapeResult)
| EngineResult (res : JsValue)
| Thrown (err : JsError).

Record Execution := {
  outcome : Outcome;
  engineCalls : list EngineRequest;   (* the calls made to the engine, in order *)
  envAfter : ProcessEnv
}.

Section Scrape.
Context {L : Libs}.
(** [getClient(session).scrape(...)]: the engine's answer, or what is thrown
    (by [getClient] or by the call). *)
Variable engine : EngineRequest -> JsError + JsValue.
Variable fetch : jsstring -> list (jsstring * jsstring) -> FetchOutcome.

Definition viaEngine (requestUrl : jsstring) (cleaned : JsObject) (env : ProcessEnv)
    : Execution :=
  let req := {| reqUrl := requestUrl;
                reqOptions := setEntry (js "origin") (VString ORIGIN) cleaned |} in
  {| outcome := match engine req with
                | inl err => Thrown err
                | inr res => EngineResult res
                end;
     engineCalls := [req];
     envAfter := env |}.

(** [execute] of the tool [scorch_scrape]. *)
Definition scorch_scrape (requestUrl : jsstring) (options : JsObject) (env : ProcessEnv)
    : Execution :=
  let cleaned := removeEmptyTopLevel options in
  if isLocalProxyEnabled env then
    let '(localResult, env') := localScrape fetch requestUrl (optionsOf cleaned) env in
    if negb (success localResult)
       && bool_decide (error localResult = Some (js "FORMAT_NEEDS_SERVER"))
    then viaEngine requestUrl cleaned env'
    else {| outcome := LocalResult localResult; engineCalls := []; envAfter := env' |}
  else viaEngine requestUrl cleaned env.

End Scrape.

(** ** Authentication of a session and the engine client *)

(** A value of [IncomingHttpHeaders]: a string, or an array of strings. *)
Inductive HeaderValue :=
| Single (value : jsstring)
| Multiple (values : list jsstring).

(** [headers[name]] *)
Definition header (name : jsstring) (headers : list (jsstring * HeaderValue))
    : option HeaderValue :=
  snd <$> List.find (fun kv => eqb kv.1 name) headers.

(** Truthiness of a header value: an array is truthy, also an empty one. *)
Definition truthyHeader (v : option HeaderValue) : bool :=
  match v with
  | Some (Single (_ :: _)) | Some (Multiple _) => true
  | _ => false
  end.

(** [a || b] *)
Definition orHeader (a b : option HeaderValue) : option HeaderValue :=
  if truthyHeader a then a else b.

(** [Array.isArray(v) ? v[0] : v] *)
Definition firstValue (v : option HeaderValue) : option jsstring :=
  match v with
  | Some (Single s) => Some s
  | Some (Multiple values) => head values
  | None => None
  end.

(** The variables of [process.env] that the authentication reads, besides
    those of [ProcessEnv]. *)
Record ServerEnv := {
  CLOUD_SERVICE : option jsstring;
  SCORCHCRAWL_API_KEY : option jsstring;
  GITHUB_TOKEN : option jsstring
}.

Record SessionData := {
  scraperApiKey : option jsstring;
  copilotToken : option jsstring
}.

(** What [authenticate] does: it returns a session, throws, or ends the
    process. *)
Inductive AuthOutcome :=
| Authenticated (session : SessionData)
| AuthThrows (message : jsstring)
| ProcessExits (exitCode : Z).

(** The configuration that [createClient] hands to [new ScorchClient]. *)
Record ClientConfig := {
  apiUrl : option jsstring;
  apiKey : option jsstring
}.

Section Auth.
Context {L : Libs}.

Definition extractApiKey (headers : list (jsstring * HeaderValue)) : option jsstring :=
  let headerAuth := header (js "authorization") headers in
  let headerApiKey :=
    orHeader (header (js "x-scorchcrawl-api-key") headers)
             (header (js "x-api-key") headers) in
  if truthyHeader headerApiKey then firstValue headerApiKey
  else
    match headerAuth with
    | Some (Single s) =>
        if startsWith (js "bearer ") (toLowerCase s) then Some (trim (drop 7 s))
        else None
    | _ => None
    end.

Definition extractCopilotToken (senv : ServerEnv)
    (headers : list (jsstring * HeaderValue)) : option jsstring :=
  let copilotHeader :=
    orHeader (header (js "x-copilot-token") headers)
             (header (js "x-github-token") headers) in
  if truthyHeader copilotHeader then firstValue copilotHeader
  else orStr (GITHUB_TOKEN senv) None.

(** The [authenticate] callback of the server. *)
Definition authenticate (senv : ServerEnv) (env : ProcessEnv)
    (headers : list (jsstring * HeaderValue)) : AuthOutcome :=
  let token := extractCopilotToken senv headers in
  if bool_decide (CLOUD_SERVICE senv = Some (js "true")) then
    match extractApiKey headers with
    | Some (c :: r) =>
        Authenticated {| scraperApiKey := Some (c :: r); copilotToken := token |}
    | _ => AuthThrows (js "API key is required")
    end
  else
    match orStr (SCORCHCRAWL_API_KEY senv) (SCORCHCRAWL_API_URL env) with
    | Some (_ :: _) =>
        Authenticated {| scraperApiKey := SCORCHCRAWL_API_KEY senv;
                         copilotToken := token |}
    | _ => ProcessExits 1
    end.

(** [cleanUrl] is the value of [getCleanApiUrl()]. *)
Definition createClient (cleanUrl : option jsstring) (key : option jsstring)
    : ClientConfig :=
  {| apiUrl := orStr cleanUrl None; apiKey := orStr key None |}.

(** [getClient(session)]: the client's configuration, or what is thrown. *)
Definition getClient (senv : ServerEnv) (env : ProcessEnv) (cleanUrl : option jsstring)
    (session : option SessionData) : JsError + ClientConfig :=
  let key := session ≫= scraperApiKey in
  if bool_decide (CLOUD_SERVICE senv = Some (js "true")) then
    match key with
    | Some (_ :: _) => inr (createClient cleanUrl key)
    | _ => inl {| errName := js "Error"; errMessage := js "Unauthorized" |}
    end
  else
    match orStr (SCORCHCRAWL_API_URL env) key with
    | Some (_ :: _) => inr (createClient cleanUrl key)
    | _ =>
        inl {| errName := js "Error";
               errMessage :=
                 js "Unauthorized: API key is required when not using a self-hosted instance" |}
    end.

End Auth.

End McpServer.

(* ===================================================================== *)
(** * Response processing: error mapping and truncation *)
(* ===================================================================== *)

Module ResponseUtils.

(** What a [catch] block receives: [null] or [undefined]; an [Error], with
    the numeric [status], [statusCode] and [response.status] that fetch and
    Axios errors may carry; a string; or any other value, given by what
    [JSON.stringify] does with it ([None] when it throws, [Some None] when it
    returns [undefined]) and by [String(err)]. *)
Inductive Caught :=
| CaughtNullish
| CaughtError (message : jsstring) (status statusCode responseStatus : option Z)
| CaughtString (s : jsstring)
| CaughtOther (json : option (option jsstring)) (asString : jsstring).

Record MappedError := {
  code : jsstring;
  message : jsstring;
  suggestions : list jsstring;
  originalError : option jsstring
}.

(** A number that is truthy: present and not zero. *)
Definition truthyNumber (n : option Z) : option Z :=
  match n with
  | Some 0 | None => None
  | Some z => Some z
  end.

(** [status || statusCode || axiosStatus], when the result is truthy. *)
Definition firstTruthy (status statusCode axiosStatus : option Z) : option Z :=
  match truthyNumber status with
  | Some z => Some z
  | None =>
      match truthyNumber statusCode with
      | Some z => Some z
      | None => truthyNumber axiosStatus
      end
  end.

Definition normalizeErrorString (err : Caught) : jsstring :=
  match err with
  | CaughtNullish => js "Unknown error"
  | CaughtError message status statusCode responseStatus =>
      match firstTruthy status statusCode responseStatus with
      | Some s => js "HTTP " ++ showInt s ++ js ": " ++ message
      | None => message
      end
  | CaughtString s => s
  | CaughtOther (Some (Some (c :: r))) _ => c :: r
  | CaughtOther (Some _) _ => js "Unknown error"
  | CaughtOther None asString => asString
  end.

(** [patterns.some((p) => lower.includes(p))] *)
Definition matches (lower : jsstring) (patterns : list jsstring) : bool :=
  existsb (fun p => includes p lower) patterns.

(** [\d{3}] at the start of [s], as a number. *)
Definition threeDigits (s : jsstring) : option Z :=
  match s with
  | a :: b :: c :: _ =>
      match digitOf a, digitOf b, digitOf c with
      | Some x, Some y, Some z => Some (100 * x + 10 * y + z)
      | _, _, _ => None
      end
  | _ => None
  end.

(** A match, starting at the first code unit of [s], of the regular
    expression of [matchesStatusRange]: the word status, white space, then
    optionally the word code and white space; or the word http and white
    space; then three digits, which are captured.  White space is followed
    by a letter or a digit, so a shorter run of it never matches where the
    longest one does not. *)
Definition statusAt (s : jsstring) : option Z :=
  if startsWith (js "status") s then
    let r := trimStart (drop 6 s) in
    if startsWith (js "code") r then
      match threeDigits (trimStart (drop 4 r)) with
      | Some c => Some c
      | None => threeDigits r
      end
    else threeDigits r
  else if startsWith (js "http") s then threeDigits (trimStart (drop 4 s))
  else None.

(** [lower.match(...)]: the leftmost match. *)
Fixpoint statusMatch (s : jsstring) : option Z :=
  match statusAt s with
  | Some c => Some c
  | None =>
      match s with
      | [] => None
      | _ :: r => statusMatch r
      end
  end.

Definition matchesStatusRange (lower : jsstring) (from to : Z) : bool :=
  match statusMatch lower with
  | Some c => (from <=? c) && (c <=? to)
  | None => existsb (fun s => includes (showInt s) lower) (seqZ from (to - from + 1))
  end.

Definition truncateString (s : jsstring) (maxLen : Z) : jsstring :=
  if Z.of_nat (length s) <=? maxLen then s
  else slice0 (maxLen - 3) s ++ js "...".

(** U+2014, the em dash. *)
Definition emDash : jsstring := [8212%N].

Section MapError.
(** [String.prototype.toLowerCase] *)
Variable toLowerCase : jsstring -> jsstring.

Definition mapError (err : Caught) : MappedError :=
  let raw := normalizeErrorString err in
  let lower := toLowerCase raw in
  if matches lower [js "403"; js "forbidden"; js "cloudflare"; js "cf-ray";
                    js "challenge"; js "access denied"] then
    {| code := js "ACCESS_DENIED";
       message := js "This site blocks automated access.";
       suggestions :=
         [ js "Try scorch_search to find cached/indexed content instead";
           js "Add waitFor: 5000 to let challenge pages resolve";
           js "Try with proxy: " ++ dquote ++ js "stealth" ++ dquote
             ++ js " for enhanced bot evasion" ];
       originalError := Some raw |}
  else if matches lower [js "404"; js "not found"; js "page not found";
                         js "does not exist"] then
    {| code := js "NOT_FOUND";
       message := js "Page does not exist at this URL.";
       suggestions :=
         [ js "Use scorch_map to discover correct URLs on the site";
           js "Check if the URL has a typo or outdated path";
           js "Try scorch_search to find the current location of this content" ];
       originalError := Some raw |}
  else if matches lower [js "429"; js "rate limit"; js "too many requests";
                         js "throttl"] then
    {| code := js "RATE_LIMITED";
       message := js "Rate limited by the target site.";
       suggestions :=
         [ js "Wait 30 seconds and retry";
           js "Try a different URL on the same site";
           js "Use scorch_search to find the content from a different source" ];
       originalError := Some raw |}
  else if matchesStatusRange lower 500 599 then
    {| code := js "SERVER_ERROR";
       message := js "The target site returned a server error.";
       suggestions :=
         [ js "Retry once " ++ emDash
             ++ js " the site may be experiencing temporary issues";
           js "Try again in a few minutes if it persists" ];
       originalError := Some raw |}
  else if matches lower [js "timeout"; js "aborterror"; js "aborted";
                         js "timed out"; js "etimedout"] then
    {| code := js "TIMEOUT";
       message := js "Page took too long to load.";
       suggestions :=
         [ js "Add onlyMainContent: true to reduce processing time";
           js "Increase waitFor to give JS more time to render";
           js "Try with a simpler format like markdown instead of screenshot" ];
       originalError := Some raw |}
  else if matches lower [js "econnrefused"; js "enotfound"; js "dns";
                         js "getaddrinfo"; js "connect failed"] then
    if matches lower [js "localhost"; js "127.0.0.1"; js "0.0.0.0"; js "3002";
                      js "engine"; js "api"] then
      {| code := js "ENGINE_UNAVAILABLE";
         message := js "Scraping engine is not running.";
         suggestions :=
           [ js "Check that Docker services are up: docker compose up -d";
             js "Verify SCORCHCRAWL_API_URL is correct in your config" ];
         originalError := Some raw |}
    else
      {| code := js "CONNECTION_FAILED";
         message := js "Cannot reach this URL.";
         suggestions :=
           [ js "Check if the URL is correct and accessible";
             js "The site may be down " ++ emDash ++ js " try again later";
             js "Try scorch_search to find alternative sources" ];
         originalError := Some raw |}
  else if matches lower [js "ssl"; js "tls"; js "certificate"; js "cert";
                         js "self-signed"; js "unable to verify"] then
    {| code := js "TLS_ERROR";
       message := js "SSL certificate issue with this site.";
       suggestions := [ js "Try with skipTlsVerification: true" ];
       originalError := Some raw |}
  else if matches lower [js "empty"; js "no content"; js "no markdown";
                         js "no extractable"] then
    {| code := js "EMPTY_CONTENT";
       message := js "Page returned no extractable content.";
       suggestions :=
         [ js "Use scorch_map with a search param to find the right page";
           js "Add waitFor: 5000 for JavaScript-rendered pages";
           js "Try with formats: [" ++ dquote ++ js "html" ++ dquote
             ++ js "] to see the raw page structure" ];
       originalError := Some raw |}
  else if matches lower [js "spa_skeleton_detected"; js "spa detected";
                         js "javascript is required"] then
    {| code := js "SPA_DETECTED";
       message := js "Page requires JavaScript rendering (SPA detected).";
       suggestions :=
         [ js "Add waitFor: 5000 to allow JavaScript to render";
           js "The engine will automatically retry with Playwright" ];
       originalError := Some raw |}
  else
    {| code := js "UNKNOWN_ERROR";
       message := js "Scraping failed: " ++ truncateString raw 200;
       suggestions :=
         [ js "Try a different URL or format";
           js "Use scorch_search as an alternative data source" ];
       originalError := Some raw |}.

End MapError.

(** ** Content truncation *)

(** The double [0.7] is [DOUBLE_0_7 / 2^53]. *)
Definition DOUBLE_0_7 : Z := 6305039478318694.

(** The multiple of a power of two, with a factor below 2^53, that is
    nearest to [p >= 0]; of two nearest ones, the one with the even factor.
    This is how a product of doubles is rounded. *)
Definition roundToDouble (p : Z) : Z :=
  let shift := Z.log2 p - 52 in
  if shift <=? 0 then p
  else
    let q := p / 2 ^ shift in
    let r := p mod 2 ^ shift in
    let half := 2 ^ (shift - 1) in
    (if (half <? r) || ((r =? half) && Z.odd q) then q + 1 else q) * 2 ^ shift.

(** [Math.floor(n * 0.7)] for an integral [n] below 2^53 in absolute
    value, in double arithmetic. *)
Definition floorTimes0_7 (n : Z) : Z :=
  let v := roundToDouble (Z.abs n * DOUBLE_0_7) in
  (if n <? 0 then - v else v) / 2 ^ 53.

Record Truncation := {
  text : jsstring;
  wasTruncated : bool
}.

Definition truncateAtBoundary (content : jsstring) (maxChars : Z) : Truncation :=
  if Z.of_nat (length content) <=? maxChars then
    {| text := content; wasTruncated := false |}
  else
    let searchWindow := slice0 maxChars content in
    let headingMatch := lastIndexOf [10%N; 35%N] searchWindow in
    let paraMatch := lastIndexOf [10%N; 10%N] searchWindow in
    let lineMatch := lastIndexOf [10%N] searchWindow in
    let sentenceMatch :=
      Z.max (lastIndexOf [46%N; 32%N] searchWindow)
            (lastIndexOf [46%N; 10%N] searchWindow) in
    let minBreak := floorTimes0_7 maxChars in
    let breakPoint :=
      if minBreak <? headingMatch then headingMatch
      else if minBreak <? paraMatch then paraMatch
      else if minBreak <? lineMatch then lineMatch
      else if minBreak <? sentenceMatch then sentenceMatch + 1
      else maxChars in
    {| text := trimEnd (slice0 breakPoint content); wasTruncated := true |}.

(** [text.split(/\s+/).filter(Boolean).length] *)
Definition wordCount (s : jsstring) : nat :=
  length (List.filter (fun piece => negb (eqb piece [])) (splitWhiteSpace s)).

End ResponseUtils.

(* ===================================================================== *)
(** * The Playwright service: the page semaphore *)
(* ===================================================================== *)

Module PlaywrightService.

(** ** class Semaphore

    A waiter is the [resolve] function of the promise that [acquire]
    returned; it is named by the request that awaits it. *)

Module Semaphore.

Record t := {
  permits : Z;
  queue : list jsstring
}.

Definition new (n : Z) : t := {| permits := n; queue := [] |}.

(** [acquire()] by the request [waiter]: whether the promise is resolved at
    once, and the instance afterwards. *)
Definition acquire (waiter : jsstring) (this : t) : bool * t :=
  if 0 <? permits this
  then (true, {| permits := permits this - 1; queue := queue this |})
  else (false, {| permits := permits this; queue := queue this ++ [waiter] |}).

(** [release()]: the waiter that is resumed, if any, and the instance
    afterwards. *)
Definition release (this : t) : option jsstring * t :=
  match queue this with
  | nextResolve :: rest =>
      (Some nextResolve, {| permits := permits this + 1 - 1; queue := rest |})
  | [] => (None, {| permits := permits this + 1; queue := [] |})
  end.

Definition getAvailablePermits (this : t) : Z := permits this.

Definition getQueueLength (this : t) : nat := length (queue this).

End Semaphore.

(** ** The handler of POST /scrape, as far as the semaphore goes

    A request awaits [pageSemaphore.acquire()], works on its page, and
    calls [pageSemaphore.release()] in its [finally] block. *)

Record Pages := {
  pageSemaphore : Semaphore.t;
  working : list jsstring;      (* the requests between acquire and release *)
  enqueued : list jsstring;     (* the requests that had to wait, in order *)
  resumed : list jsstring       (* the waiters that release() resumed, in order *)
}.

Definition start (maxConcurrentPages : Z) : Pages :=
  {| pageSemaphore := Semaphore.new maxConcurrentPages;
     working := []; enqueued := []; resumed := [] |}.

Inductive PageEvent :=
| Arrives (request : jsstring)      (* the handler reaches [await acquire()] *)
| Finishes (request : jsstring).    (* the handler reaches its [finally] block *)

(** The first occurrence of [x] is taken out. *)
Fixpoint removeFirst (x : jsstring) (xs : list jsstring) : list jsstring :=
  match xs with
  | [] => []
  | y :: rest => if eqb y x then rest else y :: removeFirst x rest
  end.

Definition pageStep (p : Pages) (ev : PageEvent) : Pages :=
  match ev with
  | Arrives request =>
      let '(granted, s) := Semaphore.acquire request (pageSemaphore p) in
      {| pageSemaphore := s;
         working := if granted : bool then working p ++ [request] else working p;
         enqueued := if granted then enqueued p else enqueued p ++ [request];
         resumed := resumed p |}
  | Finishes request =>
      if bool_decide (request ∈ working p) then
        let '(next, s) := Semaphore.release (pageSemaphore p) in
        {| pageSemaphore := s;
           working := removeFirst request (working p)
                      ++ match next with Some w => [w] | None => [] end;
           enqueued := enqueued p;
           resumed := resumed p ++ match next with Some w => [w] | None => [] end |}
      else p
  end.

Definition pages (maxConcurrentPages : Z) (events : list PageEvent) : Pages :=
  foldl pageStep (start maxConcurrentPages) events.

(** [activePages] of GET /health *)
Definition activePages (maxConcurrentPages : Z) (p : Pages) : Z :=
  maxConcurrentPages - Semaphore.getAvailablePermits (pageSemaphore p).

End PlaywrightService.

(* ===================================================================== *)
(** * Concrete inputs *)
(* ===================================================================== *)

Module Examples.
Import LocalScraper McpServer.

(** [testConfig()] of tests/rate-limiter.test.ts. *)
Definition testConfig : RateLimitConfig :=
  {| maxGlobalConcurrency := 3;
     maxPerUserConcurrency := 2;
     rateLimitWindowMs := 1000;
     maxRequestsPerWindow := 5;
     maxGlobalRequestsPerWindow := 10;
     quotaRejectThresholdPercent := 5 # 1;
     staleJobTimeoutMs := 5000;
     gcIntervalMs := 60000 |}.

Definition agentConfig : AgentConfig :=
  {| allowedModels := [js "gpt-4.1"]; defaultModel := js "gpt-4.1" |}.

Definition request (m : option jsstring) : AgentJobRequest :=
  {| prompt := js "p"; urls := None; model := m |}.

Definition alice : jsstring := js "ghu_alice".

(** Alice starts job-1 and, four seconds later, job-2.  The reaper fires
    when job-1 is older than the five-second timeout and job-2 is not.
    Then the session of job-1 answers after all, is destroyed, and the task
    settles. *)
Definition reapedThenSettled : list (Z * Event) :=
  [ (0,    Start (js "job-1") (request None) agentConfig (Some alice));
    (10,   Resumes (js "job-1") (Resolved None));
    (20,   Resumes (js "job-1") (Resolved None));
    (4000, Start (js "job-2") (request None) agentConfig (Some alice));
    (5500, ReaperTick);
    (5600, Resumes (js "job-1") (Resolved (Some (js "done"))));
    (5610, Resumes (js "job-1") (Resolved None)) ].

(** One job in flight for Alice under a configuration with one global slot. *)
Definition oneSlot : RateLimitConfig :=
  {| maxGlobalConcurrency := 1;
     maxPerUserConcurrency := 1;
     rateLimitWindowMs := 1000;
     maxRequestsPerWindow := 5;
     maxGlobalRequestsPerWindow := 10;
     quotaRejectThresholdPercent := 5 # 1;
     staleJobTimeoutMs := 5000;
     gcIntervalMs := 60000 |}.

Definition busyEngine : Engine :=
  run (newEngine oneSlot)
      [ (0, Start (js "job-1") (request None) agentConfig (Some alice)) ].

(** Five requests of Alice, a tenth of a second apart. *)
Definition fiveRequests : SlidingWindowRateLimiter.t :=
  foldl (fun l now => SlidingWindowRateLimiter.record now alice l)
        SlidingWindowRateLimiter.new [100; 200; 300; 400; 500].

(** A quota snapshot below the threshold of [testConfig]. *)
Definition lowQuota : gmap jsstring QuotaInfo :=
  QuotaMonitor.update 0 alice
    {| QuotaMonitor.snapRemainingPercent := Some (2 # 1);
       QuotaMonitor.snapUsedRequests := Some 980;
       QuotaMonitor.snapEntitlementRequests := Some 1000;
       QuotaMonitor.snapIsUnlimited := Some false;
       QuotaMonitor.snapResetDate := Some (js "2026-12-01") |} ∅.

(** ** A stand-in for the external libraries on the documents below *)

(** [toLowerCase] on Basic Latin. *)
Definition asciiLower (s : jsstring) : jsstring :=
  (fun c => if (65 <=? c) && (c <=? 90) then c + 32 else c)%N <$> s.

(** The origin of an absolute address: everything before the third slash. *)
Fixpoint originOf (slashes : nat) (u : jsstring) : jsstring :=
  match u with
  | [] => []
  | c :: r =>
      if (c =? 47)%N then
        match slashes with
        | O => []
        | S n => c :: originOf n r
        end
      else c :: originOf slashes r
  end.

(** [new URL(href, base).href] for the two forms of href used below: an
    absolute http(s) address (already in normal form) and a path that starts
    with a slash.  Other forms are outside this stand-in. *)
Definition resolveSimple (href base : jsstring) : option jsstring :=
  if startsWith (js "http://") href || startsWith (js "https://") href then Some href
  else if startsWith (js "/") href then Some (originOf 2 base ++ href)
  else None.

Fixpoint repeatStr (n : nat) (s : jsstring) : jsstring :=
  match n with
  | O => []
  | S k => s ++ repeatStr k s
  end.

Definition textElement (t h : jsstring) : Element :=
  {| elText := t; elHtml := h; elAttrs := [] |}.

(** A page that asks the reader to wait, 263 characters of text:
    <html><body><p>Your order ... your bank. (three times)</p></body></html> *)
Definition waitText : jsstring :=
  repeatStr 3
    (js "Your order is being processed. Please wait while we confirm the payment with your bank. ").

Definition waitPage : jsstring :=
  js "<html><body><p>" ++ waitText ++ js "</p></body></html>".

(** The article of tests/spa-detection.test.ts, on one line. *)
Definition articleText : jsstring :=
  js "How Loading Times Affect User Experience "
    ++ repeatStr 5
         (js "This comprehensive article discusses how loading times and page speed impact user experience across modern web applications. ")
    ++ js "Studies show that loading speed is a critical factor in user retention and engagement metrics.".

Definition articlePage : jsstring :=
  js "<html><body><p>" ++ articleText ++ js "</p></body></html>".

(** An empty React shell: <html><body><div id=root></div></body></html> *)
Definition shellPage : jsstring :=
  js "<html><body><div id=root></div></body></html>".

(** A page with one root-relative link, served after a redirect:
    <html><body><p>(the article)</p><a href=/pricing>Pricing</a></body></html> *)
Definition linkPage : jsstring :=
  js "<html><body><p>" ++ articleText
    ++ js "</p><a href=/pricing>Pricing</a></body></html>".

(** What cheerio selects in these four documents. *)
Definition selectIn (sel doc : jsstring) : list Element :=
  if eqb doc waitPage then
    if eqb sel (js "body")
    then [textElement waitText (js "<p>" ++ waitText ++ js "</p>")] else []
  else if eqb doc articlePage then
    if eqb sel (js "body")
    then [textElement articleText (js "<p>" ++ articleText ++ js "</p>")] else []
  else if eqb doc shellPage then
    if eqb sel (js "body") then [textElement [] (js "<div id=" ++ dquote ++ js "root"
                                                   ++ dquote ++ js "></div>")]
    else if eqb sel (js "#root")
    then [{| elText := []; elHtml := []; elAttrs := [(js "id", js "root")] |}]
    else []
  else if eqb doc linkPage then
    if eqb sel (js "body")
    then [textElement (articleText ++ js "Pricing")
            (js "<p>" ++ articleText ++ js "</p><a href=" ++ dquote ++ js "/pricing"
               ++ dquote ++ js ">Pricing</a>")]
    else if eqb sel (js "a[href]")
    then [{| elText := js "Pricing"; elHtml := js "Pricing";
             elAttrs := [(js "href", js "/pricing")] |}]
    else []
  else [].

(** The documents hold none of the elements that the scraper removes, so
    removal leaves them as they are; a document is kept as its source. *)
Definition pageLibs : Libs :=
  {| Dom := jsstring;
     load := fun src => src;
     html := fun doc => doc;
     select := selectIn;
     remove := fun _ doc => doc;
     turndown := fun h => h;
     urlResolve := resolveSimple;
     urlSearchParam := fun _ _ => None;
     toLowerCase := asciiLower |}.

Definition noOptions : ScrapeOptions :=
  {| formats := None; onlyMainContent := false; includeTags := None;
     excludeTags := None; waitFor := None; timeout := None;
     skipTlsVerification := false; headers := [] |}.


Definition skipTls : ScrapeOptions :=
  {| formats := None; onlyMainContent := false; includeTags := None;
     excludeTags := None; waitFor := None; timeout := None;
     skipTlsVerification := true; headers := [] |}.

Definition localProxyEnv : ProcessEnv :=
  {| NODE_TLS_REJECT_UNAUTHORIZED := None;
     SCORCHCRAWL_LOCAL_PROXY := Some (js "true");
     SCORCHCRAWL_API_URL := None |}.

(** A network that answers every request with the given page. *)
Definition serves (finalUrl page : jsstring)
    : jsstring -> list (jsstring * jsstring) -> FetchOutcome :=
  fun _ _ =>
    FetchReturns {| respUrl := finalUrl; respStatus := 200;
                    respContentType := Some (js "text/html");
                    respText := inr page |}.

(** A network on which the connection is refused. *)
Definition refuses : jsstring -> list (jsstring * jsstring) -> FetchOutcome :=
  fun _ _ => FetchThrows {| errName := js "TypeError"; errMessage := js "fetch failed" |}.

(** An engine that would render any page. *)
Definition renders : EngineRequest -> JsError + JsValue :=
  fun _ => inr (VObject [(js "success", VBool true)]).

(** The trace [reapedThenSettled] without its reaper tick. *)
Definition settledQuietly : list (Z * Event) :=
  List.filter (fun ev => match ev.2 with ReaperTick => false | _ => true end)
              reapedThenSettled.

(** The engine after the reaper tick of [reapedThenSettled]: job-1 has been
    timed out. *)
Definition reapedEngine : Engine :=
  run (newEngine testConfig) (take 5 reapedThenSettled).

(** The task of job-1 while its session waits for the response. *)
Definition waitingTask : Task :=
  {| taskJob := js "job-1"; taskUserKey := alice; taskModel := js "gpt-4.1";
     taskPc := AwaitResponse |}.

(** A usage event whose snapshot has the request counters only. *)
Definition countersOnly : UsageSnapshot :=
  {| remainingPercentage := None; percent_remaining := None;
     usUsedRequests := Some 980; remaining := None;
     usEntitlementRequests := Some 1000; entitlement := None;
     isUnlimitedEntitlement := None; unlimited := None;
     usResetDate := None |}.

(** An engine whose quota monitor holds [lowQuota]. *)
Definition lowQuotaEngine : Engine :=
  {| agentJobs := [];
     rateLimitGuard :=
       {| RateLimitGuard.config := testConfig;
          RateLimitGuard.concurrency := ConcurrencyTracker.new;
          RateLimitGuard.rateLimit := SlidingWindowRateLimiter.new;
          RateLimitGuard.quota := lowQuota |};
     tasks := [waitingTask]; releases := [] |}.


(** Three requests for the pages of a service with two of them; then the
    first request finishes. *)
Definition threeRequests : list PlaywrightService.PageEvent :=
  [ PlaywrightService.Arrives (js "a"); PlaywrightService.Arrives (js "b");
    PlaywrightService.Arrives (js "c"); PlaywrightService.Finishes (js "a") ].

(** The cloud service, with no key of its own. *)
Definition cloudEnv : ServerEnv :=
  {| CLOUD_SERVICE := Some (js "true"); SCORCHCRAWL_API_KEY := None;
     GITHUB_TOKEN := None |}.

(** The headers of a request that brings its key as a bearer token. *)
Definition bearerHeaders : list (jsstring * HeaderValue) :=
  [ (js "authorization", Single (js "Bearer sk-123 "));
    (js "x-github-token", Single (js "ghu_alice")) ].

(** A text of two paragraphs. *)
Definition twoParagraphs : jsstring :=
  js "First paragraph of the page." ++ [10%N; 10%N]
    ++ js "Second paragraph, which is cut.".

End Examples.

(* ===================================================================== *)
(** * Notions used to state the properties *)
(* ===================================================================== *)

Module Protocol.

(** A call on a [ConcurrencyTracker]. *)
Inductive Call :=
| Acquire (userKey : jsstring)
| Release (userKey : jsstring).

Definition applyCall (t : ConcurrencyTracker.t) (c : Call) : ConcurrencyTracker.t :=
  match c with
  | Acquire u => ConcurrencyTracker.acquire t u
  | Release u => ConcurrencyTracker.release t u
  end.

Definition runCalls (calls : list Call) : ConcurrencyTracker.t :=
  foldl applyCall ConcurrencyTracker.new calls.







(** What holds of a tracker after any calls at all: the counters never
    fall below their floor. *)
Definition saturated (tr : ConcurrencyTracker.t) : Prop :=
  0 <= ConcurrencyTracker.globalActive tr
  /\ forall u n, ConcurrencyTracker.perUser tr !! u = Some n -> 1 <= n.


(** Whether a resumption of a task at [pc] settles its promise. *)
Definition settles (pc : TaskPc) (r : Resume) : bool :=
  match pc, r with
  | AwaitClient, Rejected _ | AwaitSession, Rejected _ | AwaitDestroy _, _ => true
  | _, _ => false
  end.

Definition isSettled (pc : TaskPc) : bool :=
  match pc with
  | Settled => true
  | _ => false
  end.

(** Where a task that is not settled stands after a resumption. *)
Definition nextPc (pc : TaskPc) (r : Resume) : TaskPc :=
  match pc, r with
  | AwaitClient, Resolved _ => AwaitSession
  | AwaitSession, Resolved _ => AwaitResponse
  | AwaitResponse, Resolved _ => AwaitDestroy None
  | AwaitResponse, Rejected msg => AwaitDestroy (Some msg)
  | _, _ => Settled
  end.

(** A trace on which the reaper never fires. *)
Definition withoutReaper (trace : list (Z * Event)) : bool :=
  forallb (fun ev => match ev.2 with ReaperTick => false | _ => true end) trace.

(** Every start of the trace comes with an id that was not used before
    (what [uuidv4()] provides). *)
Fixpoint freshIds (used : list jsstring) (trace : list (Z * Event)) : bool :=
  match trace with
  | [] => true
  | (_, Start jobId _ _ _) :: rest =>
      negb (bool_decide (jobId ∈ used)) && freshIds (jobId :: used) rest
  | _ :: rest => freshIds used rest
  end.

(** Each task has been released for once if it is settled and not at all
    otherwise. *)
Definition releasedOnce (e : Engine) : Prop :=
  forall t, t ∈ tasks e ->
    releaseCount (taskJob t) e = if isSettled (taskPc t) then 1%nat else 0%nat.

(** The invariant of the engine between reaper ticks: tasks have distinct
    ids, all among [used]; releases were made for tasks; and [releasedOnce]. *)
Definition tidy (used : list jsstring) (e : Engine) : Prop :=
  NoDup (taskJob <$> tasks e)
  /\ (forall t, t ∈ tasks e -> taskJob t ∈ used)
  /\ (forall jk, jk ∈ releases e -> jk.1 ∈ taskJob <$> tasks e)
  /\ releasedOnce e.

(** A non-decreasing sequence of timestamps: each one is at most every
    later one. *)
Fixpoint nondecreasing (ts : list Z) : bool :=
  match ts with
  | [] => true
  | a :: rest => forallb (fun b => a <=? b) rest && nondecreasing rest
  end.

(** [p] occurs in [s]. *)
Definition embeds (p s : jsstring) : Prop :=
  exists before after, s = before ++ p ++ after.

(** The timestamps that the limiter holds for an identity. *)
Definition stored (u : jsstring) (rl : SlidingWindowRateLimiter.t) : list Z :=
  default [] (SlidingWindowRateLimiter.perUser rl !! u).

(** Whether the event is a start that the engine, in state [e], accepts
    (answers with [processing]). *)
Definition accepts (e : Engine) (ev : Z * Event) : bool :=
  match ev.2 with
  | Start jobId request cfg copilotToken =>
      eqb (srStatus (startAgent ev.1 jobId request cfg copilotToken e).1)
          (js "processing")
  | _ => false
  end.

(** Whether the event is a start on behalf of the identity [u]. *)
Definition startedBy (u : jsstring) (ev : Z * Event) : bool :=
  match ev.2 with
  | Start _ _ _ copilotToken => eqb (orElse copilotToken (js "__server__")) u
  | _ => false
  end.

(** The times at which the starts of the trace that satisfy [keep] were
    accepted, the engine being in state [e] before the trace. *)
Fixpoint admissions (keep : Z * Event -> bool) (e : Engine) (trace : list (Z * Event))
    : list Z :=
  match trace with
  | [] => []
  | ev :: rest =>
      (if keep ev && accepts e ev then [ev.1] else [])
        ++ admissions keep (step e ev) rest
  end.

(** How one event moves the guard: an admission check alone, a check
    that passes followed by [acquire], some releases, a quota update, or a
    tick of the guard's GC timer. *)
Inductive guardStep (now : Z) (g : RateLimitGuard.t) : RateLimitGuard.t -> Prop :=
| guardChecks (u : jsstring) :
    guardStep now g (RateLimitGuard.check now u g).2
| guardAdmits (u : jsstring) :
    allowed (RateLimitGuard.check now u g).1 = true ->
    guardStep now g (RateLimitGuard.acquire now u (RateLimitGuard.check now u g).2)
| guardReleases (keys : list jsstring) :
    guardStep now g (foldl (fun g' key => RateLimitGuard.release key g') g keys)
| guardQuota (u : jsstring) (snapshot : QuotaMonitor.Snapshot) :
    guardStep now g (RateLimitGuard.quotaUpdate now u snapshot g)
| guardGc :
    guardStep now g (RateLimitGuard.gcTick now g).

(** [A] holds no more timestamps younger than [c] than [S] does, for every
    cutoff [c] from [L] on. *)
Definition covers (L : Z) (A S : list Z) : Prop :=
  forall c, L <= c ->
    (length (SlidingWindowRateLimiter.prune c A)
     <= length (SlidingWindowRateLimiter.prune c S))%nat.

(** No white space at either end. *)
Definition trimmed (s : jsstring) : Prop :=
  (forall c, head s = Some c -> isWhiteSpace c = false)
  /\ (forall c, last s = Some c -> isWhiteSpace c = false).

(** The guard has the configuration [cfg] and its counters are within the
    two concurrency limits. *)
Definition withinLimits (cfg : RateLimitConfig) (g : RateLimitGuard.t) : Prop :=
  RateLimitGuard.config g = cfg
  /\ ConcurrencyTracker.globalActive (RateLimitGuard.concurrency g)
     <= maxGlobalConcurrency cfg
  /\ forall u, ConcurrencyTracker.userCount (RateLimitGuard.concurrency g) u
               <= maxPerUserConcurrency cfg.

(** The limiter of the guard accounts for the admissions [Au] of the
    identity [u] and for all admissions [Ag], as far as cutoffs from [L] on
    are concerned, and it holds no more timestamps than the limits allow. *)
Definition windowInv (cfg : RateLimitConfig) (u : jsstring) (L : Z) (Au Ag : list Z)
    (g : RateLimitGuard.t) : Prop :=
  RateLimitGuard.config g = cfg
  /\ covers L Au (stored u (RateLimitGuard.rateLimit g))
  /\ covers L Ag (SlidingWindowRateLimiter.globalTimestamps (RateLimitGuard.rateLimit g))
  /\ Z.of_nat (length (stored u (RateLimitGuard.rateLimit g))) <= maxRequestsPerWindow cfg
  /\ Z.of_nat (length (SlidingWindowRateLimiter.globalTimestamps
                         (RateLimitGuard.rateLimit g)))
     <= maxGlobalRequestsPerWindow cfg.

(** The guard keeps its configuration, and its limiter holds afterwards,
    array by array, what it held before or what is left of that by pruning
    to the window that ends at [now]. *)
Definition quiet (now : Z) (g g' : RateLimitGuard.t) : Prop :=
  let c := now - rateLimitWindowMs (RateLimitGuard.config g) in
  RateLimitGuard.config g' = RateLimitGuard.config g
  /\ (forall v, stored v (RateLimitGuard.rateLimit g') = stored v (RateLimitGuard.rateLimit g)
                \/ stored v (RateLimitGuard.rateLimit g')
                   = SlidingWindowRateLimiter.prune c (stored v (RateLimitGuard.rateLimit g)))
  /\ (SlidingWindowRateLimiter.globalTimestamps (RateLimitGuard.rateLimit g')
      = SlidingWindowRateLimiter.globalTimestamps (RateLimitGuard.rateLimit g)
      \/ SlidingWindowRateLimiter.globalTimestamps (RateLimitGuard.rateLimit g')
         = SlidingWindowRateLimiter.prune c
             (SlidingWindowRateLimiter.globalTimestamps (RateLimitGuard.rateLimit g))).

(** [obj[k]] on an object kept as its list of entries. *)
Definition entry {A} (k : jsstring) (obj : list (jsstring * A)) : option A :=
  snd <$> List.find (fun kv => eqb kv.1 k) obj.

(** The patterns on which the error hook aborts whatever the context. *)
Definition abortPatterns : list jsstring :=
  [ js "quota"; js "402"; js "not licensed"; js "authentication";
    js "rate limit"; js "429" ].

(** The codes of [mapError]. *)
Definition ERROR_CODES : list jsstring :=
  [ js "ACCESS_DENIED"; js "NOT_FOUND"; js "RATE_LIMITED"; js "SERVER_ERROR";
    js "TIMEOUT"; js "ENGINE_UNAVAILABLE"; js "CONNECTION_FAILED"; js "TLS_ERROR";
    js "EMPTY_CONTENT"; js "SPA_DETECTED"; js "UNKNOWN_ERROR" ].

(** The words among the pieces of a split. *)
Definition countWords (pieces : list jsstring) : nat :=
  length (List.filter (fun piece => negb (eqb piece [])) pieces).

(** The words after the first piece. *)
Definition laterWords (s : jsstring) : nat := countWords (tail (splitWhiteSpace s)).

(** The number that a decimal numeral stands for, read onto [acc]. *)
Fixpoint uintValue (acc : Z) (d : Decimal.uint) : Z :=
  match d with
  | Decimal.Nil => acc
  | Decimal.D0 l => uintValue (10 * acc + 0) l
  | Decimal.D1 l => uintValue (10 * acc + 1) l
  | Decimal.D2 l => uintValue (10 * acc + 2) l
  | Decimal.D3 l => uintValue (10 * acc + 3) l
  | Decimal.D4 l => uintValue (10 * acc + 4) l
  | Decimal.D5 l => uintValue (10 * acc + 5) l
  | Decimal.D6 l => uintValue (10 * acc + 6) l
  | Decimal.D7 l => uintValue (10 * acc + 7) l
  | Decimal.D8 l => uintValue (10 * acc + 8) l
  | Decimal.D9 l => uintValue (10 * acc + 9) l
  end.

(** What holds of the page semaphore between requests: its permits and
    the requests at work add up to the limit, and nobody waits while a
    permit is free. *)
Definition balanced (n : Z) (p : PlaywrightService.Pages) : Prop :=
  0 <= PlaywrightService.Semaphore.permits (PlaywrightService.pageSemaphore p)
  /\ PlaywrightService.Semaphore.permits (PlaywrightService.pageSemaphore p)
     + Z.of_nat (length (PlaywrightService.working p)) = n
  /\ (PlaywrightService.Semaphore.queue (PlaywrightService.pageSemaphore p) <> [] ->
      PlaywrightService.Semaphore.permits (PlaywrightService.pageSemaphore p) = 0).

End Protocol.
Export Protocol.

(* ===================================================================== *)
(** * Properties of the ConcurrencyTracker *)
(* ===================================================================== *)

Section TrackerFacts.
Import ConcurrencyTracker.
Implicit Types (tr : ConcurrencyTracker.t) (u : jsstring) (m : gmap jsstring Z).








Lemma eqb_true (a b : jsstring) : eqb a b = true <-> a = b.
Proof. unfold eqb. apply bool_decide_eq_true. Qed.

Lemma eqb_refl (a : jsstring) : eqb a a = true.
Proof. apply eqb_true. reflexivity. Qed.

Lemma eqb_neq (a b : jsstring) : a <> b -> eqb a b = false.
Proof. intros H. unfold eqb. apply bool_decide_eq_false. exact H. Qed.

Lemma saturated_new : saturated new.
Proof. split; [simpl; lia|]. intros u n H. simpl in H. by rewrite lookup_empty in H. Qed.

Lemma userCount_nonneg tr u : saturated tr -> 0 <= userCount tr u.
Proof.
  intros [_ Hpos]. unfold userCount.
  destruct (perUser tr !! u) as [n|] eqn:Hu; simpl; [|lia].
  specialize (Hpos u n Hu). lia.
Qed.

Lemma saturated_acquire tr u : saturated tr -> saturated (acquire tr u).
Proof.
  intros Hs. pose proof (userCount_nonneg tr u Hs) as Hc.
  destruct Hs as [Hg Hpos]. split; simpl; [lia|].
  intros v n. rewrite lookup_insert. case_decide.
  - intros [= <-]. lia.
  - apply Hpos.
Qed.

Lemma saturated_release tr u : saturated tr -> saturated (release tr u).
Proof.
  intros [Hg Hpos]. split; simpl; [lia|].
  intros v n. destruct (userCount tr u <=? 1) eqn:Hle.
  - rewrite lookup_delete. case_decide; [discriminate|apply Hpos].
  - apply Z.leb_gt in Hle. rewrite lookup_insert. case_decide.
    + intros [= <-]. lia.
    + apply Hpos.
Qed.

Lemma saturated_foldl (calls : list Call) tr :
  saturated tr -> saturated (foldl applyCall tr calls).
Proof.
  revert tr. induction calls as [|[v|v] calls IH]; intros tr Hs; simpl; [exact Hs| |].
  - apply IH, saturated_acquire, Hs.
  - apply IH, saturated_release, Hs.
Qed.








End TrackerFacts.



(** The test "release never goes negative": a release on a fresh tracker
    changes nothing. *)
Example release_on_fresh_tracker :
  ConcurrencyTracker.release ConcurrencyTracker.new (js "nonexistent")
  = ConcurrencyTracker.new.
Proof. reflexivity. Qed.

(** An unmatched release of another identity is taken from the global count
    only: the per-identity counts then sum to more than [stats().global]. *)
Example release_of_other_identity :
  let t := runCalls [Acquire (js "a"); Release (js "b")] in
  ConcurrencyTracker.globalActive t = 0
  /\ ConcurrencyTracker.perUser t !! js "a" = Some 1.
Proof. split; reflexivity. Qed.

(* ===================================================================== *)
(** * Properties of the SlidingWindowRateLimiter *)
(* ===================================================================== *)

Section LimiterFacts.
Import SlidingWindowRateLimiter.

(** [ceilDiv a b] is the least integer that is at least [a / b]. *)
Lemma ceilDiv_spec (a b : Z) :
  0 < b -> b * (ceilDiv a b - 1) < a <= b * ceilDiv a b.
Proof.
  intros Hb. unfold ceilDiv.
  pose proof (Z.div_mod (- a) b ltac:(lia)) as Hdm.
  pose proof (Z.mod_pos_bound (- a) b Hb) as Hm.
  nia.
Qed.

Lemma ceilDiv_pos (a b : Z) : 0 < b -> 0 < a -> 1 <= ceilDiv a b.
Proof. intros Hb Ha. pose proof (ceilDiv_spec a b Hb). nia. Qed.

Lemma prune_elem (windowStart t : Z) (ts : list Z) :
  In t (prune windowStart ts) <-> In t ts /\ windowStart < t.
Proof. unfold prune. rewrite filter_In, Z.ltb_lt. reflexivity. Qed.

Lemma forallb_prune (windowStart a : Z) (ts : list Z) :
  forallb (fun b => a <=? b) ts = true ->
  forallb (fun b => a <=? b) (prune windowStart ts) = true.
Proof.
  rewrite !forallb_forall. intros H x Hx. apply H.
  apply prune_elem in Hx. tauto.
Qed.

Lemma nondecreasing_prune (windowStart : Z) (ts : list Z) :
  nondecreasing ts = true -> nondecreasing (prune windowStart ts) = true.
Proof.
  induction ts as [|a ts IH]; simpl; [reflexivity|].
  intros [Ha Hts]%andb_true_iff. destruct (windowStart <? a); simpl.
  - rewrite (forallb_prune _ _ _ Ha). simpl. apply IH, Hts.
  - apply IH, Hts.
Qed.

Lemma nondecreasing_head (ts : list Z) (oldest : Z) :
  nondecreasing ts = true -> head ts = Some oldest ->
  forall t, In t ts -> oldest <= t.
Proof.
  destruct ts as [|a ts]; simpl; [discriminate|].
  intros [Ha _]%andb_true_iff [= <-] t [<-|Ht]; [lia|].
  rewrite forallb_forall in Ha. apply Z.leb_le, Ha, Ht.
Qed.

(** A retained sequence that has reached a limit of at least one has a
    first element, it is inside the window, and the hint computed from it is
    the rounded-up number of seconds until it leaves the window. *)
Lemma retry_of_full_window (cfg : RateLimitConfig) (now limit : Z) (ts : list Z) :
  1 <= limit ->
  limit <= Z.of_nat (length (prune (now - rateLimitWindowMs cfg) ts)) ->
  exists oldest,
    head (prune (now - rateLimitWindowMs cfg) ts) = Some oldest
    /\ max1 (retryAfter cfg now (prune (now - rateLimitWindowMs cfg) ts))
       = Num (ceilDiv (oldest + rateLimitWindowMs cfg - now) 1000)
    /\ 1 <= ceilDiv (oldest + rateLimitWindowMs cfg - now) 1000.
Proof.
  intros Hlimit Hfull.
  destruct (prune (now - rateLimitWindowMs cfg) ts) as [|oldest rest] eqn:Hp.
  - simpl in Hfull. lia.
  - exists oldest. split; [reflexivity|].
    assert (In oldest (prune (now - rateLimitWindowMs cfg) ts)) as Hin
      by (rewrite Hp; left; reflexivity).
    apply prune_elem in Hin as [_ Hin].
    assert (1 <= ceilDiv (oldest + rateLimitWindowMs cfg - now) 1000) as Hge
      by (apply ceilDiv_pos; lia).
    split; [|exact Hge]. simpl. f_equal. lia.
Qed.

End LimiterFacts.

(** C7.  With window limits of at least one (the supported configurations),
    whenever [check] rejects, the sequence that reached its limit after
    pruning (the global one, or else the caller's) has a first element
    [oldest], the result carries
    [retryAfterSeconds = ceil((oldest + windowMs - now) / 1000)], this
    value is at least 1, and [oldest] is the smallest retained timestamp when
    the stored sequence is non-decreasing. *)
Theorem rate_limit_rejection_retry_after
    (cfg : RateLimitConfig) (now : Z) (userKey : jsstring)
    (l : SlidingWindowRateLimiter.t) :
  let retained := SlidingWindowRateLimiter.prune (now - rateLimitWindowMs cfg) in
  let result := (SlidingWindowRateLimiter.check cfg now userKey l).1 in
  1 <= maxGlobalRequestsPerWindow cfg ->
  1 <= maxRequestsPerWindow cfg ->
  allowed result = false ->
  exists (stored : list Z) (limit oldest : Z),
    (stored = SlidingWindowRateLimiter.globalTimestamps l
     /\ limit = maxGlobalRequestsPerWindow cfg
     \/ stored = default [] (SlidingWindowRateLimiter.perUser l !! userKey)
        /\ limit = maxRequestsPerWindow cfg)
    /\ limit <= Z.of_nat (length (retained stored))
    /\ head (retained stored) = Some oldest
    /\ retryAfterSeconds result
       = Some (Num (ceilDiv (oldest + rateLimitWindowMs cfg - now) 1000))
    /\ 1 <= ceilDiv (oldest + rateLimitWindowMs cfg - now) 1000
    /\ (nondecreasing stored = true ->
        forall t, In t (retained stored) -> oldest <= t).
Proof.
  intros retained result Hglobal Huser. subst retained result.
  unfold SlidingWindowRateLimiter.check.
  destruct (maxGlobalRequestsPerWindow cfg <=? _) eqn:Hg.
  - intros _. apply Z.leb_le in Hg.
    destruct (retry_of_full_window cfg now _ _ Hglobal Hg)
      as (oldest & Hhead & Hretry & Hge).
    exists (SlidingWindowRateLimiter.globalTimestamps l),
           (maxGlobalRequestsPerWindow cfg), oldest.
    split; [left; split; reflexivity|]. split; [exact Hg|]. split; [exact Hhead|].
    split; [simpl; rewrite Hretry; reflexivity|]. split; [exact Hge|].
    intros Hs. apply nondecreasing_head; [apply nondecreasing_prune, Hs|exact Hhead].
  - destruct (maxRequestsPerWindow cfg <=? _) eqn:Hu; [|discriminate].
    intros _. apply Z.leb_le in Hu.
    destruct (retry_of_full_window cfg now _ _ Huser Hu)
      as (oldest & Hhead & Hretry & Hge).
    exists (default [] (SlidingWindowRateLimiter.perUser l !! userKey)),
           (maxRequestsPerWindow cfg), oldest.
    split; [right; split; reflexivity|]. split; [exact Hu|]. split; [exact Hhead|].
    split; [simpl; rewrite Hretry; reflexivity|]. split; [exact Hge|].
    intros Hs. apply nondecreasing_head; [apply nondecreasing_prune, Hs|exact Hhead].
Qed.

(** The sixth request of Alice within the window of [testConfig] is
    rejected; the oldest of her five requests was made at 100, so the hint is
    [ceil((100 + 1000 - 600) / 1000)], one second. *)
Lemma rate_limit_rejection_retry_after_witness :
  allowed (SlidingWindowRateLimiter.check
             Examples.testConfig 600 Examples.alice Examples.fiveRequests).1 = false
  /\ retryAfterSeconds
       (SlidingWindowRateLimiter.check
          Examples.testConfig 600 Examples.alice Examples.fiveRequests).1
     = Some (Num 1)
  /\ exists oldest,
       retryAfterSeconds
         (SlidingWindowRateLimiter.check
            Examples.testConfig 600 Examples.alice Examples.fiveRequests).1
       = Some (Num (ceilDiv (oldest + 1000 - 600) 1000))
       /\ 1 <= ceilDiv (oldest + 1000 - 600) 1000.
Proof.
  split; [reflexivity|]. split; [reflexivity|].
  destruct (rate_limit_rejection_retry_after
              Examples.testConfig 600 Examples.alice Examples.fiveRequests)
    as (stored & limit & oldest & _ & _ & _ & Hretry & Hge & _);
    [simpl; lia|simpl; lia|reflexivity|].
  exists oldest. split; [exact Hretry|exact Hge].
Defined.

(** With a limit of zero the limiter rejects on an empty sequence, and the
    hint is not a number. *)
Example zero_limit_retry_is_NaN :
  let cfg := {| maxGlobalConcurrency := 3; maxPerUserConcurrency := 2;
                rateLimitWindowMs := 1000; maxRequestsPerWindow := 5;
                maxGlobalRequestsPerWindow := 0;
                quotaRejectThresholdPercent := 5 # 1;
                staleJobTimeoutMs := 5000; gcIntervalMs := 60000 |} in
  retryAfterSeconds
    (SlidingWindowRateLimiter.check cfg 600 (js "u") SlidingWindowRateLimiter.new).1
  = Some NaN.
Proof. reflexivity. Qed.

(** Scenario 2 of the specification: three requests fill a window of 500
    ms with a limit of three; 550 ms later the window is empty again. *)
Example window_refills_after_expiry :
  let cfg := {| maxGlobalConcurrency := 3; maxPerUserConcurrency := 2;
                rateLimitWindowMs := 500; maxRequestsPerWindow := 3;
                maxGlobalRequestsPerWindow := 5;
                quotaRejectThresholdPercent := 5 # 1;
                staleJobTimeoutMs := 5000; gcIntervalMs := 60000 |} in
  let l := foldl (fun l now => SlidingWindowRateLimiter.record now (js "U") l)
                 SlidingWindowRateLimiter.new [1000; 1001; 1002] in
  allowed (SlidingWindowRateLimiter.check cfg 1003 (js "U") l).1 = false
  /\ allowed (SlidingWindowRateLimiter.check cfg 1553 (js "U") l).1 = true.
Proof. split; reflexivity. Qed.

(* ===================================================================== *)
(** * Properties of the QuotaMonitor *)
(* ===================================================================== *)

Section QuotaFacts.
Import QuotaMonitor.

Lemma embeds_middle (a p b : jsstring) : embeds p (a ++ p ++ b).
Proof. exists a, b. reflexivity. Qed.

Lemma embeds_empty (s : jsstring) : embeds [] s.
Proof. exists [], s. reflexivity. Qed.

Lemma exhausted_percent (info : QuotaInfo) :
  embeds (toFixed1 (remainingPercent info)) (exhausted info).
Proof. unfold exhausted. apply embeds_middle. Qed.

Lemma exhausted_counts (info : QuotaInfo) :
  embeds (showInt (usedRequests info) ++ js "/" ++ showInt (entitlementRequests info))
         (exhausted info).
Proof.
  unfold exhausted.
  set (resetMsg := if truthy (resetDate info) then _ else _).
  exists (js "Copilot quota nearly exhausted (" ++ toFixed1 (remainingPercent info)
            ++ js "% remaining, "),
         (js " used)." ++ resetMsg ++ js " Upgrade your plan or wait for reset.").
  rewrite <- !app_assoc. reflexivity.
Qed.

Lemma exhausted_reset (info : QuotaInfo) (date : jsstring) :
  resetDate info = Some date -> embeds date (exhausted info).
Proof.
  intros Hd. destruct date as [|c r]; [apply embeds_empty|].
  unfold exhausted. rewrite Hd. simpl truthy. cbv iota. simpl default.
  exists (js "Copilot quota nearly exhausted (" ++ toFixed1 (remainingPercent info)
            ++ js "% remaining, " ++ showInt (usedRequests info) ++ js "/"
            ++ showInt (entitlementRequests info) ++ js " used)."
            ++ js " Quota resets on "),
         (js "." ++ js " Upgrade your plan or wait for reset.").
  rewrite <- !app_assoc. reflexivity.
Qed.

End QuotaFacts.

(** C5.  [QuotaMonitor.check] allows exactly when there is no record for
    the identity, or the record is unlimited, or it is older than five
    minutes, or its remaining percentage is above the threshold.  A rejection
    carries a reason that embeds the remaining percentage (one decimal), the
    used and entitlement counts, and the reset date when the record has one.
    A record with [isUnlimited] is never rejected. *)
Theorem quota_check_allows_exactly
    (cfg : RateLimitConfig) (now : Z) (userKey : jsstring)
    (m : gmap jsstring QuotaInfo) :
  (allowed (QuotaMonitor.check cfg now userKey m) = true <->
     m !! userKey = None
     \/ exists info, m !! userKey = Some info
          /\ (isUnlimited info = true
              \/ 5 * 60 * 1000 < now - lastUpdated info
              \/ (quotaRejectThresholdPercent cfg < remainingPercent info)%Q))
  /\ (allowed (QuotaMonitor.check cfg now userKey m) = false ->
      exists info,
        m !! userKey = Some info
        /\ reason (QuotaMonitor.check cfg now userKey m)
           = Some (QuotaMonitor.exhausted info)
        /\ embeds (toFixed1 (remainingPercent info)) (QuotaMonitor.exhausted info)
        /\ embeds (showInt (usedRequests info) ++ js "/"
                     ++ showInt (entitlementRequests info))
                  (QuotaMonitor.exhausted info)
        /\ forall date, resetDate info = Some date ->
                        embeds date (QuotaMonitor.exhausted info))
  /\ (forall info, m !! userKey = Some info -> isUnlimited info = true ->
      allowed (QuotaMonitor.check cfg now userKey m) = true).
Proof.
  unfold QuotaMonitor.check.
  destruct (m !! userKey) as [info|] eqn:Hm.
  2:{ split; [|split]; [|discriminate|discriminate].
      split; [intros _; by left|reflexivity]. }
  destruct (isUnlimited info) eqn:Hu.
  { split; [|split].
    - split; [intros _|reflexivity]. right. exists info. split; [reflexivity|by left].
    - discriminate.
    - reflexivity. }
  destruct (5 * 60 * 1000 <? now - lastUpdated info) eqn:Hs.
  { apply Z.ltb_lt in Hs. split; [|split].
    - split; [intros _|reflexivity]. right. exists info.
      split; [reflexivity|right; left; exact Hs].
    - discriminate.
    - reflexivity. }
  apply Z.ltb_ge in Hs.
  destruct (Qle_bool (remainingPercent info) (quotaRejectThresholdPercent cfg)) eqn:Hq.
  - apply Qle_bool_iff in Hq. split; [|split].
    + split; [discriminate|]. intros [Hn|(info' & [= <-] & [Hx|[Hx|Hx]])].
      * discriminate.
      * congruence.
      * lia.
      * exfalso. eapply Qlt_not_le; eassumption.
    + intros _. exists info.
      split; [reflexivity|]. split; [reflexivity|].
      split; [apply exhausted_percent|]. split; [apply exhausted_counts|].
      apply exhausted_reset.
    + intros info' [= <-] Hx. congruence.
  - assert (quotaRejectThresholdPercent cfg < remainingPercent info)%Q as Hlt.
    { apply Qnot_le_lt. intros Hle. apply Qle_bool_iff in Hle. congruence. }
    split; [|split].
    + split; [intros _|reflexivity]. right. exists info.
      split; [reflexivity|right; right; exact Hlt].
    + discriminate.
    + reflexivity.
Qed.

(** Scenario 3 of the specification, on [testConfig]: two percent left
    with a threshold of five. *)
Example quota_low_rejected :
  reason (QuotaMonitor.check Examples.testConfig 1000 Examples.alice Examples.lowQuota)
  = Some (js "Copilot quota nearly exhausted (2.0% remaining, 980/1000 used)."
            ++ js " Quota resets on 2026-12-01."
            ++ js " Upgrade your plan or wait for reset.").
Proof. vm_compute. reflexivity. Qed.

(* ===================================================================== *)
(** * Properties of the agent job engine *)
(* ===================================================================== *)

Section EngineFacts.

(** The admission check reads the concurrency tracker and the quota records
    and writes neither. *)
Lemma guardCheck_frame (now : Z) (userKey : jsstring) (g : RateLimitGuard.t) :
  RateLimitGuard.concurrency (RateLimitGuard.check now userKey g).2
  = RateLimitGuard.concurrency g
  /\ RateLimitGuard.quota (RateLimitGuard.check now userKey g).2
     = RateLimitGuard.quota g
  /\ RateLimitGuard.config (RateLimitGuard.check now userKey g).2
     = RateLimitGuard.config g.
Proof.
  unfold RateLimitGuard.check.
  destruct (negb (allowed (ConcurrencyTracker.canAcquire _ _ userKey)));
    [repeat split|].
  destruct (SlidingWindowRateLimiter.check _ now userKey _) as [rateResult rl].
  destruct (negb (allowed rateResult)); [repeat split|].
  destruct (negb (allowed (QuotaMonitor.check _ now userKey _))); repeat split.
Qed.

(** A start that is not accepted leaves the job store, the tasks, the
    release trace and the concurrency tracker as they were. *)
Lemma startAgent_rejected_frame (now : Z) (jobId : jsstring)
    (request : AgentJobRequest) (cfg : AgentConfig)
    (copilotToken : option jsstring) (e : Engine) :
  srStatus (startAgent now jobId request cfg copilotToken e).1 <> js "processing" ->
  agentJobs (startAgent now jobId request cfg copilotToken e).2 = agentJobs e
  /\ tasks (startAgent now jobId request cfg copilotToken e).2 = tasks e
  /\ releases (startAgent now jobId request cfg copilotToken e).2 = releases e
  /\ RateLimitGuard.concurrency
       (rateLimitGuard (startAgent now jobId request cfg copilotToken e).2)
     = RateLimitGuard.concurrency (rateLimitGuard e).
Proof.
  unfold startAgent.
  pose proof (guardCheck_frame now (orElse copilotToken (js "__server__"))
                (rateLimitGuard e)) as (Hc & _ & _).
  destruct (RateLimitGuard.check now _ (rateLimitGuard e)) as [gate g].
  simpl in Hc. destruct (negb (allowed gate)); simpl; [intros _; repeat split; exact Hc|].
  destruct (negb (bool_decide (_ ∈ allowedModels cfg))); simpl.
  - intros _. repeat split. exact Hc.
  - intros H. exfalso. apply H. reflexivity.
Qed.

(** The two places that release a slot.  The reaper releases for every job
    it times out; a task releases when its promise settles.  Neither looks at
    what the other has done. *)
Lemma reapJob_releases (now : Z) (e : Engine) (jobId : jsstring) (job : AgentJob) :
  getJob jobId (agentJobs e) = Some job ->
  releases (reapJob now e jobId) = releases e ++ [(jobId, orElse (_userKey job) [])].
Proof. intros Hjob. unfold reapJob. rewrite Hjob. reflexivity. Qed.

Lemma resumeTask_releases (now : Z) (t : Task) (r : Resume) (e : Engine) :
  releases (resumeTask now t r e)
  = releases e ++ (if settles (taskPc t) r then [(taskJob t, taskUserKey t)] else []).
Proof.
  unfold resumeTask, settles.
  destruct (taskPc t) as [| | |[msg|]|], r; simpl; rewrite ?app_nil_r; reflexivity.
Qed.

(** ** Between reaper ticks every task is released once, when it settles *)

Lemma releaseCount_releaseFor (j jobId key : jsstring) (e : Engine) :
  releaseCount j (releaseFor jobId key e)
  = (releaseCount j e + if eqb jobId j then 1 else 0)%nat.
Proof.
  unfold releaseCount, releaseFor. simpl.
  rewrite List.filter_app, length_app. simpl.
  destruct (eqb jobId j); reflexivity.
Qed.

Lemma task_ids_withPc (j : jsstring) (pc : TaskPc) (e : Engine) :
  taskJob <$> tasks (withPc j pc e) = taskJob <$> tasks e.
Proof.
  unfold withPc. simpl. rewrite <- list_fmap_compose.
  apply list_fmap_ext. intros i t _. simpl. destruct (eqb (taskJob t) j); reflexivity.
Qed.

Lemma task_of_withPc (j : jsstring) (pc : TaskPc) (e : Engine) (t' : Task) :
  t' ∈ tasks (withPc j pc e) ->
  exists t, t ∈ tasks e /\ taskJob t' = taskJob t
            /\ taskPc t' = if eqb (taskJob t) j then pc else taskPc t.
Proof.
  unfold withPc. simpl. intros (t & -> & Ht)%list_elem_of_fmap.
  exists t. split; [exact Ht|]. destruct (eqb (taskJob t) j); split; reflexivity.
Qed.

Lemma findTask_some (j : jsstring) (e : Engine) (t : Task) :
  findTask j e = Some t -> t ∈ tasks e /\ taskJob t = j.
Proof.
  unfold findTask. intros H. apply find_some in H as [Hin Heq].
  split; [by apply list_elem_of_In|]. by apply eqb_true.
Qed.

Lemma same_id_same_task (ts : list Task) (a b : Task) :
  NoDup (taskJob <$> ts) -> a ∈ ts -> b ∈ ts -> taskJob a = taskJob b -> a = b.
Proof.
  induction ts as [|t ts IH]; simpl; intros Hnd Ha Hb Heq.
  - by apply elem_of_nil in Ha.
  - apply NoDup_cons in Hnd as [Hnotin Hnd].
    apply elem_of_cons in Ha as [->|Ha]; apply elem_of_cons in Hb as [->|Hb].
    + reflexivity.
    + exfalso. apply Hnotin. rewrite Heq. by apply list_elem_of_fmap_2.
    + exfalso. apply Hnotin. rewrite <- Heq. by apply list_elem_of_fmap_2.
    + by apply IH.
Qed.

Lemma settles_nextPc (pc : TaskPc) (r : Resume) :
  isSettled pc = false -> isSettled (nextPc pc r) = settles pc r.
Proof. destruct pc as [| | |[msg|]|], r; simpl; congruence. Qed.

Lemma resumeTask_tasks (now : Z) (t : Task) (r : Resume) (e : Engine) :
  tasks (resumeTask now t r e)
  = if isSettled (taskPc t) then tasks e
    else tasks (withPc (taskJob t) (nextPc (taskPc t) r) e).
Proof.
  unfold resumeTask.
  destruct (taskPc t) as [| | |[msg|]|], r; reflexivity.
Qed.

Lemma tidy_ext (used : list jsstring) (e e' : Engine) :
  tasks e' = tasks e -> releases e' = releases e -> tidy used e -> tidy used e'.
Proof.
  intros Ht Hr (Hnd & Hused & Hrel & Honce). unfold tidy, releasedOnce, releaseCount.
  rewrite Ht, Hr. repeat split; assumption.
Qed.

Lemma tidy_weaken (used used' : list jsstring) (e : Engine) :
  (forall j, j ∈ used -> j ∈ used') -> tidy used e -> tidy used' e.
Proof.
  intros Hsub (Hnd & Hused & Hrel & Honce). repeat split; try assumption.
  intros t Ht. apply Hsub, Hused, Ht.
Qed.

Lemma tidy_resume (used : list jsstring) (now : Z) (t : Task) (r : Resume) (e : Engine) :
  t ∈ tasks e -> tidy used e -> tidy used (resumeTask now t r e).
Proof.
  intros Hin Htidy. pose proof Htidy as (Hnd & Hused & Hrel & Honce).
  destruct (isSettled (taskPc t)) eqn:Hpc.
  { apply (tidy_ext used e); [| |exact Htidy].
    - rewrite resumeTask_tasks, Hpc. reflexivity.
    - rewrite resumeTask_releases.
      destruct (taskPc t); try discriminate. simpl. apply app_nil_r. }
  assert (taskJob <$> tasks (resumeTask now t r e) = taskJob <$> tasks e) as Hids.
  { rewrite resumeTask_tasks, Hpc. apply task_ids_withPc. }
  unfold tidy. rewrite Hids. split; [exact Hnd|]. split; [|split].
  - intros t' Ht'. rewrite resumeTask_tasks, Hpc in Ht'.
    apply task_of_withPc in Ht' as (t0 & Ht0 & -> & _). apply Hused, Ht0.
  - intros jk. rewrite resumeTask_releases, elem_of_app. intros [Hjk|Hjk].
    + apply Hrel, Hjk.
    + destruct (settles (taskPc t) r); [|by apply elem_of_nil in Hjk].
      apply list_elem_of_singleton in Hjk as ->. simpl.
      by apply list_elem_of_fmap_2.
  - intros t' Ht'. rewrite resumeTask_tasks, Hpc in Ht'.
    apply task_of_withPc in Ht' as (t0 & Ht0 & Hid & Hpc').
    unfold releaseCount. rewrite resumeTask_releases, List.filter_app, length_app.
    fold (releaseCount (taskJob t') e). rewrite Hid, Hpc', (Honce t0 Ht0).
    destruct (eqb (taskJob t0) (taskJob t)) eqn:Heq.
    + apply eqb_true in Heq.
      assert (t0 = t) as -> by (eapply same_id_same_task; eassumption).
      rewrite Hpc, (settles_nextPc _ r Hpc).
      destruct (settles (taskPc t) r); simpl; [|reflexivity].
      rewrite eqb_refl. reflexivity.
    + destruct (settles (taskPc t) r); simpl; [|lia].
      assert (eqb (taskJob t) (taskJob t0) = false) as ->; [|simpl; lia].
      apply eqb_neq. intros Hx. symmetry in Hx. apply eqb_true in Hx. congruence.
Qed.

Lemma startAgent_tasks (now : Z) (jobId : jsstring) (request : AgentJobRequest)
    (cfg : AgentConfig) (copilotToken : option jsstring) (e : Engine) :
  releases (startAgent now jobId request cfg copilotToken e).2 = releases e
  /\ (tasks (startAgent now jobId request cfg copilotToken e).2 = tasks e
      \/ exists t, tasks (startAgent now jobId request cfg copilotToken e).2
                   = tasks e ++ [t]
                   /\ taskJob t = jobId /\ taskPc t = AwaitClient).
Proof.
  unfold startAgent.
  destruct (RateLimitGuard.check now _ (rateLimitGuard e)) as [gate g].
  destruct (negb (allowed gate)); simpl; [split; [reflexivity|by left]|].
  destruct (negb (bool_decide (_ ∈ allowedModels cfg))); simpl.
  - split; [reflexivity|by left].
  - split; [reflexivity|]. right. eexists. split; [reflexivity|]. split; reflexivity.
Qed.

Lemma tidy_start (used : list jsstring) (now : Z) (jobId : jsstring)
    (request : AgentJobRequest) (cfg : AgentConfig)
    (copilotToken : option jsstring) (e : Engine) :
  jobId ∉ used -> tidy used e ->
  tidy (jobId :: used) (startAgent now jobId request cfg copilotToken e).2.
Proof.
  intros Hfresh Htidy.
  destruct (startAgent_tasks now jobId request cfg copilotToken e)
    as [Hr [Ht|(t & Ht & Hid & Hpc)]].
  { apply (tidy_ext _ e); [exact Ht|exact Hr|].
    eapply tidy_weaken; [|exact Htidy]. intros j Hj. by apply elem_of_cons; right. }
  destruct Htidy as (Hnd & Hused & Hrel & Honce).
  assert (jobId ∉ taskJob <$> tasks e) as Hnew.
  { intros (t0 & -> & Ht0)%list_elem_of_fmap. apply Hfresh, Hused, Ht0. }
  unfold tidy, releasedOnce, releaseCount. rewrite Ht, Hr, fmap_app. simpl.
  split; [|split; [|split]].
  - apply NoDup_app. split; [exact Hnd|]. split; [|apply NoDup_singleton].
    intros j Hj ->%list_elem_of_singleton. rewrite Hid in Hj. contradiction.
  - intros t' [Ht' | ->%list_elem_of_singleton]%elem_of_app.
    + apply elem_of_cons. right. apply Hused, Ht'.
    + rewrite Hid. apply elem_of_cons. by left.
  - intros jk Hjk. apply elem_of_app. left. apply Hrel, Hjk.
  - intros t' [Ht' | ->%list_elem_of_singleton]%elem_of_app.
    + apply Honce, Ht'.
    + rewrite Hid, Hpc. simpl.
      destruct (List.filter (fun r => eqb r.1 jobId) (releases e)) as [|jk rest] eqn:Hf;
        [reflexivity|].
      exfalso. assert (In jk (List.filter (fun r => eqb r.1 jobId) (releases e))) as Hin
        by (rewrite Hf; by left).
      apply filter_In in Hin as [Hin Heq]. apply eqb_true in Heq.
      apply Hnew. rewrite <- Heq. apply Hrel. by apply list_elem_of_In.
Qed.

Lemma tidy_run (trace : list (Z * Event)) (used : list jsstring) (e : Engine) :
  withoutReaper trace = true -> freshIds used trace = true -> tidy used e ->
  exists used', tidy used' (run e trace).
Proof.
  revert used e. induction trace as [|[now ev] trace IH]; intros used e Hq Hf Htidy.
  - exists used. exact Htidy.
  - simpl in Hq. apply andb_true_iff in Hq as [Hev Hq]. simpl in Hev.
    unfold run. simpl. fold (run (step e (now, ev)) trace).
    destruct ev as [jobId request cfg copilotToken|jobId r|jobId snap| |];
      try discriminate; simpl in Hf.
    + apply andb_true_iff in Hf as [Hfresh Hf].
      apply negb_true_iff, bool_decide_eq_false in Hfresh.
      apply (IH (jobId :: used)); [exact Hq|exact Hf|].
      unfold step. simpl. by apply tidy_start.
    + apply (IH used); [exact Hq|exact Hf|]. unfold step. simpl.
      destruct (findTask jobId e) as [t|] eqn:Hfind; [|exact Htidy].
      apply findTask_some in Hfind as [Hin _]. by apply tidy_resume.
    + apply (IH used); [exact Hq|exact Hf|]. unfold step. simpl.
      destruct (findTask jobId e) as [t|]; [|exact Htidy].
      apply (tidy_ext used e); [| |exact Htidy];
        unfold usageEvent; destruct (taskPc t); reflexivity.
    + apply (IH used); [exact Hq|exact Hf|]. exact Htidy.
Qed.

Lemma tidy_new (cfg : RateLimitConfig) : tidy [] (newEngine cfg).
Proof.
  unfold tidy, releasedOnce. simpl. split; [constructor|].
  split; [|split]; intros x Hx; by apply elem_of_nil in Hx.
Qed.

End EngineFacts.

(** C1.  On the trace [reapedThenSettled] the reaper times out job-1 and
    releases its slot, and when the session task of job-1 settles afterwards
    its [.finally] callback releases again: two releases for one admitted
    job.  The second one takes the slot of job-2, which is still processing,
    so the tracker shows no job in flight for the identity. *)
Theorem reaper_then_finally_release_twice :
  let e := run (newEngine Examples.testConfig) Examples.reapedThenSettled in
  releases e = [(js "job-1", Examples.alice); (js "job-1", Examples.alice)]
  /\ releaseCount (js "job-1") e = 2%nat
  /\ status <$> getAgentStatus (js "job-1") e = Some Completed
  /\ status <$> getAgentStatus (js "job-2") e = Some Processing
  /\ RateLimitGuard.stats (rateLimitGuard e) = (0, ∅).
Proof. vm_compute. repeat split. Qed.

(** On the same trace without the reaper tick the job is released once. *)
Example settled_without_reaper_releases_once :
  let quiet :=
    List.filter (fun ev => match ev.2 with ReaperTick => false | _ => true end)
                Examples.reapedThenSettled in
  let e := run (newEngine Examples.testConfig) quiet in
  releases e = [(js "job-1", Examples.alice)]
  /\ RateLimitGuard.stats (rateLimitGuard e) = (1, {[Examples.alice := 1]}).
Proof. vm_compute. repeat split. Qed.

(** X25.  As long as the reaper does not fire, every admitted job is
    released exactly once, at the moment its task settles, whether the
    session succeeded or failed. *)
Theorem released_once_without_reaper (cfg : RateLimitConfig) (trace : list (Z * Event)) :
  withoutReaper trace = true -> freshIds [] trace = true ->
  forall t, t ∈ tasks (run (newEngine cfg) trace) ->
    releaseCount (taskJob t) (run (newEngine cfg) trace)
    = if isSettled (taskPc t) then 1%nat else 0%nat.
Proof.
  intros Hq Hf.
  destruct (tidy_run trace [] (newEngine cfg) Hq Hf (tidy_new cfg))
    as (used & _ & _ & _ & Honce).
  exact Honce.
Qed.

(** A session that never answers is released once, by the reaper. *)
Example reaped_and_never_settled_releases_once :
  let e := run (newEngine Examples.testConfig)
               [ (0, Start (js "job-1") (Examples.request None) Examples.agentConfig
                       (Some Examples.alice));
                 (5500, ReaperTick); (65500, ReaperTick) ] in
  releases e = [(js "job-1", Examples.alice)]
  /\ status <$> getAgentStatus (js "job-1") e = Some Failed.
Proof. vm_compute. repeat split. Qed.

(** Scenario 7 of the specification. *)
Example findStaleJobs_scenario :
  findStaleJobs 20000
    [ {| candId := js "old"; candStatus := Processing; candCreatedAt := 10000 |};
      {| candId := js "new"; candStatus := Processing; candCreatedAt := 20000 |} ]
    5000
  = [js "old"].
Proof. reflexivity. Qed.

(** C6, as stated, fails: with the only slot taken, a start that names a
    model outside the allowed list is answered [rate_limited], not
    [failed]. *)
Lemma invalid_model_while_at_capacity :
  let r := (startAgent 5 (js "job-2") (Examples.request (Some (js "nonexistent")))
              Examples.agentConfig (Some Examples.alice) Examples.busyEngine).1 in
  bool_decide (js "nonexistent" ∈ allowedModels Examples.agentConfig) = false
  /\ srStatus r = js "rate_limited"
  /\ srError r
     = Some (js "Server is at maximum capacity (1 concurrent jobs)."
               ++ js " Please retry shortly.").
Proof. vm_compute. repeat split. Qed.

(** C6, amended.  When the admission gate lets the caller through and the
    requested model ([request.model], or the default model when that is
    absent or empty) is not in [allowedModels], [startAgent] returns status
    [failed] with the error that names the model and the allowed list; no job
    record is stored, no task is started and the concurrency tracker is left
    as it was. *)
Theorem invalid_model_fails_without_slot
    (now : Z) (jobId : jsstring) (request : AgentJobRequest) (cfg : AgentConfig)
    (copilotToken : option jsstring) (e : Engine) :
  let userKey := orElse copilotToken (js "__server__") in
  let requestedModel := orElse (model request) (defaultModel cfg) in
  let out := startAgent now jobId request cfg copilotToken e in
  allowed (RateLimitGuard.check now userKey (rateLimitGuard e)).1 = true ->
  requestedModel ∉ allowedModels cfg ->
  out.1 = {| srId := jobId; srStatus := js "failed"; srRateLimited := None;
             srRetryAfterSeconds := None;
             srError := Some (js "Model " ++ dquote ++ requestedModel ++ dquote
                                ++ js " is not in the allowed list: "
                                ++ join (js ", ") (allowedModels cfg)) |}
  /\ agentJobs out.2 = agentJobs e
  /\ tasks out.2 = tasks e
  /\ releases out.2 = releases e
  /\ RateLimitGuard.concurrency (rateLimitGuard out.2)
     = RateLimitGuard.concurrency (rateLimitGuard e).
Proof.
  intros userKey requestedModel out Hgate Hmodel.
  assert (out.1 = {| srId := jobId; srStatus := js "failed"; srRateLimited := None;
                     srRetryAfterSeconds := None;
                     srError := Some (modelError requestedModel cfg) |}) as Hres.
  { subst out. unfold startAgent. fold userKey.
    destruct (RateLimitGuard.check now userKey (rateLimitGuard e)) as [gate g].
    simpl in Hgate. rewrite Hgate. simpl. fold requestedModel.
    rewrite bool_decide_eq_false_2 by exact Hmodel. reflexivity. }
  split; [exact Hres|].
  apply startAgent_rejected_frame. fold out. rewrite Hres. simpl. discriminate.
Qed.

(** Scenario 4 of the specification: model [nonexistent], allowed list
    [gpt-4.1], on a fresh engine. *)
Lemma invalid_model_fails_without_slot_witness :
  let out := startAgent 0 (js "job-1") (Examples.request (Some (js "nonexistent")))
               Examples.agentConfig None (newEngine Examples.testConfig) in
  srStatus out.1 = js "failed"
  /\ srError out.1
     = Some (js "Model " ++ dquote ++ js "nonexistent" ++ dquote
               ++ js " is not in the allowed list: gpt-4.1")
  /\ agentJobs out.2 = []
  /\ RateLimitGuard.stats (rateLimitGuard out.2) = (0, ∅).
Proof.
  destruct (invalid_model_fails_without_slot
              0 (js "job-1") (Examples.request (Some (js "nonexistent")))
              Examples.agentConfig None (newEngine Examples.testConfig))
    as (Hres & Hjobs & _ & _ & Hconc).
  - reflexivity.
  - apply (bool_decide_eq_false_1
             (js "nonexistent" ∈ allowedModels Examples.agentConfig)).
    reflexivity.
  - cbv zeta. unfold RateLimitGuard.stats.
    rewrite Hres, Hjobs, Hconc. repeat split.
Defined.

(** Scenario 1 of the specification, on [testConfig] (three slots, two per
    identity). *)
Example concurrency_scenario :
  let t2 := runCalls [Acquire (js "A"); Acquire (js "A")] in
  let t4 := runCalls [Acquire (js "A"); Acquire (js "A"); Acquire (js "B");
                      Acquire (js "C")] in
  retryAfterSeconds (ConcurrencyTracker.canAcquire Examples.testConfig t2 (js "A"))
  = Some (Num 15)
  /\ allowed (ConcurrencyTracker.canAcquire Examples.testConfig t2 (js "B")) = true
  /\ reason (ConcurrencyTracker.canAcquire Examples.testConfig t4 (js "D"))
     = Some (js "Server is at maximum capacity (3 concurrent jobs)."
               ++ js " Please retry shortly.").
Proof. vm_compute. repeat split. Qed.

(* ===================================================================== *)
(** * Properties of the SPA-shell detector *)
(* ===================================================================== *)

Import LocalScraper McpServer.

Section DetectorFacts.
Context {L : Libs}.

Lemma firstPattern_none (lowerText : jsstring) :
  Forall (fun pattern => includes pattern lowerText = false) SPA_LOADING_PATTERNS ->
  firstPattern lowerText = None.
Proof.
  unfold firstPattern. induction 1 as [|pattern rest Hp _ IH]; simpl; [reflexivity|].
  rewrite Hp. exact IH.
Qed.

(** With at least 200 characters of visible text only the rule for short
    pages with a loading phrase can fire. *)
Lemma detect_long_text (rawHtml bodyText : jsstring) (doc : Dom) :
  (MIN_MEANINGFUL_TEXT_LENGTH <= length (visibleText doc))%nat ->
  detectSPASkeleton rawHtml bodyText doc
  = if (length (visibleText doc) <? 500)%nat
    then (fun pattern =>
            js "Short page with loading indicator: " ++ dquote ++ pattern ++ dquote)
           <$> firstPattern (toLowerCase (visibleText doc))
    else None.
Proof.
  intros Hlen. unfold detectSPASkeleton.
  apply Nat.ltb_ge in Hlen. rewrite Hlen.
  unfold shortPageOrScriptHeavy, scriptHeavy. rewrite Hlen, andb_false_r.
  destruct (length (visibleText doc) <? 500)%nat; [|reflexivity].
  destruct (firstPattern _); reflexivity.
Qed.

End DetectorFacts.

(** C3, as stated, fails: the page [waitPage] has 263 characters of visible
    text, no SPA root container and no script at all, and the detector
    reports it as a short page with the loading phrase [please wait]. *)
Lemma short_page_with_loading_phrase_detected :
  length (@visibleText Examples.pageLibs Examples.waitPage) = 263%nat
  /\ Forall (fun sel => @select Examples.pageLibs sel Examples.waitPage = [])
            SPA_ROOT_SELECTORS
  /\ @scriptContentLength Examples.pageLibs Examples.waitPage = 0
  /\ @detectSPASkeleton Examples.pageLibs Examples.waitPage
       (text (@select Examples.pageLibs (js "body") Examples.waitPage))
       Examples.waitPage
     = Some (js "Short page with loading indicator: " ++ dquote ++ js "please wait"
               ++ dquote).
Proof.
  split; [vm_compute; reflexivity|]. split; [|split; vm_compute; reflexivity].
  repeat constructor.
Qed.

(** C3, amended.  The detector returns null for every input whose visible
    text has at least [MIN_MEANINGFUL_TEXT_LENGTH] (200) characters, that has
    no SPA root container, whose script content is at most
    [SCRIPT_HEAVY_RATIO] (13/20) of the raw HTML, and whose visible text
    either has at least 500 characters or, in lower case, includes none of
    [SPA_LOADING_PATTERNS]. *)
Theorem detector_null_on_meaningful_text
    {L : Libs} (rawHtml bodyText : jsstring) (doc : Dom) :
  (MIN_MEANINGFUL_TEXT_LENGTH <= length (visibleText doc))%nat ->
  Forall (fun sel => select sel doc = []) SPA_ROOT_SELECTORS ->
  SCRIPT_HEAVY_DEN * scriptContentLength doc <= SCRIPT_HEAVY_NUM * len rawHtml ->
  (500 <= length (visibleText doc))%nat
  \/ Forall (fun pattern => includes pattern (toLowerCase (visibleText doc)) = false)
            SPA_LOADING_PATTERNS ->
  detectSPASkeleton rawHtml bodyText doc = None.
Proof.
  intros Hlen _ _ Hquiet. rewrite detect_long_text by exact Hlen.
  destruct Hquiet as [Hlong|Hnone].
  - apply Nat.ltb_ge in Hlong. rewrite Hlong. reflexivity.
  - rewrite (firstPattern_none _ Hnone). destruct (_ <? _)%nat; reflexivity.
Qed.

(** The article of the test suite, which speaks of loading times: 760
    characters, none of the loading phrases. *)
Lemma detector_null_on_meaningful_text_witness :
  @detectSPASkeleton Examples.pageLibs Examples.articlePage
    (text (@select Examples.pageLibs (js "body") Examples.articlePage))
    Examples.articlePage = None.
Proof.
  apply (@detector_null_on_meaningful_text Examples.pageLibs).
  - vm_compute. lia.
  - repeat constructor.
  - vm_compute. discriminate.
  - left. vm_compute. lia.
Defined.

(** The word [loading] alone is not a loading phrase. *)
Example article_has_no_loading_phrase :
  includes (js "loading") (Examples.asciiLower Examples.articleText) = true
  /\ firstPattern (Examples.asciiLower Examples.articleText) = None.
Proof. split; vm_compute; reflexivity. Qed.

(* ===================================================================== *)
(** * Properties of localScrape *)
(* ===================================================================== *)

Section ScrapeFacts.
Context {L : Libs}.







End ScrapeFacts.




(** C10.  With [skipTlsVerification] set (and formats that are handled
    locally, so that the fetch is attempted), [NODE_TLS_REJECT_UNAUTHORIZED]
    is ["0"] after the call when the fetch throws, and the result is the
    failure built from the exception; the variable is deleted after the call
    when the fetch returns. *)
Theorem tls_flag_stays_off_when_fetch_throws
    {L : Libs} (fetch : jsstring -> list (jsstring * jsstring) -> FetchOutcome)
    (requestUrl : jsstring) (opts : ScrapeOptions) (env : ProcessEnv) :
  skipTlsVerification opts = true ->
  existsb needsServer (formatName <$> default [FString (js "markdown")] (formats opts))
  = false ->
  NODE_TLS_REJECT_UNAUTHORIZED (localScrape fetch requestUrl opts env).2
  = match fetch requestUrl (requestHeaders opts) with
    | FetchThrows _ => Some (js "0")
    | FetchReturns _ => None
    end
  /\ forall err,
       fetch requestUrl (requestHeaders opts) = FetchThrows err ->
       (localScrape fetch requestUrl opts env).1
       = {| success := false; data := None;
            error :=
              Some (if eqb (errName err) (js "AbortError")
                    then js "Timeout after " ++ showInt (timeoutOf opts) ++ js "ms"
                    else match errMessage err with
                         | [] => errName err
                         | m => m
                         end) |}.
Proof.
  intros Hskip Hlocal. unfold localScrape. rewrite Hlocal, Hskip.
  destruct (fetch requestUrl (requestHeaders opts)) as [err|response].
  - split; [reflexivity|]. intros err' [= <-]. unfold failure. cbn [fst].
    destruct (eqb (errName err) (js "AbortError")); reflexivity.
  - split; [|discriminate]. destruct (respText response); reflexivity.
Qed.

(** A refused connection with [skipTlsVerification]: the call fails with
    [fetch failed] and leaves the variable at ["0"]. *)
Lemma tls_flag_stays_off_when_fetch_throws_witness :
  skipTlsVerification Examples.skipTls = true
  /\ NODE_TLS_REJECT_UNAUTHORIZED
       (@localScrape Examples.pageLibs Examples.refuses
          (js "https://self-signed.example/") Examples.skipTls
          Examples.localProxyEnv).2
     = Some (js "0")
  /\ (@localScrape Examples.pageLibs Examples.refuses
        (js "https://self-signed.example/") Examples.skipTls
        Examples.localProxyEnv).1
     = {| success := false; data := None; error := Some (js "fetch failed") |}.
Proof.
  destruct (@tls_flag_stays_off_when_fetch_throws Examples.pageLibs Examples.refuses
              (js "https://self-signed.example/") Examples.skipTls
              Examples.localProxyEnv eq_refl eq_refl) as [Hflag Hres].
  split; [reflexivity|]. split; [exact Hflag|].
  exact (Hres {| errName := js "TypeError"; errMessage := js "fetch failed" |} eq_refl).
Defined.

(* ===================================================================== *)
(** * Properties of the tool dispatch *)
(* ===================================================================== *)

Section DispatchFacts.
Context {L : Libs}.
Variable engine : EngineRequest -> JsError + JsValue.
Variable fetch : jsstring -> list (jsstring * jsstring) -> FetchOutcome.

(** In local-proxy mode the engine is called for one local result only:
    the failure [FORMAT_NEEDS_SERVER].  Every other local result, the
    detected SPA shell among them, is returned as it is. *)
Lemma scorch_scrape_local (requestUrl : jsstring) (options : JsObject)
    (env : ProcessEnv) :
  isLocalProxyEnabled env = true ->
  error (localScrape fetch requestUrl
                 (optionsOf (removeEmptyTopLevel options)) env).1
    <> Some (js "FORMAT_NEEDS_SERVER") ->
  outcome (scorch_scrape engine fetch requestUrl options env)
    = LocalResult (localScrape fetch requestUrl
                     (optionsOf (removeEmptyTopLevel options)) env).1
  /\ engineCalls (scorch_scrape engine fetch requestUrl options env) = [].
Proof.
  intros Hproxy Herr. unfold scorch_scrape. rewrite Hproxy.
  destruct (localScrape fetch requestUrl (optionsOf (removeEmptyTopLevel options)) env)
    as [localResult env'].
  simpl in Herr. rewrite (bool_decide_eq_false_2 _ Herr), andb_false_r.
  split; reflexivity.
Qed.

Lemma filter_twice {A} (keep : A -> bool) (xs : list A) :
  List.filter keep (List.filter keep xs) = List.filter keep xs.
Proof.
  induction xs as [|x xs IH]; simpl; [reflexivity|].
  destruct (keep x) eqn:Hk; simpl; [rewrite Hk, IH|]; auto.
Qed.

End DispatchFacts.

(** C4.  In local-proxy mode, a scrape of the empty React shell
    [shellPage] is answered with the local result: the failure
    [SPA_SKELETON_DETECTED] with its reason, and the engine, which would have
    rendered the page, is never called. *)
Theorem spa_shell_is_surfaced_not_retried :
  @isLocalProxyEnabled Examples.pageLibs Examples.localProxyEnv = true
  /\ @detectSPASkeleton Examples.pageLibs Examples.shellPage [] Examples.shellPage
     = Some (js "SPA root container " ++ dquote ++ js "#root" ++ dquote
               ++ js " with minimal content (0 chars)")
  /\ engineCalls
       (@scorch_scrape Examples.pageLibs Examples.renders
          (Examples.serves (js "https://app.example/") Examples.shellPage)
          (js "https://app.example/") [] Examples.localProxyEnv) = []
  /\ exists r,
       outcome
         (@scorch_scrape Examples.pageLibs Examples.renders
            (Examples.serves (js "https://app.example/") Examples.shellPage)
            (js "https://app.example/") [] Examples.localProxyEnv) = LocalResult r
       /\ success r = false
       /\ error r = Some (js "SPA_SKELETON_DETECTED").
Proof.
  split; [vm_compute; reflexivity|]. split; [vm_compute; reflexivity|].
  split; [vm_compute; reflexivity|].
  eexists. split; [vm_compute; reflexivity|]. split; reflexivity.
Qed.

(** The sibling path: a format that needs the server is retried on the
    engine. *)
Example format_needs_server_falls_back :
  engineCalls
    (@scorch_scrape Examples.pageLibs Examples.renders
       (Examples.serves (js "https://app.example/") Examples.shellPage)
       (js "https://app.example/")
       [(js "formats", VArray [VString (js "screenshot")])]
       Examples.localProxyEnv)
  = [{| reqUrl := js "https://app.example/";
        reqOptions := [(js "formats", VArray [VString (js "screenshot")]);
                       (js "origin", VString ORIGIN)] |}].
Proof. vm_compute. reflexivity. Qed.

(** C9.  [removeEmptyTopLevel] is idempotent: its result holds no entry
    that it drops (no null or undefined, no blank string, no empty array, no
    empty object), so a second application returns the result unchanged. *)
Theorem removeEmptyTopLevel_idempotent (obj : JsObject) :
  removeEmptyTopLevel (removeEmptyTopLevel obj) = removeEmptyTopLevel obj
  /\ forall k v, (k, v) ∈ removeEmptyTopLevel obj -> isEmptyLeaf v = false.
Proof.
  unfold removeEmptyTopLevel. split; [apply filter_twice|].
  intros k v Hin. apply list_elem_of_In, filter_In in Hin as [_ Hkeep].
  simpl in Hkeep. apply andb_true_iff in Hkeep as [Hleaf _].
  by apply negb_true_iff in Hleaf.
Qed.

(** Only the top level is looked at: an empty leaf inside a kept object
    stays. *)
Example removeEmptyTopLevel_on_arguments :
  removeEmptyTopLevel
    [(js "formats", VArray []); (js "waitFor", VNumber 0);
     (js "location", VObject [(js "country", VString [])]);
     (js "prompt", VString (js "  ")); (js "schema", VObject []);
     (js "maxAge", VNull)]
  = [(js "waitFor", VNumber 0);
     (js "location", VObject [(js "country", VString [])])].
Proof. vm_compute. reflexivity. Qed.

(* ===================================================================== *)
(** * Further properties of the admission core *)
(* ===================================================================== *)

Section MoreTrackerFacts.
Import ConcurrencyTracker.

Lemma release_acquire (tr : ConcurrencyTracker.t) (u : jsstring) :
  saturated tr -> release (acquire tr u) u = tr.
Proof.
  intros [Hg Hu]. destruct tr as [g m]. unfold release, acquire, userCount. simpl in *.
  rewrite lookup_insert_eq. simpl. f_equal; [lia|].
  destruct (m !! u) as [n|] eqn:Hm; simpl.
  - pose proof (Hu u n Hm). destruct (n + 1 <=? 1) eqn:Hle; [lia|].
    rewrite insert_insert_eq. replace (n + 1 - 1) with n by lia.
    by apply insert_id.
  - simpl. rewrite delete_insert_eq. by apply delete_id.
Qed.

(** X1.  On a tracker reached by any calls whatever, a release undoes the
    acquire before it: the counters and the map of identities are again
    what they were (no entry with count zero is left behind). *)
Theorem release_undoes_acquire (calls : list Call) (u : jsstring) :
  release (acquire (runCalls calls) u) u = runCalls calls.
Proof.
  apply release_acquire. unfold runCalls. apply saturated_foldl, saturated_new.
Qed.

End MoreTrackerFacts.

(** ** What the sliding-window limiter stores *)

Section WindowFacts.
Import SlidingWindowRateLimiter.

Lemma prune_prune (c0 c : Z) (ts : list Z) :
  c0 <= c -> prune c (prune c0 ts) = prune c ts.
Proof.
  intros Hc. unfold prune. induction ts as [|t ts IH]; simpl; [reflexivity|].
  destruct (c0 <? t) eqn:H0; simpl; rewrite IH; [reflexivity|].
  destruct (c <? t) eqn:H1; [lia|reflexivity].
Qed.

Lemma prune_length (c : Z) (ts : list Z) : (length (prune c ts) <= length ts)%nat.
Proof. unfold prune. apply List.filter_length_le. Qed.

Lemma prune_app (c : Z) (xs ys : list Z) : prune c (xs ++ ys) = prune c xs ++ prune c ys.
Proof. unfold prune. apply List.filter_app. Qed.

Lemma covers_mono (L L' : Z) (A S : list Z) : L <= L' -> covers L A S -> covers L' A S.
Proof. intros HL H c Hc. apply H. lia. Qed.

Lemma covers_prune (L c0 : Z) (A S : list Z) :
  L <= c0 -> covers L A S -> covers c0 A (prune c0 S).
Proof. intros HL H c Hc. rewrite prune_prune by exact Hc. apply H. lia. Qed.

Lemma covers_snoc (L t : Z) (A S : list Z) : covers L A S -> covers L (A ++ [t]) (S ++ [t]).
Proof.
  intros H c Hc. rewrite !prune_app, !length_app. pose proof (H c Hc). lia.
Qed.

Lemma covers_either (L c0 : Z) (A S S' : list Z) :
  L <= c0 -> covers L A S -> S' = S \/ S' = prune c0 S -> covers c0 A S'.
Proof.
  intros HL H [->| ->]; [by apply (covers_mono L)|by apply (covers_prune L)].
Qed.

Lemma stored_insert (u v : jsstring) (ts : list Z) (m : gmap jsstring (list Z)) g :
  stored v {| perUser := <[u := ts]> m; globalTimestamps := g |}
  = if eqb u v then ts else default [] (m !! v).
Proof.
  unfold stored. simpl. destruct (eqb u v) eqn:Huv.
  - apply eqb_true in Huv as ->. by rewrite lookup_insert_eq.
  - rewrite lookup_insert_ne; [reflexivity|]. intros ->. rewrite eqb_refl in Huv. discriminate.
Qed.

(** What the check stores: the arrays it has pruned. *)
Lemma check_stores (cfg : RateLimitConfig) (now : Z) (u : jsstring) (l : t) :
  let c := now - rateLimitWindowMs cfg in
  let l' := (check cfg now u l).2 in
  globalTimestamps l' = prune c (globalTimestamps l)
  /\ (forall v, stored v l' = stored v l \/ stored v l' = prune c (stored v l))
  /\ (allowed (check cfg now u l).1 = true ->
      stored u l' = prune c (stored u l)
      /\ Z.of_nat (length (globalTimestamps l')) < maxGlobalRequestsPerWindow cfg
      /\ Z.of_nat (length (stored u l')) < maxRequestsPerWindow cfg
      /\ forall v, v <> u -> stored v l' = stored v l).
Proof.
  simpl. unfold check.
  destruct (maxGlobalRequestsPerWindow cfg <=? _) eqn:Hg; simpl.
  { split; [reflexivity|]. split; [intros v; by left|discriminate]. }
  destruct (maxRequestsPerWindow cfg <=? _) eqn:Hu; simpl.
  - split; [reflexivity|]. split; [|discriminate].
    intros v. rewrite stored_insert. destruct (eqb u v) eqn:Huv; [|by left].
    apply eqb_true in Huv as ->. by right.
  - split; [reflexivity|]. split.
    + intros v. rewrite stored_insert. destruct (eqb u v) eqn:Huv; [|by left].
      apply eqb_true in Huv as ->. by right.
    + intros _. rewrite stored_insert, eqb_refl. split; [reflexivity|].
      split; [lia|]. split; [lia|].
      intros v Hv. rewrite stored_insert, eqb_neq by congruence. reflexivity.
Qed.

Lemma record_stores (now : Z) (u : jsstring) (l : t) :
  globalTimestamps (record now u l) = globalTimestamps l ++ [now]
  /\ forall v, stored v (record now u l)
               = stored v l ++ if eqb u v then [now] else [].
Proof.
  split; [reflexivity|]. intros v. unfold record. rewrite stored_insert.
  destruct (eqb u v) eqn:Huv.
  - apply eqb_true in Huv as ->. reflexivity.
  - rewrite app_nil_r. reflexivity.
Qed.

Lemma gc_stores (cfg : RateLimitConfig) (now : Z) (l : t) :
  let c := now - rateLimitWindowMs cfg in
  globalTimestamps (gc cfg now l) = prune c (globalTimestamps l)
  /\ forall v, stored v (gc cfg now l) = prune c (stored v l).
Proof.
  simpl. split; [reflexivity|]. intros v. unfold stored, gc. simpl.
  destruct (filter _ _ !! v) as [ts|] eqn:Hf.
  - apply map_lookup_filter_Some in Hf as [Hf _].
    rewrite lookup_fmap in Hf. destruct (perUser l !! v) as [ts0|]; simpl in *; congruence.
  - simpl. apply map_lookup_filter_None in Hf as [Hf|Hf].
    + rewrite lookup_fmap in Hf. destruct (perUser l !! v); simpl in *; [discriminate|reflexivity].
    + rewrite lookup_fmap in Hf. destruct (perUser l !! v) as [ts0|]; simpl in *; [|reflexivity].
      specialize (Hf _ eq_refl). simpl in Hf.
      destruct (prune _ ts0) as [|a r]; [reflexivity|]. exfalso. apply Hf. discriminate.
Qed.

End WindowFacts.

(** ** How the events of the engine move the guard *)

Section GuardFacts.

Lemma guardStep_refl (now : Z) (g : RateLimitGuard.t) : guardStep now g g.
Proof. apply (guardReleases now g []). Qed.

Lemma startAgent_guard (now : Z) (jobId : jsstring) (request : AgentJobRequest)
    (cfg : AgentConfig) (copilotToken : option jsstring) (e : Engine) :
  (eqb (srStatus (startAgent now jobId request cfg copilotToken e).1) (js "processing")
   = false
   /\ rateLimitGuard (startAgent now jobId request cfg copilotToken e).2
      = (RateLimitGuard.check now (orElse copilotToken (js "__server__"))
           (rateLimitGuard e)).2)
  \/ (eqb (srStatus (startAgent now jobId request cfg copilotToken e).1) (js "processing")
      = true
      /\ allowed (RateLimitGuard.check now (orElse copilotToken (js "__server__"))
                    (rateLimitGuard e)).1 = true
      /\ rateLimitGuard (startAgent now jobId request cfg copilotToken e).2
         = RateLimitGuard.acquire now (orElse copilotToken (js "__server__"))
             (RateLimitGuard.check now (orElse copilotToken (js "__server__"))
                (rateLimitGuard e)).2).
Proof.
  unfold startAgent.
  destruct (RateLimitGuard.check now _ (rateLimitGuard e)) as [gate g].
  cbn [fst snd]. destruct (allowed gate) eqn:Hgate; simpl; [|left; split; reflexivity].
  destruct (negb (bool_decide (_ ∈ allowedModels cfg))); simpl.
  - left. split; reflexivity.
  - right. repeat split; reflexivity.
Qed.

Lemma reapJob_guard (now : Z) (e : Engine) (jobId : jsstring) :
  exists keys, rateLimitGuard (reapJob now e jobId)
               = foldl (fun g key => RateLimitGuard.release key g) (rateLimitGuard e) keys.
Proof.
  unfold reapJob. destruct (getJob jobId (agentJobs e)) as [job|].
  - exists [orElse (_userKey job) []]. reflexivity.
  - exists []. reflexivity.
Qed.

Lemma reapJobs_guard (now : Z) (ids : list jsstring) (e : Engine) :
  exists keys, rateLimitGuard (foldl (reapJob now) e ids)
               = foldl (fun g key => RateLimitGuard.release key g) (rateLimitGuard e) keys.
Proof.
  revert e. induction ids as [|i ids IH]; intros e; simpl.
  - exists []. reflexivity.
  - destruct (IH (reapJob now e i)) as [keys2 H2].
    destruct (reapJob_guard now e i) as [keys1 H1].
    exists (keys1 ++ keys2). rewrite H2, H1, foldl_app. reflexivity.
Qed.

Lemma resumeTask_guard (now : Z) (t : Task) (r : Resume) (e : Engine) :
  rateLimitGuard (resumeTask now t r e)
  = foldl (fun g key => RateLimitGuard.release key g) (rateLimitGuard e)
      (if settles (taskPc t) r then [taskUserKey t] else []).
Proof.
  unfold resumeTask, settles.
  destruct (taskPc t) as [| | |[msg|]|], r; reflexivity.
Qed.

(** Each event moves the guard by one [guardStep]. *)
Lemma step_guardStep (e : Engine) (now : Z) (ev : Event) :
  guardStep now (rateLimitGuard e) (rateLimitGuard (step e (now, ev))).
Proof.
  unfold step. simpl.
  destruct ev as [jobId request cfg copilotToken|jobId r|jobId snap| |].
  - destruct (startAgent_guard now jobId request cfg copilotToken e)
      as [[_ ->]|(_ & Hallowed & ->)].
    + apply guardChecks.
    + by apply guardAdmits.
  - destruct (findTask jobId e) as [t|]; [|apply guardStep_refl].
    rewrite resumeTask_guard. apply guardReleases.
  - destruct (findTask jobId e) as [t|]; [|apply guardStep_refl].
    unfold usageEvent. destruct (taskPc t); try apply guardStep_refl.
    simpl. apply guardQuota.
  - unfold reaperTick. destruct (reapJobs_guard now
      (findStaleJobs now (asCandidate <$> agentJobs e)
         (staleJobTimeoutMs (RateLimitGuard.config (rateLimitGuard e)))) e) as [keys ->].
    apply guardReleases.
  - simpl. apply guardGc.
Qed.

(** A property of the guard that every [guardStep] preserves holds after
    every trace. *)
Lemma guard_invariant (P : RateLimitGuard.t -> Prop) (cfg : RateLimitConfig) :
  P (RateLimitGuard.new cfg) ->
  (forall now g g', guardStep now g g' -> P g -> P g') ->
  forall trace, P (rateLimitGuard (run (newEngine cfg) trace)).
Proof.
  intros Hnew Hstep trace.
  assert (forall e, P (rateLimitGuard e) -> P (rateLimitGuard (run e trace))) as H.
  { induction trace as [|[now ev] trace IH]; intros e He; [exact He|].
    unfold run. simpl. apply IH. eapply Hstep; [apply step_guardStep|exact He]. }
  apply H. exact Hnew.
Qed.


Lemma quiet_same (now : Z) (g g' : RateLimitGuard.t) :
  RateLimitGuard.config g' = RateLimitGuard.config g ->
  RateLimitGuard.rateLimit g' = RateLimitGuard.rateLimit g -> quiet now g g'.
Proof. intros Hc Hr. unfold quiet. rewrite Hc, Hr. split; [reflexivity|]. split; [|by left]. intros v. by left. Qed.

Lemma guardCheck_rateLimit (now : Z) (u : jsstring) (g : RateLimitGuard.t) :
  let swc := SlidingWindowRateLimiter.check (RateLimitGuard.config g) now u
               (RateLimitGuard.rateLimit g) in
  (RateLimitGuard.rateLimit (RateLimitGuard.check now u g).2 = RateLimitGuard.rateLimit g
   \/ RateLimitGuard.rateLimit (RateLimitGuard.check now u g).2 = swc.2)
  /\ (allowed (RateLimitGuard.check now u g).1 = true ->
      RateLimitGuard.rateLimit (RateLimitGuard.check now u g).2 = swc.2
      /\ allowed swc.1 = true).
Proof.
  simpl. unfold RateLimitGuard.check.
  destruct (allowed (ConcurrencyTracker.canAcquire _ _ u)) eqn:Hc; simpl.
  2:{ split; [by left|]. rewrite Hc. discriminate. }
  destruct (SlidingWindowRateLimiter.check _ now u _) as [rateResult rl]. simpl.
  destruct (allowed rateResult) eqn:Hr; simpl.
  2:{ split; [by right|]. rewrite Hr. discriminate. }
  destruct (allowed (QuotaMonitor.check _ now u _)) eqn:Hq; simpl.
  - split; [by right|]. intros _. split; reflexivity.
  - split; [by right|]. rewrite Hq. discriminate.
Qed.

Lemma quiet_check (now : Z) (u : jsstring) (g : RateLimitGuard.t) :
  quiet now g (RateLimitGuard.check now u g).2.
Proof.
  destruct (guardCheck_frame now u g) as (_ & _ & Hk).
  destruct (guardCheck_rateLimit now u g) as [[Hr|Hr] _].
  - by apply quiet_same.
  - unfold quiet. rewrite Hk, Hr.
    destruct (check_stores (RateLimitGuard.config g) now u (RateLimitGuard.rateLimit g))
      as (Hg & Hs & _).
    split; [reflexivity|]. split; [exact Hs|]. right. exact Hg.
Qed.

Lemma releases_frame (keys : list jsstring) (g : RateLimitGuard.t) :
  RateLimitGuard.config (foldl (fun g' key => RateLimitGuard.release key g') g keys)
  = RateLimitGuard.config g
  /\ RateLimitGuard.rateLimit (foldl (fun g' key => RateLimitGuard.release key g') g keys)
     = RateLimitGuard.rateLimit g
  /\ RateLimitGuard.quota (foldl (fun g' key => RateLimitGuard.release key g') g keys)
     = RateLimitGuard.quota g.
Proof.
  revert g. induction keys as [|k keys IH]; intros g; simpl; [repeat split|].
  destruct (IH (RateLimitGuard.release k g)) as (-> & -> & ->). repeat split.
Qed.

Lemma quiet_step (e : Engine) (now : Z) (ev : Event) :
  accepts e (now, ev) = false ->
  quiet now (rateLimitGuard e) (rateLimitGuard (step e (now, ev))).
Proof.
  unfold step, accepts. cbn [fst snd].
  destruct ev as [jobId request cfg copilotToken|jobId r|jobId snap| |]; intros Hacc.
  - destruct (startAgent_guard now jobId request cfg copilotToken e)
      as [[_ ->]|(Hyes & _)]; [apply quiet_check|]. congruence.
  - destruct (findTask jobId e) as [t|]; [|by apply quiet_same].
    rewrite resumeTask_guard. destruct (releases_frame
      (if settles (taskPc t) r then [taskUserKey t] else []) (rateLimitGuard e)) as (? & ? & _).
    by apply quiet_same.
  - destruct (findTask jobId e) as [t|]; [|by apply quiet_same].
    unfold usageEvent. destruct (taskPc t); by apply quiet_same.
  - unfold reaperTick. destruct (reapJobs_guard now
      (findStaleJobs now (asCandidate <$> agentJobs e)
         (staleJobTimeoutMs (RateLimitGuard.config (rateLimitGuard e)))) e) as [keys ->].
    destruct (releases_frame keys (rateLimitGuard e)) as (? & ? & _). by apply quiet_same.
  - simpl. unfold quiet. simpl.
    destruct (gc_stores (RateLimitGuard.config (rateLimitGuard e)) now
                (RateLimitGuard.rateLimit (rateLimitGuard e))) as [Hg Hs].
    split; [reflexivity|]. split; [|by right]. intros v. right. apply Hs.
Qed.

Lemma windowInv_quiet (cfg : RateLimitConfig) (u : jsstring) (L now : Z) (Au Ag : list Z)
    (g g' : RateLimitGuard.t) :
  L <= now - rateLimitWindowMs cfg -> quiet now g g' ->
  windowInv cfg u L Au Ag g -> windowInv cfg u (now - rateLimitWindowMs cfg) Au Ag g'.
Proof.
  intros HL (Hk & Hs & Hg) (Hcfg & Hcu & Hcg & Hlu & Hlg). rewrite Hcfg in *.
  split; [congruence|]. split; [|split; [|split]].
  - by apply (covers_either L _ _ (stored u (RateLimitGuard.rateLimit g))).
  - by apply (covers_either L _ _
      (SlidingWindowRateLimiter.globalTimestamps (RateLimitGuard.rateLimit g))).
  - destruct (Hs u) as [->| ->]; [exact Hlu|].
    pose proof (prune_length (now - rateLimitWindowMs cfg)
                  (stored u (RateLimitGuard.rateLimit g))). lia.
  - destruct Hg as [->| ->]; [exact Hlg|].
    pose proof (prune_length (now - rateLimitWindowMs cfg)
      (SlidingWindowRateLimiter.globalTimestamps (RateLimitGuard.rateLimit g))). lia.
Qed.

Lemma windowInv_step (cfg : RateLimitConfig) (u : jsstring) (L now : Z) (Au Ag : list Z)
    (e : Engine) (ev : Event) :
  L <= now - rateLimitWindowMs cfg ->
  windowInv cfg u L Au Ag (rateLimitGuard e) ->
  windowInv cfg u (now - rateLimitWindowMs cfg)
    (Au ++ if startedBy u (now, ev) && accepts e (now, ev) then [now] else [])
    (Ag ++ if accepts e (now, ev) then [now] else [])
    (rateLimitGuard (step e (now, ev))).
Proof.
  intros HL Hinv. destruct (accepts e (now, ev)) eqn:Hacc.
  2:{ rewrite andb_false_r, !app_nil_r. eapply windowInv_quiet; [exact HL| |exact Hinv].
      by apply quiet_step. }
  rewrite andb_true_r.
  destruct ev as [jobId request acfg copilotToken|jobId r|jobId snap| |];
    try discriminate.
  unfold accepts in Hacc. cbn [fst snd] in Hacc. unfold step, startedBy. cbn [fst snd].
  destruct (startAgent_guard now jobId request acfg copilotToken e)
    as [[Hno _]|(_ & Hallowed & ->)]; [congruence|].
  set (k := orElse copilotToken (js "__server__")) in *.
  destruct Hinv as (Hcfg & Hcu & Hcg & Hlu & Hlg).
  destruct (guardCheck_frame now k (rateLimitGuard e)) as (_ & _ & Hk).
  destruct (guardCheck_rateLimit now k (rateLimitGuard e)) as [_ Hrl].
  destruct (Hrl Hallowed) as [Hrl' Hsw]. clear Hrl.
  destruct (check_stores (RateLimitGuard.config (rateLimitGuard e)) now k
              (RateLimitGuard.rateLimit (rateLimitGuard e))) as (Hg & _ & Hst).
  destruct (Hst Hsw) as (Hsu & Hltg & Hltu & Hother). clear Hst.
  rewrite Hcfg in *.
  destruct (record_stores now k
    (SlidingWindowRateLimiter.check cfg now k (RateLimitGuard.rateLimit (rateLimitGuard e))).2)
    as [Hrg Hrs].
  unfold windowInv.
  change (RateLimitGuard.config (RateLimitGuard.acquire now k ?g))
    with (RateLimitGuard.config g).
  change (RateLimitGuard.rateLimit (RateLimitGuard.acquire now k ?g))
    with (SlidingWindowRateLimiter.record now k (RateLimitGuard.rateLimit g)).
  rewrite Hk, Hrl'.
  rewrite Hrg, Hrs, Hg. split; [reflexivity|].
  destruct (eqb k u) eqn:Hku.
  - apply eqb_true in Hku. subst u. rewrite Hsu.
    split; [apply covers_snoc; by apply (covers_prune L)|].
    split; [apply covers_snoc; by apply (covers_prune L)|].
    rewrite !length_app. simpl. rewrite Hsu in Hltu. rewrite Hg in Hltg. lia.
  - assert (u <> k) as Hne.
    { intros ->. rewrite eqb_refl in Hku. discriminate. }
    rewrite (Hother u Hne), !app_nil_r.
    split; [by apply (covers_mono L)|].
    split; [apply covers_snoc; by apply (covers_prune L)|].
    split; [exact Hlu|]. rewrite !length_app. simpl. rewrite Hg in Hltg. lia.
Qed.

Lemma nondecreasing_cons (a : Z) (ts : list Z) :
  nondecreasing (a :: ts) = true ->
  nondecreasing ts = true /\ forall b, b ∈ ts -> a <= b.
Proof.
  simpl. intros [Hall Hnd]%andb_true_iff. split; [exact Hnd|].
  intros b Hb. rewrite forallb_forall in Hall. apply list_elem_of_In in Hb.
  specialize (Hall b Hb). lia.
Qed.

Lemma windowInv_run (cfg : RateLimitConfig) (u : jsstring) (T : Z)
    (trace : list (Z * Event)) :
  forall (L : Z) (Au Ag : list Z) (e : Engine),
  windowInv cfg u L Au Ag (rateLimitGuard e) ->
  nondecreasing ((L + rateLimitWindowMs cfg) :: (fst <$> trace) ++ [T]) = true ->
  Z.of_nat (length (SlidingWindowRateLimiter.prune (T - rateLimitWindowMs cfg)
                      (Au ++ admissions (startedBy u) e trace)))
    <= maxRequestsPerWindow cfg
  /\ Z.of_nat (length (SlidingWindowRateLimiter.prune (T - rateLimitWindowMs cfg)
                         (Ag ++ admissions (fun _ => true) e trace)))
     <= maxGlobalRequestsPerWindow cfg.
Proof.
  induction trace as [|[now ev] trace IH]; intros L Au Ag e Hinv Hnd.
  - simpl in *. rewrite !app_nil_r. destruct Hinv as (_ & Hcu & Hcg & Hlu & Hlg).
    apply andb_true_iff in Hnd as [Hnd _]. apply andb_true_iff in Hnd as [Hnd _].
    assert (L <= T - rateLimitWindowMs cfg) as HL by lia.
    pose proof (Hcu _ HL). pose proof (Hcg _ HL).
    pose proof (prune_length (T - rateLimitWindowMs cfg)
                  (stored u (RateLimitGuard.rateLimit (rateLimitGuard e)))).
    pose proof (prune_length (T - rateLimitWindowMs cfg)
      (SlidingWindowRateLimiter.globalTimestamps (RateLimitGuard.rateLimit (rateLimitGuard e)))).
    lia.
  - apply nondecreasing_cons in Hnd as [Hnd Hfirst].
    assert (L <= now - rateLimitWindowMs cfg) as HL.
    { specialize (Hfirst now). simpl in Hfirst.
      assert (now ∈ now :: (fst <$> trace) ++ [T]) as Hin by (apply elem_of_cons; by left).
      specialize (Hfirst Hin). lia. }
    simpl admissions. rewrite !app_assoc.
    apply (IH (now - rateLimitWindowMs cfg)).
    + apply (windowInv_step cfg u L); [exact HL|exact Hinv].
    + simpl in Hnd. simpl. replace (now - rateLimitWindowMs cfg + rateLimitWindowMs cfg)
        with now by lia. exact Hnd.
Qed.

(** X3.  The sliding window holds for the engine as a whole.  On any trace
    whose clock does not run backwards, and at any time [T] from its last
    event on, the starts that were accepted for one identity within the
    window that ends at [T] number at most [maxRequestsPerWindow], and the
    starts accepted for all identities at most [maxGlobalRequestsPerWindow]
    (both limits being non-negative). *)
Theorem sliding_window_holds (cfg : RateLimitConfig) (u : jsstring)
    (trace : list (Z * Event)) (T : Z) :
  0 <= maxRequestsPerWindow cfg -> 0 <= maxGlobalRequestsPerWindow cfg ->
  nondecreasing ((fst <$> trace) ++ [T]) = true ->
  let windowStart := T - rateLimitWindowMs cfg in
  Z.of_nat (length (SlidingWindowRateLimiter.prune windowStart
                      (admissions (startedBy u) (newEngine cfg) trace)))
    <= maxRequestsPerWindow cfg
  /\ Z.of_nat (length (SlidingWindowRateLimiter.prune windowStart
                         (admissions (fun _ => true) (newEngine cfg) trace)))
     <= maxGlobalRequestsPerWindow cfg.
Proof.
  intros Hu Hg Hnd. simpl.
  set (first := hd T (fst <$> trace)).
  apply (windowInv_run cfg u T trace (first - rateLimitWindowMs cfg) [] [] (newEngine cfg)).
  - unfold windowInv, covers, stored. simpl. rewrite lookup_empty. simpl.
    repeat split; try assumption; intros; simpl; lia.
  - replace (first - rateLimitWindowMs cfg + rateLimitWindowMs cfg) with first by lia.
    subst first. destruct trace as [|[t0 ev0] rest]; simpl in *.
    + rewrite Z.leb_refl. reflexivity.
    + rewrite Z.leb_refl. simpl.
      apply andb_true_iff in Hnd as [Hall Hnd]. rewrite Hall, Hnd. reflexivity.
Qed.

(** ** The concurrency limits *)

Lemma canAcquire_allowed (cfg : RateLimitConfig) (tr : ConcurrencyTracker.t) (u : jsstring) :
  allowed (ConcurrencyTracker.canAcquire cfg tr u) = true ->
  ConcurrencyTracker.globalActive tr < maxGlobalConcurrency cfg
  /\ ConcurrencyTracker.userCount tr u < maxPerUserConcurrency cfg.
Proof.
  unfold ConcurrencyTracker.canAcquire.
  destruct (maxGlobalConcurrency cfg <=? ConcurrencyTracker.globalActive tr) eqn:Hg;
    [discriminate|].
  destruct (maxPerUserConcurrency cfg <=? ConcurrencyTracker.userCount tr u) eqn:Hu;
    [discriminate|].
  intros _. lia.
Qed.

Lemma guardCheck_allowed (now : Z) (u : jsstring) (g : RateLimitGuard.t) :
  allowed (RateLimitGuard.check now u g).1 = true ->
  allowed (ConcurrencyTracker.canAcquire (RateLimitGuard.config g)
             (RateLimitGuard.concurrency g) u) = true.
Proof.
  unfold RateLimitGuard.check.
  destruct (allowed (ConcurrencyTracker.canAcquire _ _ u)) eqn:Hc; [reflexivity|].
  simpl. rewrite Hc. discriminate.
Qed.

Lemma userCount_acquire (tr : ConcurrencyTracker.t) (u v : jsstring) :
  ConcurrencyTracker.userCount (ConcurrencyTracker.acquire tr u) v
  = if eqb u v then ConcurrencyTracker.userCount tr u + 1
    else ConcurrencyTracker.userCount tr v.
Proof.
  unfold ConcurrencyTracker.userCount, ConcurrencyTracker.acquire. simpl.
  destruct (eqb u v) eqn:Huv.
  - apply eqb_true in Huv as ->. rewrite lookup_insert_eq. reflexivity.
  - rewrite lookup_insert_ne; [reflexivity|]. intros ->.
    rewrite eqb_refl in Huv. discriminate.
Qed.

Lemma userCount_release_le (tr : ConcurrencyTracker.t) (u v : jsstring) (limit : Z) :
  0 <= limit -> ConcurrencyTracker.userCount tr v <= limit ->
  ConcurrencyTracker.userCount (ConcurrencyTracker.release tr u) v <= limit.
Proof.
  intros Hlimit Hv. unfold ConcurrencyTracker.release.
  fold (ConcurrencyTracker.userCount tr u).
  destruct (decide (u = v)) as [->|Hne].
  - unfold ConcurrencyTracker.userCount at 1. simpl.
    destruct (ConcurrencyTracker.userCount tr v <=? 1) eqn:Hle.
    + rewrite lookup_delete_eq. simpl. exact Hlimit.
    + rewrite lookup_insert_eq. simpl. lia.
  - unfold ConcurrencyTracker.userCount at 1. simpl.
    destruct (ConcurrencyTracker.userCount tr u <=? 1).
    + rewrite lookup_delete_ne by exact Hne. exact Hv.
    + rewrite lookup_insert_ne by exact Hne. exact Hv.
Qed.

Lemma withinLimits_step (cfg : RateLimitConfig) (now : Z) (g g' : RateLimitGuard.t) :
  0 <= maxGlobalConcurrency cfg -> 0 <= maxPerUserConcurrency cfg ->
  guardStep now g g' -> withinLimits cfg g -> withinLimits cfg g'.
Proof.
  intros HG HU Hstep (Hcfg & Hglobal & Huser).
  destruct Hstep as [u|u Hallowed|keys|u snapshot|].
  - destruct (guardCheck_frame now u g) as (Hc & _ & Hk).
    unfold withinLimits. rewrite Hc, Hk. repeat split; assumption.
  - destruct (guardCheck_frame now u g) as (Hc & _ & Hk).
    apply guardCheck_allowed, canAcquire_allowed in Hallowed as [Hlt1 Hlt2].
    rewrite Hcfg in Hlt1, Hlt2.
    unfold withinLimits. simpl. rewrite Hc, Hk. split; [exact Hcfg|]. split; [simpl; lia|].
    intros v. rewrite userCount_acquire. destruct (eqb u v); [lia|apply Huser].
  - assert (withinLimits cfg g) as Hg by (repeat split; assumption).
    clear Hcfg Hglobal Huser. revert g Hg.
    induction keys as [|k keys IH]; intros g0 Hg0; [exact Hg0|]. simpl. apply IH.
    destruct Hg0 as (Hcfg & Hglobal & Huser). split; [exact Hcfg|]. simpl. split; [lia|].
    intros v. by apply userCount_release_le.
  - repeat split; assumption.
  - repeat split; assumption.
Qed.

(** X2.  Whatever the events, the counters of the concurrency tracker stay
    within the configured limits (the limits being non-negative): the
    global count never exceeds [maxGlobalConcurrency] and no identity's
    count exceeds [maxPerUserConcurrency]. *)
Theorem concurrency_limits_hold (cfg : RateLimitConfig) (trace : list (Z * Event)) :
  0 <= maxGlobalConcurrency cfg -> 0 <= maxPerUserConcurrency cfg ->
  let tr := RateLimitGuard.concurrency (rateLimitGuard (run (newEngine cfg) trace)) in
  ConcurrencyTracker.globalActive tr <= maxGlobalConcurrency cfg
  /\ forall u, ConcurrencyTracker.userCount tr u <= maxPerUserConcurrency cfg.
Proof.
  intros HG HU. simpl.
  apply (guard_invariant (withinLimits cfg) cfg).
  - repeat split; [exact HG|]. intros u. unfold ConcurrencyTracker.userCount. simpl.
    rewrite lookup_empty. exact HU.
  - intros now g g'. by apply withinLimits_step.
Qed.

End GuardFacts.

Lemma concurrency_limits_hold_witness :
  let tr := RateLimitGuard.concurrency
              (rateLimitGuard (run (newEngine Examples.testConfig)
                                   Examples.reapedThenSettled)) in
  ConcurrencyTracker.globalActive tr <= 3
  /\ forall u, ConcurrencyTracker.userCount tr u <= 2.
Proof.
  apply (concurrency_limits_hold Examples.testConfig Examples.reapedThenSettled);
    simpl; lia.
Defined.

Lemma sliding_window_holds_witness :
  Z.of_nat (length (SlidingWindowRateLimiter.prune (6000 - 1000)
                      (admissions (startedBy Examples.alice)
                         (newEngine Examples.testConfig) Examples.reapedThenSettled)))
    <= 5
  /\ Z.of_nat (length (SlidingWindowRateLimiter.prune (6000 - 1000)
                         (admissions (fun _ => true)
                            (newEngine Examples.testConfig) Examples.reapedThenSettled)))
     <= 10.
Proof.
  apply (sliding_window_holds Examples.testConfig Examples.alice
           Examples.reapedThenSettled 6000); [simpl; lia|simpl; lia|reflexivity].
Defined.



(** ** The GC timer of the guard *)

Section GcFacts.

Lemma window_check_gc (cfg : RateLimitConfig) (now : Z) (u : jsstring)
    (l : SlidingWindowRateLimiter.t) :
  (SlidingWindowRateLimiter.check cfg now u (SlidingWindowRateLimiter.gc cfg now l)).1
  = (SlidingWindowRateLimiter.check cfg now u l).1.
Proof.
  destruct (gc_stores cfg now l) as [Hg Hs]. specialize (Hs u). unfold stored in Hs.
  unfold SlidingWindowRateLimiter.check. rewrite Hg, Hs.
  rewrite !prune_prune by lia.
  destruct (maxGlobalRequestsPerWindow cfg <=? _); [reflexivity|].
  destruct (maxRequestsPerWindow cfg <=? _); reflexivity.
Qed.

Lemma quota_check_gc (cfg : RateLimitConfig) (now : Z) (u : jsstring)
    (m : gmap jsstring QuotaInfo) :
  QuotaMonitor.check cfg now u (QuotaMonitor.gc now m) = QuotaMonitor.check cfg now u m.
Proof.
  unfold QuotaMonitor.check, QuotaMonitor.gc.
  destruct (filter _ m !! u) as [info|] eqn:Hf.
  - apply map_lookup_filter_Some in Hf as [-> _]. reflexivity.
  - apply map_lookup_filter_None in Hf as [->|Hf]; [reflexivity|].
    destruct (m !! u) as [info|] eqn:Hm; [|reflexivity].
    specialize (Hf info eq_refl). simpl in Hf.
    destruct (isUnlimited info); [reflexivity|].
    destruct (5 * 60 * 1000 <? now - lastUpdated info) eqn:Hage; [reflexivity|].
    exfalso. apply Hf. lia.
Qed.

(** X4.  A tick of the guard's GC timer never changes what an admission
    check at that moment answers: not the decision, not the reason, not
    the retry hint. *)
Theorem gc_keeps_admission (now : Z) (u : jsstring) (g : RateLimitGuard.t) :
  (RateLimitGuard.check now u (RateLimitGuard.gcTick now g)).1
  = (RateLimitGuard.check now u g).1.
Proof.
  unfold RateLimitGuard.check, RateLimitGuard.gcTick. cbn [RateLimitGuard.config
    RateLimitGuard.concurrency RateLimitGuard.rateLimit RateLimitGuard.quota].
  destruct (negb (allowed (ConcurrencyTracker.canAcquire _ _ u))); [reflexivity|].
  pose proof (window_check_gc (RateLimitGuard.config g) now u (RateLimitGuard.rateLimit g)) as Hw.
  destruct (SlidingWindowRateLimiter.check _ now u (SlidingWindowRateLimiter.gc _ _ _))
    as [r1 l1].
  destruct (SlidingWindowRateLimiter.check _ now u (RateLimitGuard.rateLimit g)) as [r2 l2].
  simpl in Hw. subst r2.
  destruct (negb (allowed r1)); [reflexivity|].
  rewrite quota_check_gc. 
  destruct (negb (allowed (QuotaMonitor.check _ now u _))); reflexivity.
Qed.

(** X5.  After a GC tick the limiter holds no timestamp outside the window
    and no identity without timestamps, and the quota monitor holds no
    record older than thirty minutes. *)
Theorem gc_leaves_nothing_old (now : Z) (g : RateLimitGuard.t) :
  let g' := RateLimitGuard.gcTick now g in
  let windowStart := now - rateLimitWindowMs (RateLimitGuard.config g) in
  (forall u ts, SlidingWindowRateLimiter.perUser (RateLimitGuard.rateLimit g') !! u = Some ts ->
     ts <> [] /\ Forall (fun t => windowStart < t) ts)
  /\ Forall (fun t => windowStart < t)
       (SlidingWindowRateLimiter.globalTimestamps (RateLimitGuard.rateLimit g'))
  /\ (forall u info, RateLimitGuard.quota g' !! u = Some info ->
        now - lastUpdated info <= 30 * 60 * 1000).
Proof.
  simpl. split; [|split].
  - intros u ts [Hf Hne]%map_lookup_filter_Some. simpl in Hne. split; [exact Hne|].
    rewrite lookup_fmap in Hf.
    destruct (SlidingWindowRateLimiter.perUser (RateLimitGuard.rateLimit g) !! u) as [ts0|];
      [|discriminate].
    simpl in Hf. injection Hf as <-. apply Forall_forall. intros t Ht.
    apply list_elem_of_In, filter_In in Ht as [_ Ht]. lia.
  - apply Forall_forall. intros t Ht.
    apply list_elem_of_In, filter_In in Ht as [_ Ht]. lia.
  - intros u info [_ Hf]%map_lookup_filter_Some. simpl in Hf. lia.
Qed.

End GcFacts.

(** ** Usage events *)

Section UsageFacts.

(** X6.  A usage event that reaches the quota monitor replaces the stored
    percentage, counters and unlimited flag by those of the event, or by the
    defaults 100, 0, -1 and false where the event has none under either
    name: what was stored before is never kept for them.  Only the reset
    date survives an event that has none. *)
Theorem usage_event_replaces_numbers (now : Z) (t : Task) (snap : UsageSnapshot) (e : Engine) :
  taskPc t = AwaitResponse ->
  QuotaMonitor.get (taskUserKey t)
    (RateLimitGuard.quota (rateLimitGuard (usageEvent now t snap e)))
  = Some {| remainingPercent :=
              default (100 # 1)
                (QuotaMonitor.nullish (remainingPercentage snap) (percent_remaining snap));
            usedRequests :=
              default 0 (QuotaMonitor.nullish (usUsedRequests snap) (remaining snap));
            entitlementRequests :=
              default (-1)
                (QuotaMonitor.nullish (usEntitlementRequests snap) (entitlement snap));
            isUnlimited :=
              default false
                (QuotaMonitor.nullish (isUnlimitedEntitlement snap) (unlimited snap));
            resetDate :=
              QuotaMonitor.nullish (usResetDate snap)
                (QuotaMonitor.get (taskUserKey t) (RateLimitGuard.quota (rateLimitGuard e))
                   ≫= resetDate);
            lastUpdated := now |}.
Proof.
  intros Hpc. unfold usageEvent. rewrite Hpc. simpl.
  unfold QuotaMonitor.get, QuotaMonitor.update. rewrite lookup_insert_eq. reflexivity.
Qed.

End UsageFacts.

Lemma usage_event_replaces_numbers_witness :
  QuotaMonitor.get Examples.alice
    (RateLimitGuard.quota
       (rateLimitGuard (usageEvent 1000 Examples.waitingTask Examples.countersOnly
                          Examples.lowQuotaEngine)))
  = Some {| remainingPercent := 100 # 1; usedRequests := 980;
            entitlementRequests := 1000; isUnlimited := false;
            resetDate := Some (js "2026-12-01"); lastUpdated := 1000 |}.
Proof.
  apply (usage_event_replaces_numbers 1000 Examples.waitingTask Examples.countersOnly
           Examples.lowQuotaEngine).
  reflexivity.
Defined.


(* ===================================================================== *)
(** * Further properties of the agent job engine *)
(* ===================================================================== *)

Section StoreFacts.

Lemma getJob_some (jobId : jsstring) (jobs : list AgentJob) (job : AgentJob) :
  getJob jobId jobs = Some job -> job ∈ jobs /\ id job = jobId.
Proof.
  unfold getJob. intros H. apply find_some in H as [Hin Heq].
  split; [by apply list_elem_of_In|]. by apply eqb_true.
Qed.

Lemma getJob_is_Some (jobId : jsstring) (jobs : list AgentJob) :
  is_Some (getJob jobId jobs) <-> jobId ∈ id <$> jobs.
Proof.
  unfold getJob. induction jobs as [|j jobs IH]; simpl.
  - split; [intros [x Hx]; discriminate|intros H; by apply elem_of_nil in H].
  - destruct (eqb (id j) jobId) eqn:Heq.
    + apply eqb_true in Heq. split; [intros _; apply elem_of_cons; by left|by eexists].
    + rewrite IH, elem_of_cons. split; [by right|]. intros [->|H]; [|exact H].
      rewrite eqb_refl in Heq. discriminate.
Qed.

Lemma mutateJob_ids (jobId : jsstring) (f : AgentJob -> AgentJob) (jobs : list AgentJob) :
  (forall j, id (f j) = id j) -> id <$> mutateJob jobId f jobs = id <$> jobs.
Proof.
  intros Hf. unfold mutateJob. rewrite <- list_fmap_compose. apply list_fmap_ext.
  intros i j _. simpl. destruct (eqb (id j) jobId); [apply Hf|reflexivity].
Qed.

Lemma setJob_ids (job : AgentJob) (jobs : list AgentJob) (j : jsstring) :
  j ∈ id <$> setJob job jobs <-> j = id job \/ j ∈ id <$> jobs.
Proof.
  unfold setJob. destruct (getJob (id job) jobs) as [old|] eqn:Hget.
  - assert (id <$> ((fun j0 => if eqb (id j0) (id job) then job else j0) <$> jobs)
            = id <$> jobs) as ->.
    { rewrite <- list_fmap_compose. apply list_fmap_ext. intros i j0 _. simpl.
      destruct (eqb (id j0) (id job)) eqn:Heq; [|reflexivity].
      apply eqb_true in Heq. congruence. }
    split; [by right|]. intros [->|H]; [|exact H].
    apply getJob_is_Some. by eexists.
  - rewrite fmap_app, elem_of_app. simpl. rewrite list_elem_of_singleton. tauto.
Qed.

Lemma reapJob_ids (now : Z) (e : Engine) (jobId : jsstring) :
  id <$> agentJobs (reapJob now e jobId) = id <$> agentJobs e.
Proof.
  unfold reapJob. destruct (getJob jobId (agentJobs e)); [|reflexivity].
  simpl. by apply mutateJob_ids.
Qed.

Lemma resumeTask_ids (now : Z) (t : Task) (r : Resume) (e : Engine) :
  id <$> agentJobs (resumeTask now t r e) = id <$> agentJobs e.
Proof.
  unfold resumeTask, failAndSettle.
  destruct (taskPc t) as [| | |[msg|]|], r; simpl;
    try reflexivity; by apply mutateJob_ids.
Qed.

Lemma step_ids (e : Engine) (ev : Z * Event) (j : jsstring) :
  j ∈ id <$> agentJobs e -> j ∈ id <$> agentJobs (step e ev).
Proof.
  intros Hj. destruct ev as [now ev]. unfold step. cbn [fst snd].
  destruct ev as [jobId request cfg copilotToken|jobId r|jobId snap| |].
  - unfold startAgent.
    destruct (RateLimitGuard.check now _ (rateLimitGuard e)) as [gate g].
    destruct (negb (allowed gate)); [exact Hj|].
    destruct (negb (bool_decide (_ ∈ allowedModels cfg))); [exact Hj|].
    cbn [snd agentJobs]. apply setJob_ids. by right.
  - destruct (findTask jobId e); [|exact Hj]. by rewrite resumeTask_ids.
  - destruct (findTask jobId e) as [t|]; [|exact Hj].
    unfold usageEvent. destruct (taskPc t); exact Hj.
  - unfold reaperTick.
    generalize (findStaleJobs now (asCandidate <$> agentJobs e)
                  (staleJobTimeoutMs (RateLimitGuard.config (rateLimitGuard e)))).
    intros ids. revert e Hj. induction ids as [|i ids IH]; intros e Hj; [exact Hj|].
    simpl. apply IH. by rewrite reapJob_ids.
  - exact Hj.
Qed.

(** X7.  The job store never loses a job: an id for which [getAgentStatus]
    has an answer has one after any further events (the reaper marks jobs
    as failed and leaves them in the store). *)
Theorem jobs_are_never_dropped (e : Engine) (trace : list (Z * Event)) (jobId : jsstring) :
  is_Some (getAgentStatus jobId e) -> is_Some (getAgentStatus jobId (run e trace)).
Proof.
  unfold getAgentStatus. rewrite !getJob_is_Some. revert e.
  induction trace as [|ev trace IH]; intros e Hj; [exact Hj|].
  unfold run. simpl. apply IH. by apply step_ids.
Qed.

(** ** The reaper *)

Lemma reapJob_jobs (now : Z) (e : Engine) (jobId : jsstring) (job' : AgentJob) :
  job' ∈ agentJobs (reapJob now e jobId) ->
  status job' = Failed \/ (job' ∈ agentJobs e /\ id job' <> jobId).
Proof.
  unfold reapJob. destruct (getJob jobId (agentJobs e)) as [job|] eqn:Hget.
  - simpl. unfold mutateJob. intros (j & -> & Hj)%list_elem_of_fmap.
    destruct (eqb (id j) jobId) eqn:Heq; [by left|]. right. split; [exact Hj|].
    intros Hx. apply eqb_true in Hx. congruence.
  - intros Hj. right. split; [exact Hj|]. intros Hid.
    unfold getJob in Hget. apply list_elem_of_In in Hj.
    pose proof (find_none _ _ Hget _ Hj) as Hx. simpl in Hx.
    rewrite Hid, eqb_refl in Hx. discriminate.
Qed.

Lemma reapJob_failed (now : Z) (e : Engine) (jobId : jsstring) (job' : AgentJob) :
  job' ∈ agentJobs (reapJob now e jobId) ->
  status job' = Failed \/ job' ∈ agentJobs e.
Proof. intros [H|[H _]]%reapJob_jobs; [by left|by right]. Qed.

Lemma reapJobs_jobs (now : Z) (ids : list jsstring) (e : Engine) (job' : AgentJob) :
  job' ∈ agentJobs (foldl (reapJob now) e ids) ->
  status job' = Failed \/ (job' ∈ agentJobs e /\ id job' ∉ ids).
Proof.
  revert e. induction ids as [|i ids IH]; intros e Hj; simpl in Hj.
  - right. split; [exact Hj|]. apply not_elem_of_nil.
  - apply IH in Hj as [Hf|[Hj Hnotin]]; [by left|].
    apply reapJob_jobs in Hj as [Hf|[Hj Hne]]; [by left|].
    right. split; [exact Hj|]. intros [Heq|Hin]%elem_of_cons; contradiction.
Qed.

(** X8.  After a tick of the reaper no job of the store is stale: none is
    still processing and older than the timeout. *)
Theorem reaper_leaves_no_stale_job (now : Z) (e : Engine) :
  Forall (fun job =>
            isStale now (staleJobTimeoutMs (RateLimitGuard.config (rateLimitGuard e)))
                    (asCandidate job) = false)
         (agentJobs (reaperTick now e)).
Proof.
  apply Forall_forall. intros job' Hj. unfold reaperTick in Hj.
  apply reapJobs_jobs in Hj as [Hf|[Hj Hnotin]].
  - unfold isStale, asCandidate. simpl. rewrite Hf. reflexivity.
  - destruct (isStale now _ (asCandidate job')) eqn:Hstale; [|reflexivity].
    exfalso. apply Hnotin. unfold findStaleJobs.
    change (id job') with (candId (asCandidate job')).
    apply list_elem_of_fmap_2. apply list_elem_of_In, filter_In. split; [|exact Hstale].
    apply list_elem_of_In. by apply list_elem_of_fmap_2.
Qed.

(** ** An accepted start *)

Lemma getJob_setJob (job : AgentJob) (jobs : list AgentJob) :
  getJob (id job) (setJob job jobs) = Some job.
Proof.
  unfold setJob. destruct (getJob (id job) jobs) as [old|] eqn:Hget.
  - unfold getJob in *. induction jobs as [|j jobs IH]; simpl in *; [discriminate|].
    destruct (eqb (id j) (id job)) eqn:Heq; simpl.
    + rewrite eqb_refl. reflexivity.
    + rewrite Heq. by apply IH.
  - unfold getJob in *. induction jobs as [|j jobs IH]; simpl in *.
    + rewrite eqb_refl. reflexivity.
    + destruct (eqb (id j) (id job)) eqn:Heq; [discriminate|]. by apply IH.
Qed.

(** X9.  A start that is answered [processing] has stored the job, which
    [getAgentStatus] returns as processing, created at the time of the
    call and owned by the caller's identity; it has taken one slot, globally
    and for that identity, and it has launched the task of the job. *)
Theorem accepted_start_is_stored (now : Z) (jobId : jsstring) (request : AgentJobRequest)
    (cfg : AgentConfig) (copilotToken : option jsstring) (e : Engine) :
  let userKey := orElse copilotToken (js "__server__") in
  let r := startAgent now jobId request cfg copilotToken e in
  srStatus r.1 = js "processing" ->
  getAgentStatus jobId r.2
  = Some {| id := jobId; status := Processing; jobPrompt := prompt request;
            createdAt := now; completedAt := None; result := None;
            CopilotAgent.error := None;
            progress := Some (js "Initializing Copilot SDK agent...");
            _userKey := Some userKey |}
  /\ ConcurrencyTracker.globalActive (RateLimitGuard.concurrency (rateLimitGuard r.2))
     = ConcurrencyTracker.globalActive (RateLimitGuard.concurrency (rateLimitGuard e)) + 1
  /\ ConcurrencyTracker.userCount (RateLimitGuard.concurrency (rateLimitGuard r.2)) userKey
     = ConcurrencyTracker.userCount (RateLimitGuard.concurrency (rateLimitGuard e)) userKey
       + 1
  /\ findTask jobId r.2 <> None.
Proof.
  cbv zeta. unfold startAgent.
  pose proof (guardCheck_frame now (orElse copilotToken (js "__server__"))
                (rateLimitGuard e)) as (Hc & _ & _).
  destruct (RateLimitGuard.check now _ (rateLimitGuard e)) as [gate g].
  cbn [fst snd] in *.
  destruct (negb (allowed gate)); cbn [fst snd srStatus]; [intros H; discriminate H|].
  destruct (negb (bool_decide (_ ∈ allowedModels cfg))); cbn [fst snd srStatus];
    [intros H; discriminate H|].
  intros _. split; [|split; [|split]].
  - unfold getAgentStatus. cbn [agentJobs].
    apply (getJob_setJob {| id := jobId; status := Processing; jobPrompt := prompt request;
            createdAt := now; completedAt := None; result := None;
            CopilotAgent.error := None;
            progress := Some (js "Initializing Copilot SDK agent...");
            _userKey := Some (orElse copilotToken (js "__server__")) |}).
  - cbn [rateLimitGuard RateLimitGuard.acquire RateLimitGuard.concurrency
         ConcurrencyTracker.acquire ConcurrencyTracker.globalActive]. rewrite Hc. reflexivity.
  - cbn [rateLimitGuard RateLimitGuard.acquire RateLimitGuard.concurrency].
    unfold ConcurrencyTracker.userCount at 1. cbn [ConcurrencyTracker.acquire
      ConcurrencyTracker.perUser]. rewrite lookup_insert_eq, Hc. reflexivity.
  - unfold findTask. cbn [tasks]. intros Hnone.
    pose proof (find_none _ _ Hnone) as Hall.
    specialize (Hall {| taskJob := jobId;
                        taskUserKey := orElse copilotToken (js "__server__");
                        taskModel := orElse (model request) (defaultModel cfg);
                        taskPc := AwaitClient |}).
    cbn [taskJob] in Hall. rewrite eqb_refl in Hall.
    assert (true = false) as Hx; [|discriminate Hx].
    apply Hall. apply in_or_app. right. by left.
Qed.

End StoreFacts.

Lemma jobs_are_never_dropped_witness :
  is_Some (getAgentStatus (js "job-1")
             (run Examples.busyEngine [(5500, ReaperTick); (60000, GuardGc)])).
Proof.
  apply (jobs_are_never_dropped Examples.busyEngine
           [(5500, ReaperTick); (60000, GuardGc)] (js "job-1")).
  vm_compute. eexists. reflexivity.
Defined.

Lemma accepted_start_is_stored_witness :
  status <$> getAgentStatus (js "job-1")
               (startAgent 0 (js "job-1") (Examples.request None) Examples.agentConfig
                  (Some Examples.alice) (newEngine Examples.testConfig)).2
  = Some Processing
  /\ ConcurrencyTracker.userCount
       (RateLimitGuard.concurrency
          (rateLimitGuard
             (startAgent 0 (js "job-1") (Examples.request None) Examples.agentConfig
                (Some Examples.alice) (newEngine Examples.testConfig)).2))
       Examples.alice
     = 1.
Proof.
  destruct (accepted_start_is_stored 0 (js "job-1") (Examples.request None)
              Examples.agentConfig (Some Examples.alice)
              (newEngine Examples.testConfig) eq_refl) as (Hjob & _ & Huser & _).
  split; [rewrite Hjob; reflexivity|exact Huser].
Defined.

Lemma released_once_without_reaper_witness :
  withoutReaper Examples.settledQuietly = true
  /\ freshIds [] Examples.settledQuietly = true
  /\ forall t, t ∈ tasks (run (newEngine Examples.testConfig) Examples.settledQuietly) ->
       releaseCount (taskJob t) (run (newEngine Examples.testConfig) Examples.settledQuietly)
       = if isSettled (taskPc t) then 1%nat else 0%nat.
Proof.
  split; [reflexivity|]. split; [reflexivity|].
  apply (released_once_without_reaper Examples.testConfig Examples.settledQuietly);
    reflexivity.
Defined.

(* ===================================================================== *)
(** * Further properties of the scraper and of the tool dispatch *)
(* ===================================================================== *)

Section MoreDispatchFacts.
Context {L : Libs}.
Variable engine : EngineRequest -> JsError + JsValue.
Variable fetch : jsstring -> list (jsstring * jsstring) -> FetchOutcome.

Lemma entry_setEntry {A} (k k' : jsstring) (v : A) (obj : list (jsstring * A)) :
  entry k' (setEntry k v obj) = if eqb k k' then Some v else entry k' obj.
Proof.
  unfold entry. induction obj as [|[k0 v0] obj IH]; simpl.
  - destruct (eqb k k'); reflexivity.
  - destruct (eqb k0 k) eqn:H0; simpl.
    + apply eqb_true in H0 as ->. destruct (eqb k k'); reflexivity.
    + destruct (eqb k0 k') eqn:H1; simpl.
      * apply eqb_true in H1 as ->. rewrite (eqb_neq k k'); [reflexivity|].
        intros ->. rewrite eqb_refl in H0. discriminate.
      * exact IH.
Qed.




End MoreDispatchFacts.


Section MoreDetectorFacts.
Context {L : Libs}.

(** X12.  What the detector lets pass.  When it returns null the visible
    text has at least 50 code units (a near-empty body is always reported);
    under 500 code units it holds none of the loading phrases; under 200
    there is no SPA root container with short content; and the page is not
    script-heavy. *)
Theorem detector_null_excludes (rawHtml bodyText : jsstring) (doc : Dom) :
  detectSPASkeleton rawHtml bodyText doc = None ->
  (50 <= length (visibleText doc))%nat
  /\ ((length (visibleText doc) < 500)%nat ->
      firstPattern (toLowerCase (visibleText doc)) = None)
  /\ ((length (visibleText doc) < MIN_MEANINGFUL_TEXT_LENGTH)%nat ->
      firstRootContainer doc SPA_ROOT_SELECTORS = None)
  /\ scriptHeavy rawHtml doc (visibleText doc) = None.
Proof.
  unfold detectSPASkeleton, shortPageOrScriptHeavy.
  destruct (length (visibleText doc) <? MIN_MEANINGFUL_TEXT_LENGTH)%nat eqn:H200.
  - apply Nat.ltb_lt in H200. unfold MIN_MEANINGFUL_TEXT_LENGTH in H200.
    assert ((length (visibleText doc) <? 500)%nat = true) as H500 by (apply Nat.ltb_lt; lia).
    rewrite H500.
    destruct (firstRootContainer doc SPA_ROOT_SELECTORS) as [[sel n]|]; [discriminate|].
    destruct (firstPattern _) as [pattern|]; [discriminate|].
    destruct (length (visibleText doc) <? 50)%nat eqn:H50; [discriminate|].
    apply Nat.ltb_ge in H50. intros Hs. repeat split; auto.
  - apply Nat.ltb_ge in H200. unfold MIN_MEANINGFUL_TEXT_LENGTH in *.
    destruct (length (visibleText doc) <? 500)%nat eqn:H500.
    + destruct (firstPattern _) as [pattern|]; [discriminate|].
      intros Hs. repeat split; auto; lia.
    + apply Nat.ltb_ge in H500. intros Hs. repeat split; auto; lia.
Qed.

End MoreDetectorFacts.

Lemma detector_null_excludes_witness :
  (50 <= length (@visibleText Examples.pageLibs Examples.articlePage))%nat
  /\ ((length (@visibleText Examples.pageLibs Examples.articlePage) < 500)%nat ->
      firstPattern (@toLowerCase Examples.pageLibs
                      (@visibleText Examples.pageLibs Examples.articlePage)) = None)
  /\ ((length (@visibleText Examples.pageLibs Examples.articlePage)
       < MIN_MEANINGFUL_TEXT_LENGTH)%nat ->
      @firstRootContainer Examples.pageLibs Examples.articlePage SPA_ROOT_SELECTORS = None)
  /\ @scriptHeavy Examples.pageLibs Examples.articlePage Examples.articlePage
       (@visibleText Examples.pageLibs Examples.articlePage) = None.
Proof.
  apply (@detector_null_excludes Examples.pageLibs Examples.articlePage [] Examples.articlePage).
  vm_compute. reflexivity.
Defined.

Section HeaderFacts.

Lemma entry_foldl_setEntry {A} (k : jsstring) (extra base : list (jsstring * A)) :
  entry k (foldl (fun acc kv => setEntry kv.1 kv.2 acc) base extra)
  = match entry k (rev extra) with
    | Some v => Some v
    | None => entry k base
    end.
Proof.
  induction extra as [|[k0 v0] extra IH] using rev_ind; [reflexivity|].
  rewrite foldl_app, rev_app_distr. cbn [foldl rev app fst snd].
  rewrite entry_setEntry, IH. unfold entry at 3. cbn [find fst snd].
  destruct (eqb k0 k); reflexivity.
Qed.

(** X13.  The headers of the request: a header that the caller supplies is
    sent with the caller's value (the last one, if the name is given more
    than once), and each default header that the caller does not name is
    sent as it is. *)
Theorem caller_headers_override (opts : ScrapeOptions) (name : jsstring) :
  entry name (requestHeaders opts)
  = match entry name (rev (headers opts)) with
    | Some v => Some v
    | None => entry name defaultHeaders
    end.
Proof. apply entry_foldl_setEntry. Qed.

End HeaderFacts.

Section EnvFacts.
Context {L : Libs}.

(** X14.  [process.env] after a local scrape.  Without
    [skipTlsVerification] it is what it was.  With it, once [fetch] has
    returned, [NODE_TLS_REJECT_UNAUTHORIZED] is deleted: a value that the
    variable had before the call is not put back. *)
Theorem tls_flag_deleted_after_fetch
    (fetch : jsstring -> list (jsstring * jsstring) -> FetchOutcome)
    (requestUrl : jsstring) (opts : ScrapeOptions) (env : ProcessEnv) :
  (skipTlsVerification opts = false ->
   (localScrape fetch requestUrl opts env).2 = env)
  /\ (skipTlsVerification opts = true ->
      existsb needsServer
        (formatName <$> default [FString (js "markdown")] (formats opts)) = false ->
      forall response, fetch requestUrl (requestHeaders opts) = FetchReturns response ->
      (localScrape fetch requestUrl opts env).2 = setTlsFlag None env).
Proof.
  unfold localScrape. split.
  - intros Hskip. rewrite Hskip.
    destruct (existsb needsServer _); [reflexivity|].
    destruct (fetch requestUrl (requestHeaders opts)) as [err|response]; [reflexivity|].
    destruct (respText response); reflexivity.
  - intros Hskip Hfmt response Hfetch. rewrite Hskip, Hfmt, Hfetch.
    destruct (respText response); reflexivity.
Qed.

End EnvFacts.

(* ===================================================================== *)
(** * The error hook and the configuration from the environment *)
(* ===================================================================== *)

Section HookFacts.
Variable toLowerCase : jsstring -> jsstring.

(** X15.  The decisions of the error hook.  It retries exactly when the
    lowercased error text holds none of the six abort patterns and the
    error is a recoverable one of a model call, and then twice; it skips
    exactly when the text holds none of the patterns and the error comes
    from a tool execution (a model-call error that is not recoverable is
    not skipped); in every other case it aborts. *)
Theorem error_hook_decision (input : ErrorInput) :
  let out := buildErrorHook toLowerCase input in
  let clean := forallb (fun p => negb (includes p (toLowerCase (inputError input))))
                       abortPatterns in
  (errorHandling out = DoRetry
   <-> clean = true /\ errorContext input = ModelCall /\ recoverable input = true)
  /\ (errorHandling out = DoSkip
      <-> clean = true /\ errorContext input = ToolExecution)
  /\ retryCount out = (if bool_decide (errorHandling out = DoRetry) then Some 2 else None).
Proof.
  cbv zeta. unfold buildErrorHook, abortPatterns. cbn [forallb].
  destruct (includes (js "quota") _); cbn [negb andb orb];
    [repeat split; try discriminate; intros [H _]; discriminate H|].
  destruct (includes (js "402") _); cbn [negb andb orb];
    [repeat split; try discriminate; intros [H _]; discriminate H|].
  destruct (includes (js "not licensed") _); cbn [negb andb orb];
    [repeat split; try discriminate; intros [H _]; discriminate H|].
  destruct (includes (js "authentication") _); cbn [negb andb orb];
    [repeat split; try discriminate; intros [H _]; discriminate H|].
  destruct (includes (js "rate limit") _); cbn [negb andb orb];
    [repeat split; try discriminate; intros [H _]; discriminate H|].
  destruct (includes (js "429") _); cbn [negb andb orb];
    [repeat split; try discriminate; intros [H _]; discriminate H|].
  destruct (errorContext input), (recoverable input); cbn; repeat split;
    try discriminate; try reflexivity; try (intros (_ & H & _); discriminate H);
    try (intros (_ & _ & H); discriminate H); try (intros (_ & H); discriminate H).
Qed.

End HookFacts.

(** ** Trimming *)

Section TrimFacts.

Lemma trimStart_head (s : jsstring) (c : N) :
  head (trimStart s) = Some c -> isWhiteSpace c = false.
Proof.
  induction s as [|a s IH]; simpl; [discriminate|].
  destruct (isWhiteSpace a) eqn:Ha; [exact IH|]. simpl. intros [= <-]. exact Ha.
Qed.

Lemma trimStart_suffix (s : jsstring) : trimStart s `suffix_of` s.
Proof.
  induction s as [|a s IH]; simpl; [reflexivity|].
  destruct (isWhiteSpace a); [by apply suffix_cons_r|reflexivity].
Qed.

Lemma trimEnd_prefix (s : jsstring) : trimEnd s `prefix_of` s.
Proof.
  unfold trimEnd. destruct (trimStart_suffix (rev s)) as [k Hk].
  exists (rev k). apply (f_equal (@rev N)) in Hk. rewrite rev_involutive, rev_app_distr in Hk.
  exact Hk.
Qed.

Lemma last_of_rev {A} (l : list A) : last (rev l) = head l.
Proof. destruct l as [|a l]; [reflexivity|]. simpl. by rewrite last_snoc. Qed.

Lemma trimEnd_last (s : jsstring) (c : N) :
  last (trimEnd s) = Some c -> isWhiteSpace c = false.
Proof. unfold trimEnd. rewrite last_of_rev. apply trimStart_head. Qed.

Lemma trimStart_id (s : jsstring) :
  (forall c, head s = Some c -> isWhiteSpace c = false) -> trimStart s = s.
Proof.
  destruct s as [|a s]; [reflexivity|]. simpl. intros H. by rewrite (H a eq_refl).
Qed.

Lemma trim_trimmed (s : jsstring) : trimmed (trim s).
Proof.
  unfold trim. split; [|apply trimEnd_last].
  intros c Hc. destruct (trimEnd_prefix (trimStart s)) as [k Hk].
  apply (trimStart_head s). rewrite Hk.
  destruct (trimEnd (trimStart s)); [discriminate|exact Hc].
Qed.

Lemma trimmed_trim (s : jsstring) : trimmed s -> trim s = s.
Proof.
  intros [Hh Hl]. unfold trim. rewrite (trimStart_id s Hh). unfold trimEnd.
  rewrite trimStart_id; [apply rev_involutive|].
  intros c Hc. apply Hl. rewrite <- (rev_involutive s), last_of_rev. exact Hc.
Qed.

End TrimFacts.

Section ModelFacts.

Lemma parseAllowedModels_nonempty (env : AgentEnv) :
  Forall (fun m => m <> []) (parseAllowedModels env).
Proof.
  unfold parseAllowedModels.
  destruct (COPILOT_AGENT_MODELS env) as [[|c r]|];
    try (unfold DEFAULT_MODELS; repeat constructor; discriminate).
  apply Forall_forall. intros m Hm.
  apply list_elem_of_In, filter_In in Hm as [_ Hne].
  intros Hempty. rewrite Hempty in Hne. discriminate.
Qed.

(** X16.  Every allowed model that [parseAllowedModels] returns is a
    non-empty name without white space at either end, whatever the value of
    COPILOT_AGENT_MODELS. *)
Theorem allowed_models_are_trimmed (env : AgentEnv) :
  Forall (fun m => m <> [] /\ trimmed m /\ trim m = m) (parseAllowedModels env).
Proof.
  unfold parseAllowedModels.
  destruct (COPILOT_AGENT_MODELS env) as [[|c r]|].
  - unfold DEFAULT_MODELS. repeat constructor; try discriminate;
      intros a [= <-]; reflexivity.
  - apply Forall_forall. intros m Hm.
    apply list_elem_of_In, filter_In in Hm as [Hm Hne].
    apply list_elem_of_In, list_elem_of_fmap in Hm as (piece & -> & _).
    split; [|split].
    + intros Hempty. rewrite Hempty in Hne. discriminate.
    + apply trim_trimmed.
    + apply trimmed_trim, trim_trimmed.
  - unfold DEFAULT_MODELS. repeat constructor; try discriminate;
      intros a [= <-]; reflexivity.
Qed.

(** X17.  When COPILOT_AGENT_DEFAULT_MODEL is not set, the default model of
    [buildAgentConfig] is the first allowed model, so it is allowed, unless
    COPILOT_AGENT_MODELS names no model at all (then the allowed list is
    empty and the default [gpt-4.1] is not in it). *)
Theorem default_model_is_allowed (models : option jsstring) :
  let cfg := buildAgentConfig {| COPILOT_AGENT_MODELS := models;
                                 COPILOT_AGENT_DEFAULT_MODEL := None |} in
  (allowedModels cfg = [] /\ defaultModel cfg = js "gpt-4.1")
  \/ head (allowedModels cfg) = Some (defaultModel cfg).
Proof.
  cbv zeta. unfold buildAgentConfig, getDefaultModel. cbn [allowedModels defaultModel
    COPILOT_AGENT_DEFAULT_MODEL].
  pose proof (parseAllowedModels_nonempty
                {| COPILOT_AGENT_MODELS := models; COPILOT_AGENT_DEFAULT_MODEL := None |}) as H.
  destruct (parseAllowedModels _) as [|m rest]; [left; split; reflexivity|]. right.
  apply Forall_cons in H as [Hne _]. cbn [head].
  destruct m as [|c r]; [contradiction|]. reflexivity.
Qed.

End ModelFacts.

Section EnvIntFacts.

Lemma uintValue_acc (d : Decimal.uint) (acc : positive) :
  Z.pos (Pos.of_uint_acc d acc) = uintValue (Z.pos acc) d.
Proof.
  revert acc. induction d; intros acc; simpl; try reflexivity; rewrite IHd; f_equal; lia.
Qed.

Lemma uintValue_of_uint (d : Decimal.uint) : Z.of_N (Pos.of_uint d) = uintValue 0 d.
Proof.
  induction d; simpl; try reflexivity; try exact IHd; apply uintValue_acc.
Qed.

Lemma digitsValue_numeral (d : Decimal.uint) (acc : Z) (junk : jsstring) :
  (forall c, head junk = Some c -> digitOf c = None) ->
  digitsValue acc (js (NilEmpty.string_of_uint d) ++ junk) = uintValue acc d.
Proof.
  intros Hjunk. revert acc. induction d; intros acc; simpl; try apply IHd.
  destruct junk as [|c r]; [reflexivity|]. simpl. by rewrite (Hjunk c eq_refl).
Qed.

Lemma numeral_head (d : Decimal.uint) :
  d <> Decimal.Nil ->
  exists c r, js (NilEmpty.string_of_uint d) = c :: r
              /\ digitOf c <> None /\ isWhiteSpace c = false
              /\ c <> 45%N /\ c <> 43%N.
Proof.
  intros Hd. destruct d; [contradiction| | | | | | | | | |]; simpl;
    eexists _, _; (split; [reflexivity|]); repeat split; discriminate.
Qed.

Lemma parseInt10_numeral (p : positive) (junk : jsstring) :
  (forall c, head junk = Some c -> digitOf c = None) ->
  parseInt10 (js (NilEmpty.string_of_uint (Pos.to_uint p)) ++ junk) = Some (Z.pos p)
  /\ parseInt10 (45%N :: js (NilEmpty.string_of_uint (Pos.to_uint p)) ++ junk)
     = Some (Z.neg p).
Proof.
  intros Hjunk.
  pose proof (digitsValue_numeral (Pos.to_uint p) 0 junk Hjunk) as Hv.
  rewrite <- uintValue_of_uint, DecimalPos.Unsigned.of_to in Hv. simpl in Hv.
  destruct (numeral_head (Pos.to_uint p) (DecimalPos.Unsigned.to_uint_nonnil p))
    as (c & r & Hs & Hdigit & Hws & Hminus & Hplus).
  rewrite Hs in *. unfold parseInt10. split.
  - cbn [app trimStart]. rewrite Hws.
    destruct c as [|c]; [exfalso; by apply Hdigit|].
    destruct (digitOf (N.pos c)) eqn:Hd; [|contradiction].
    assert ((match N.pos c :: r ++ junk with
             | 45%N :: r0 => (true, r0)
             | 43%N :: r0 => (false, r0)
             | _ => (false, N.pos c :: r ++ junk)
             end) = (false, N.pos c :: r ++ junk)) as ->.
    { do 6 (destruct c as [c|c|]; try reflexivity); contradiction. }
    rewrite Hd. cbn [app] in Hv. rewrite Hv. reflexivity.
  - cbn [app trimStart isWhiteSpace]. 
    change (isWhiteSpace 45%N) with false. cbn iota.
    destruct (digitOf c) eqn:Hd; [|contradiction].
    cbn [app] in Hv. rewrite Hv. reflexivity.
Qed.

(** X18.  [envInt] reads back what [String] prints: a variable whose value
    is the decimal numeral of an integer (below 2^53 in absolute value, so
    that the double is exact), negative ones included, gives that integer,
    also when the numeral is followed by text that does not start with a
    digit.  The fallback is not used. *)
Theorem envInt_reads_back (z fallback : Z) (junk : jsstring) :
  Z.abs z < 2 ^ 53 ->
  (forall c, head junk = Some c -> digitOf c = None) ->
  envInt (Some (showInt z ++ junk)) fallback = z.
Proof.
  intros _ Hjunk. unfold envInt, showInt. destruct z as [|p|p]; cbn [Z.to_int NilZero.string_of_int].
  - unfold parseInt10. cbn [NilZero.string_of_uint js app trimStart].
    change (isWhiteSpace (N_of_ascii "0")) with false. cbn iota.
    change (N_of_ascii "0") with 48%N. cbn [digitOf]. simpl.
    destruct junk as [|c r]; [reflexivity|]. simpl. rewrite (Hjunk c eq_refl). reflexivity.
  - assert (NilZero.string_of_uint (Pos.to_uint p) = NilEmpty.string_of_uint (Pos.to_uint p)) as ->.
    { pose proof (DecimalPos.Unsigned.to_uint_nonnil p). destruct (Pos.to_uint p); [contradiction|..]; reflexivity. }
    destruct (parseInt10_numeral p junk Hjunk) as [-> _]. reflexivity.
  - assert (NilZero.string_of_uint (Pos.to_uint p) = NilEmpty.string_of_uint (Pos.to_uint p)) as ->.
    { pose proof (DecimalPos.Unsigned.to_uint_nonnil p). destruct (Pos.to_uint p); [contradiction|..]; reflexivity. }
    change (js (String "-" ?s)) with (45%N :: js s).
    destruct (parseInt10_numeral p junk Hjunk) as [_ Hneg].
    cbn [app]. rewrite Hneg. reflexivity.
Qed.

End EnvIntFacts.

Lemma envInt_reads_back_witness :
  envInt (Some (showInt (-20) ++ js " requests")) 10 = -20.
Proof.
  apply (envInt_reads_back (-20) 10 (js " requests")); [reflexivity|].
  intros c [= <-]. reflexivity.
Defined.

(* ===================================================================== *)
(** * Properties of the response processing *)
(* ===================================================================== *)

Section TruncationFacts.
Import ResponseUtils.

Lemma slice0_prefix (e : Z) (s : jsstring) : slice0 e s `prefix_of` s.
Proof. unfold slice0. apply prefix_take. Qed.

Lemma slice0_length (e : Z) (s : jsstring) :
  0 <= e -> Z.of_nat (length (slice0 e s)) <= e.
Proof.
  intros He. unfold slice0. destruct (e <? 0) eqn:Hneg; [lia|].
  rewrite length_take. lia.
Qed.

(** X19.  [truncateString] with a limit of at least three returns at most
    [maxLen] code units: the string itself when it fits, and otherwise its
    first [maxLen - 3] code units followed by three dots. *)
Theorem truncateString_fits (s : jsstring) (maxLen : Z) :
  3 <= maxLen ->
  Z.of_nat (length (truncateString s maxLen)) <= maxLen
  /\ (Z.of_nat (length s) <= maxLen -> truncateString s maxLen = s)
  /\ (maxLen < Z.of_nat (length s) ->
      truncateString s maxLen = take (Z.to_nat (maxLen - 3)) s ++ js "...").
Proof.
  intros Hmax. unfold truncateString.
  destruct (Z.of_nat (length s) <=? maxLen) eqn:Hle.
  - split; [lia|]. split; [reflexivity|lia].
  - split; [|split; [lia|]].
    + rewrite length_app. pose proof (slice0_length (maxLen - 3) s).
      change (length (js "...")) with 3%nat. lia.
    + intros _. unfold slice0. destruct (maxLen - 3 <? 0) eqn:Hneg; [lia|reflexivity].
Qed.

Lemma startsWith_length (p s : jsstring) :
  startsWith p s = true -> (length p <= length s)%nat.
Proof.
  revert s. induction p as [|a p IH]; intros s; simpl; [lia|].
  destruct s as [|b s]; [discriminate|]. intros [_ H]%andb_true_iff.
  specialize (IH s H). simpl. lia.
Qed.

Lemma lastIndexOf_range (p s : jsstring) :
  lastIndexOf p s = -1
  \/ (0 <= lastIndexOf p s
      /\ lastIndexOf p s + Z.of_nat (length p) <= Z.of_nat (length s)).
Proof.
  induction s as [|c s IH]; cbn [lastIndexOf].
  - destruct (startsWith p []) eqn:Hp; [|by left]. right.
    apply startsWith_length in Hp. simpl in *. lia.
  - destruct (0 <=? lastIndexOf p s) eqn:Hlater.
    + right. destruct IH as [IH|IH]; [lia|]. cbn [length]. lia.
    + destruct (startsWith p (c :: s)) eqn:Hp; [|by left]. right.
      apply startsWith_length in Hp. lia.
Qed.

Lemma roundToDouble_nonneg (p : Z) : 0 <= p -> 0 <= roundToDouble p.
Proof.
  intros Hp. unfold roundToDouble. destruct (Z.log2 p - 52 <=? 0) eqn:Hs; [exact Hp|].
  apply Z.mul_nonneg_nonneg; [|apply Z.pow_nonneg; lia].
  assert (0 <= p / 2 ^ (Z.log2 p - 52)) by (apply Z.div_pos; [lia|apply Z.pow_pos_nonneg; lia]).
  destruct (_ || _); lia.
Qed.

Lemma floorTimes0_7_nonneg (n : Z) : 0 <= n -> 0 <= floorTimes0_7 n.
Proof.
  intros Hn. unfold floorTimes0_7. destruct (n <? 0) eqn:Hneg; [lia|].
  apply Z.div_pos; [|lia]. apply roundToDouble_nonneg. unfold DOUBLE_0_7. lia.
Qed.

(** Where [truncateAtBoundary] cuts a text that is too long. *)
Lemma breakPoint_range (content : jsstring) (maxChars : Z) :
  0 <= maxChars -> maxChars < Z.of_nat (length content) ->
  exists breakPoint,
    0 <= breakPoint <= maxChars
    /\ ResponseUtils.text (truncateAtBoundary content maxChars)
       = trimEnd (take (Z.to_nat breakPoint) content).
Proof.
  intros Hmax Hlong. unfold truncateAtBoundary.
  destruct (Z.of_nat (length content) <=? maxChars) eqn:Hle; [lia|].
  cbn [ResponseUtils.text].
  pose proof (floorTimes0_7_nonneg maxChars Hmax) as Hmin.
  pose proof (slice0_length maxChars content Hmax) as Hwin.
  set (w := slice0 maxChars content) in *.
  set (minBreak := floorTimes0_7 maxChars) in *.
  assert (forall b, 0 <= b -> slice0 b content = take (Z.to_nat b) content) as Hslice.
  { intros b Hb. unfold slice0. destruct (b <? 0) eqn:Hneg; [lia|reflexivity]. }
  destruct (minBreak <? lastIndexOf [10%N; 35%N] w) eqn:H1.
  { exists (lastIndexOf [10%N; 35%N] w).
    destruct (lastIndexOf_range [10%N; 35%N] w) as [Hr|Hr]; [lia|].
    simpl length in Hr. split; [lia|]. rewrite Hslice by lia. reflexivity. }
  destruct (minBreak <? lastIndexOf [10%N; 10%N] w) eqn:H2.
  { exists (lastIndexOf [10%N; 10%N] w).
    destruct (lastIndexOf_range [10%N; 10%N] w) as [Hr|Hr]; [lia|].
    simpl length in Hr. split; [lia|]. rewrite Hslice by lia. reflexivity. }
  destruct (minBreak <? lastIndexOf [10%N] w) eqn:H3.
  { exists (lastIndexOf [10%N] w).
    destruct (lastIndexOf_range [10%N] w) as [Hr|Hr]; [lia|].
    simpl length in Hr. split; [lia|]. rewrite Hslice by lia. reflexivity. }
  destruct (minBreak <? Z.max _ _) eqn:H4.
  { exists (Z.max (lastIndexOf [46%N; 32%N] w) (lastIndexOf [46%N; 10%N] w) + 1).
    destruct (lastIndexOf_range [46%N; 32%N] w) as [Hr1|Hr1];
      destruct (lastIndexOf_range [46%N; 10%N] w) as [Hr2|Hr2];
      simpl length in *; (split; [lia|]); rewrite Hslice by lia; reflexivity. }
  exists maxChars. split; [lia|]. rewrite Hslice by lia. reflexivity.
Qed.

(** X20.  [truncateAtBoundary] with a non-negative limit returns a prefix
    of the content that is at most [maxChars] code units long; it reports a
    truncation exactly when the content is longer than the limit, and a
    truncated text never ends in white space. *)
Theorem truncateAtBoundary_prefix (content : jsstring) (maxChars : Z) :
  0 <= maxChars ->
  let r := truncateAtBoundary content maxChars in
  ResponseUtils.text r `prefix_of` content
  /\ Z.of_nat (length (ResponseUtils.text r)) <= maxChars
  /\ wasTruncated r = bool_decide (maxChars < Z.of_nat (length content))
  /\ (wasTruncated r = true ->
      forall c, last (ResponseUtils.text r) = Some c -> isWhiteSpace c = false).
Proof.
  intros Hmax. cbv zeta.
  destruct (Z.of_nat (length content) <=? maxChars) eqn:Hle.
  - unfold truncateAtBoundary. rewrite Hle. cbn [ResponseUtils.text wasTruncated].
    split; [reflexivity|]. split; [lia|].
    split; [rewrite bool_decide_eq_false_2 by lia; reflexivity|discriminate].
  - destruct (breakPoint_range content maxChars Hmax) as (b & Hb & Htext); [lia|].
    rewrite Htext. split; [|split; [|split]].
    + etransitivity; [apply trimEnd_prefix|apply prefix_take].
    + pose proof (prefix_length _ _ (trimEnd_prefix (take (Z.to_nat b) content))) as Hp.
      rewrite length_take in Hp. lia.
    + unfold truncateAtBoundary. rewrite Hle. cbn [wasTruncated].
      rewrite bool_decide_eq_true_2 by lia. reflexivity.
    + intros _ c. apply trimEnd_last.
Qed.

End TruncationFacts.

Lemma truncateString_fits_witness :
  Z.of_nat (length (ResponseUtils.truncateString Examples.articleText 200)) <= 200
  /\ (Z.of_nat (length Examples.articleText) <= 200 ->
      ResponseUtils.truncateString Examples.articleText 200 = Examples.articleText)
  /\ (200 < Z.of_nat (length Examples.articleText) ->
      ResponseUtils.truncateString Examples.articleText 200
      = take (Z.to_nat (200 - 3)) Examples.articleText ++ js "...").
Proof. apply (truncateString_fits Examples.articleText 200). lia. Defined.

Lemma truncateAtBoundary_prefix_witness :
  let r := ResponseUtils.truncateAtBoundary Examples.twoParagraphs 40 in
  ResponseUtils.text r `prefix_of` Examples.twoParagraphs
  /\ Z.of_nat (length (ResponseUtils.text r)) <= 40
  /\ ResponseUtils.wasTruncated r
     = bool_decide (40 < Z.of_nat (length Examples.twoParagraphs))
  /\ (ResponseUtils.wasTruncated r = true ->
      forall c, last (ResponseUtils.text r) = Some c -> isWhiteSpace c = false).
Proof. apply (truncateAtBoundary_prefix Examples.twoParagraphs 40). lia. Defined.

Section MapErrorFacts.
Import ResponseUtils.
Variable toLowerCase : jsstring -> jsstring.

Lemma elem_decide (x : jsstring) (l : list jsstring) :
  bool_decide (x ∈ l) = true -> x ∈ l.
Proof. apply bool_decide_eq_true_1. Qed.

Lemma truncateString_200 (s : jsstring) :
  Z.of_nat (length (truncateString s 200)) <= 200.
Proof.
  unfold truncateString. destruct (Z.of_nat (length s) <=? 200) eqn:Hle; [lia|].
  rewrite length_app. unfold slice0. change (200 - 3 <? 0) with false. cbn iota.
  rewrite length_take. change (length (js "...")) with 3%nat. lia.
Qed.

(** X21.  Every error is mapped to one of the eleven codes, with at least
    one suggestion, with the normalized error text as [originalError], and
    with a message of at most 217 code units however long the error text
    is (the catch-all message quotes at most 200 code units of it). *)
Theorem mapError_well_formed (err : Caught) :
  let m := mapError toLowerCase err in
  code m ∈ ERROR_CODES
  /\ suggestions m <> []
  /\ originalError m = Some (normalizeErrorString err)
  /\ Z.of_nat (length (message m)) <= 217.
Proof.
  cbv zeta.
  set (P := fun m : MappedError =>
              code m ∈ ERROR_CODES
              /\ suggestions m <> []
              /\ originalError m = Some (normalizeErrorString err)
              /\ Z.of_nat (length (message m)) <= 217).
  change (P (mapError toLowerCase err)).
  assert (forall (b : bool) x y, P x -> P y -> P (if b then x else y)) as Hif
    by (intros [] x y Hx Hy; assumption).
  unfold mapError. cbv zeta.
  repeat apply Hif; unfold P; cbn [code suggestions originalError message];
    (split; [apply elem_decide; vm_compute; reflexivity|]);
    (split; [discriminate|]); (split; [reflexivity|]);
    try (vm_compute; discriminate).
  rewrite length_app. pose proof (truncateString_200 (normalizeErrorString err)).
  change (length (js "Scraping failed: ")) with 17%nat. lia.
Qed.

End MapErrorFacts.

Section WordFacts.
Import ResponseUtils.

Lemma splitWhiteSpace_unfold (c : N) (r : jsstring) :
  splitWhiteSpace (c :: r)
  = if isWhiteSpace c then
      match r with
      | c' :: _ => if isWhiteSpace c' then splitWhiteSpace r else [] :: splitWhiteSpace r
      | [] => [[]; []]
      end
    else match splitWhiteSpace r with
         | piece :: pieces => (c :: piece) :: pieces
         | [] => [[c]]
         end.
Proof. reflexivity. Qed.

Lemma splitWhiteSpace_space_head (c : N) (s : jsstring) :
  isWhiteSpace c = true -> exists pieces, splitWhiteSpace (c :: s) = [] :: pieces.
Proof.
  revert c. induction s as [|c' s IH]; intros c Hc; rewrite splitWhiteSpace_unfold, Hc.
  - by eexists.
  - destruct (isWhiteSpace c') eqn:Hc'; [by apply IH|by eexists].
Qed.

Lemma splitWhiteSpace_space (c : N) (s : jsstring) :
  isWhiteSpace c = true ->
  exists pieces, splitWhiteSpace (c :: s) = [] :: pieces /\ countWords pieces = wordCount s.
Proof.
  intros Hc. rewrite splitWhiteSpace_unfold, Hc. destruct s as [|c' s].
  - by eexists.
  - destruct (isWhiteSpace c') eqn:Hc'.
    + destruct (splitWhiteSpace_space_head c' s Hc') as [pieces Hp].
      exists pieces. split; [exact Hp|]. unfold wordCount. rewrite Hp. reflexivity.
    + eexists. split; reflexivity.
Qed.

Lemma splitWhiteSpace_letter (c : N) (s : jsstring) :
  isWhiteSpace c = false ->
  exists piece pieces, splitWhiteSpace s = piece :: pieces
                       /\ splitWhiteSpace (c :: s) = (c :: piece) :: pieces.
Proof.
  intros Hc. rewrite splitWhiteSpace_unfold, Hc.
  destruct (splitWhiteSpace s) as [|piece pieces] eqn:Hs.
  - exfalso. destruct s as [|c' s]; [discriminate|].
    rewrite splitWhiteSpace_unfold in Hs.
    destruct (isWhiteSpace c').
    + destruct s as [|c'' s]; [discriminate|].
      destruct (isWhiteSpace c'') eqn:Hc''; [|discriminate].
      destruct (splitWhiteSpace_space_head c'' s Hc'') as [ps Hps]. congruence.
    + destruct (splitWhiteSpace s); discriminate.
  - by eexists _, _.
Qed.

Lemma words_space (c : N) (s : jsstring) :
  isWhiteSpace c = true ->
  wordCount (c :: s) = wordCount s /\ laterWords (c :: s) = wordCount s.
Proof.
  intros Hc. destruct (splitWhiteSpace_space c s Hc) as (pieces & Hp & Hn).
  unfold wordCount, laterWords. rewrite Hp. split; exact Hn.
Qed.

Lemma words_letter (c : N) (s : jsstring) :
  isWhiteSpace c = false ->
  wordCount (c :: s) = S (laterWords s) /\ laterWords (c :: s) = laterWords s.
Proof.
  intros Hc. destruct (splitWhiteSpace_letter c s Hc) as (piece & pieces & Hs & Hcs).
  unfold wordCount, laterWords. rewrite Hcs, Hs. split; reflexivity.
Qed.

Lemma words_app (a b : jsstring) (c : N) :
  isWhiteSpace c = true ->
  wordCount (a ++ c :: b) = (wordCount a + wordCount b)%nat
  /\ laterWords (a ++ c :: b) = (laterWords a + wordCount b)%nat.
Proof.
  intros Hc. induction a as [|x a [IHw IHl]]; cbn [app].
  - destruct (words_space c b Hc) as [-> ->]. split; reflexivity.
  - destruct (isWhiteSpace x) eqn:Hx.
    + destruct (words_space x (a ++ c :: b) Hx) as [-> ->].
      destruct (words_space x a Hx) as [-> ->]. split; exact IHw.
    + destruct (words_letter x (a ++ c :: b) Hx) as [-> ->].
      destruct (words_letter x a Hx) as [-> ->]. rewrite IHl. split; reflexivity.
Qed.

(** X22.  [wordCount] adds up over white space: the words of two texts
    joined by a white-space code unit are the words of the one and the
    words of the other, however much white space the texts have at their
    ends. *)
Theorem wordCount_additive (a b : jsstring) (c : N) :
  isWhiteSpace c = true ->
  wordCount (a ++ c :: b) = (wordCount a + wordCount b)%nat.
Proof. intros Hc. by apply words_app. Qed.

End WordFacts.

Lemma wordCount_additive_witness :
  ResponseUtils.wordCount (js "breaking news" ++ 10%N :: js "  read more ")
  = (ResponseUtils.wordCount (js "breaking news")
     + ResponseUtils.wordCount (js "  read more "))%nat.
Proof. apply (wordCount_additive (js "breaking news") (js "  read more ") 10%N). reflexivity. Defined.

(* ===================================================================== *)
(** * Properties of the page semaphore *)
(* ===================================================================== *)

Section SemaphoreFacts.
Import PlaywrightService.

Lemma removeFirst_length (x : jsstring) (xs : list jsstring) :
  x ∈ xs -> S (length (removeFirst x xs)) = length xs.
Proof.
  induction xs as [|y xs IH]; simpl; [intros H; by apply elem_of_nil in H|].
  destruct (eqb y x) eqn:Heq; [reflexivity|].
  intros [->|Hin]%elem_of_cons; [rewrite eqb_refl in Heq; discriminate|].
  simpl. by rewrite IH.
Qed.

Lemma balanced_step (n : Z) (p : Pages) (ev : PageEvent) :
  balanced n p -> balanced n (pageStep p ev).
Proof.
  intros (Hpos & Hsum & Hidle). destruct ev as [request|request]; unfold pageStep.
  - unfold Semaphore.acquire.
    destruct (0 <? Semaphore.permits (pageSemaphore p)) eqn:Hfree.
    + unfold balanced. cbn. rewrite length_app. cbn.
      split; [lia|]. split; [lia|].
      intros Hq. specialize (Hidle Hq). lia.
    + unfold balanced. cbn.
      split; [lia|]. split; [lia|]. intros _; lia.
  - destruct (bool_decide (request ∈ working p)) eqn:Hin;
      [|repeat split; assumption].
    apply bool_decide_eq_true in Hin. apply removeFirst_length in Hin.
    unfold Semaphore.release.
    destruct (Semaphore.queue (pageSemaphore p)) as [|next rest] eqn:Hq.
    + unfold balanced. cbn. rewrite !app_nil_r.
      split; [lia|]. split; [lia|]. congruence.
    + unfold balanced. cbn. rewrite length_app. cbn.
      assert (Semaphore.permits (pageSemaphore p) = 0) as H0 by (apply Hidle; discriminate).
      split; [lia|]. split; [lia|]. intros _; lia.
Qed.

Lemma balanced_pages (n : Z) (events : list PageEvent) :
  0 <= n -> balanced n (pages n events).
Proof.
  intros Hn. unfold pages.
  assert (balanced n (start n)) as H0.
  { unfold balanced, start. cbn. repeat split; try lia; congruence. }
  revert H0. generalize (start n). induction events as [|ev events IH]; intros p Hp.
  - exact Hp.
  - simpl. apply IH. by apply balanced_step.
Qed.

(** X23.  The page semaphore keeps its limit.  With a non-negative number
    of permits and requests that release only what they hold, the requests
    at work never number more than the permits; [activePages] of the health
    endpoint is their number; and a request waits only while all permits
    are taken. *)
Theorem pages_within_limit (n : Z) (events : list PageEvent) :
  0 <= n ->
  let p := pages n events in
  Z.of_nat (length (working p)) <= n
  /\ activePages n p = Z.of_nat (length (working p))
  /\ (Semaphore.getQueueLength (pageSemaphore p) <> 0%nat ->
      Z.of_nat (length (working p)) = n).
Proof.
  intros Hn. cbv zeta. destruct (balanced_pages n events Hn) as (Hpos & Hsum & Hidle).
  unfold activePages, Semaphore.getAvailablePermits, Semaphore.getQueueLength.
  split; [lia|]. split; [lia|]. intros Hq.
  assert (Semaphore.permits (pageSemaphore (pages n events)) = 0) as H0; [|lia].
  apply Hidle. intros Hnil. rewrite Hnil in Hq. by apply Hq.
Qed.

(** X24.  Waiting requests are resumed in the order in which they queued,
    and none is lost: the requests that had to wait are those that were
    resumed, in that order, followed by those still in the queue. *)
Theorem waiters_resume_in_order (n : Z) (events : list PageEvent) :
  let p := pages n events in
  enqueued p = resumed p ++ Semaphore.queue (pageSemaphore p).
Proof.
  cbv zeta. unfold pages.
  assert (enqueued (start n) = resumed (start n) ++ Semaphore.queue (pageSemaphore (start n)))
    as H0 by reflexivity.
  revert H0. generalize (start n). induction events as [|ev events IH]; intros p Hp.
  - exact Hp.
  - simpl. apply IH. destruct ev as [request|request]; unfold pageStep.
    + unfold Semaphore.acquire.
      destruct (0 <? Semaphore.permits (pageSemaphore p)); cbn; [exact Hp|].
      rewrite Hp, app_assoc. reflexivity.
    + destruct (bool_decide (request ∈ working p)); [|exact Hp].
      unfold Semaphore.release.
      destruct (Semaphore.queue (pageSemaphore p)) as [|next rest] eqn:Hq; cbn.
      * rewrite Hp, !app_nil_r. reflexivity.
      * rewrite Hp, <- app_assoc. reflexivity.
Qed.

End SemaphoreFacts.

Lemma pages_within_limit_witness :
  let p := PlaywrightService.pages 2 Examples.threeRequests in
  Z.of_nat (length (PlaywrightService.working p)) <= 2
  /\ PlaywrightService.activePages 2 p = Z.of_nat (length (PlaywrightService.working p))
  /\ (PlaywrightService.Semaphore.getQueueLength (PlaywrightService.pageSemaphore p)
      <> 0%nat ->
      Z.of_nat (length (PlaywrightService.working p)) = 2).
Proof. apply (pages_within_limit 2 Examples.threeRequests). lia. Defined.

(* ===================================================================== *)
(** * Checks and late answers *)
(* ===================================================================== *)

Section CheckFacts.
Import SlidingWindowRateLimiter.

(** X26.  A check of the sliding-window limiter does not count as a
    request: a second check at the same moment gives the same answer and
    leaves the limiter as the first one left it. *)
Theorem window_check_is_idempotent (cfg : RateLimitConfig) (now : Z) (u : jsstring)
    (l : SlidingWindowRateLimiter.t) :
  check cfg now u (check cfg now u l).2 = check cfg now u l.
Proof.
  destruct (check cfg now u l) as [r l'] eqn:Hc. cbn [snd]. unfold check in Hc.
  destruct (maxGlobalRequestsPerWindow cfg <=? _) eqn:Hg in Hc.
  - injection Hc as <- <-. unfold check. cbv zeta. cbn [perUser globalTimestamps].
    rewrite prune_prune by lia. rewrite Hg. reflexivity.
  - destruct (maxRequestsPerWindow cfg <=? _) eqn:Hu in Hc; injection Hc as <- <-.
    + unfold check. cbv zeta. cbn [perUser globalTimestamps].
      rewrite prune_prune by lia. rewrite Hg, lookup_insert_eq. cbn [from_option Datatypes.id].
      rewrite prune_prune by lia. rewrite Hu, insert_insert_eq. reflexivity.
    + unfold check. cbv zeta. cbn [perUser globalTimestamps].
      rewrite prune_prune by lia. rewrite Hg, lookup_insert_eq. cbn [from_option Datatypes.id].
      rewrite prune_prune by lia. rewrite Hu, insert_insert_eq. reflexivity.
Qed.

End CheckFacts.

Section AnswerFacts.

Lemma getJob_mutateJob (jobId : jsstring) (f : AgentJob -> AgentJob) (jobs : list AgentJob) :
  (forall j, id (f j) = id j) ->
  getJob jobId (mutateJob jobId f jobs) = f <$> getJob jobId jobs.
Proof.
  intros Hf. unfold getJob, mutateJob. induction jobs as [|j jobs IH]; simpl; [reflexivity|].
  destruct (eqb (id j) jobId) eqn:Heq; simpl.
  - rewrite Hf, Heq. reflexivity.
  - rewrite Heq. exact IH.
Qed.

(** X27.  When the session of a job answers, the job becomes completed,
    with the answer as its result, whatever its status was: a job that the
    reaper has timed out in the meantime is completed as well. *)
Theorem late_answer_completes_job (now : Z) (t : Task) (content : option jsstring)
    (e : Engine) :
  taskPc t = AwaitResponse ->
  getAgentStatus (taskJob t) (resumeTask now t (Resolved content) e)
  = withCompletion now
      {| resSuccess := true;
         resData := orElse content (js "No response generated");
         resModel := taskModel t |}
    <$> getAgentStatus (taskJob t) e.
Proof.
  intros Hpc. unfold resumeTask, getAgentStatus. rewrite Hpc. cbn [agentJobs withPc withJobs].
  by apply getJob_mutateJob.
Qed.

End AnswerFacts.

Lemma late_answer_completes_job_witness :
  status <$> getAgentStatus (js "job-1") Examples.reapedEngine = Some Failed
  /\ status <$> getAgentStatus (js "job-1")
                  (resumeTask 5600 Examples.waitingTask (Resolved (Some (js "done")))
                     Examples.reapedEngine)
     = Some Completed.
Proof.
  split; [vm_compute; reflexivity|].
  change (js "job-1") with (taskJob Examples.waitingTask).
  rewrite (late_answer_completes_job 5600 Examples.waitingTask (Some (js "done"))
             Examples.reapedEngine eq_refl).
  vm_compute. reflexivity.
Defined.

Section ClientFacts.

(** X28.  The client cache.  A client obtained for a token is the one that
    the next call for that token returns, provided that it had been used
    within the last thirty minutes whenever the purge timer fired in
    between; if it had been idle for longer at a purge, the next call
    creates a new client, with the caller's token or else GITHUB_TOKEN. *)
Theorem client_is_reused_until_purged (envToken userToken : option jsstring)
    (fresh1 fresh2 : nat) (now1 now2 now3 : Z) (clientCache : gmap jsstring CachedClient) :
  let first := getCopilotClient envToken fresh1 now1 userToken clientCache in
  let second :=
    getCopilotClient envToken fresh2 now3 userToken (purgeClients now2 first.2) in
  (now2 - now1 <= MAX_CLIENT_AGE_MS -> second.1 = first.1)
  /\ (MAX_CLIENT_AGE_MS < now2 - now1 ->
      clientObject second.1 = fresh2
      /\ githubToken second.1
         = match userToken with
           | Some (c :: r) => Some (c :: r)
           | _ => match envToken with
                  | Some (c :: r) => Some (c :: r)
                  | _ => None
                  end
           end).
Proof.
  cbv zeta.
  assert (exists c, (getCopilotClient envToken fresh1 now1 userToken clientCache).1 = c
            /\ (getCopilotClient envToken fresh1 now1 userToken clientCache).2
               = <[orElse userToken [] := {| client := c; lastUsed := now1 |}]> clientCache)
    as (c & Hc & Hcache).
  { unfold getCopilotClient. destruct (clientCache !! orElse userToken []); eexists; split; reflexivity. }
  rewrite Hc, Hcache. clear Hc Hcache. unfold getCopilotClient at 1 2 3, purgeClients. split.
  - intros Hyoung.
    rewrite (map_lookup_filter_Some_2 _ _ (orElse userToken [])
               {| client := c; lastUsed := now1 |}); [reflexivity|apply lookup_insert_eq|].
    simpl. lia.
  - intros Hold.
    assert (filter (fun kv : jsstring * CachedClient =>
                      ¬ (MAX_CLIENT_AGE_MS < now2 - lastUsed kv.2))
                   (<[orElse userToken [] := {| client := c; lastUsed := now1 |}]> clientCache)
            !! orElse userToken [] = None) as ->.
    { apply map_lookup_filter_None. right. intros x Hx. rewrite lookup_insert_eq in Hx.
      injection Hx as <-. simpl. intros Hn. apply Hn. exact Hold. }
    split; reflexivity.
Qed.

End ClientFacts.

(* ===================================================================== *)
(** * Properties of the authentication *)
(* ===================================================================== *)

Section AuthFacts.
Context {L : Libs}.

(** X29.  A session that [authenticate] has returned always gets an engine
    client: [getClient] does not throw for it.  In cloud mode the session
    holds a non-empty API key, which is the one that the request's headers
    carry and the one that the client is configured with.  The session's
    Copilot token is the one of the headers, or else GITHUB_TOKEN. *)
Theorem authenticated_session_gets_client (senv : ServerEnv) (env : ProcessEnv)
    (cleanUrl : option jsstring) (headers : list (jsstring * HeaderValue))
    (session : SessionData) :
  authenticate senv env headers = Authenticated session ->
  exists cfg,
    getClient senv env cleanUrl (Some session) = inr cfg
    /\ apiKey cfg = orStr (scraperApiKey session) None
    /\ copilotToken session = extractCopilotToken senv headers
    /\ (CLOUD_SERVICE senv = Some (js "true") ->
        exists key, key <> [] /\ apiKey cfg = Some key
                    /\ extractApiKey headers = Some key).
Proof.
  unfold authenticate, getClient.
  destruct (bool_decide (CLOUD_SERVICE senv = Some (js "true"))) eqn:Hcloud.
  - destruct (extractApiKey headers) as [[|c r]|] eqn:Hkey; try discriminate.
    intros [= <-]. cbn [mbind option_bind scraperApiKey copilotToken].
    eexists. split; [reflexivity|]. split; [reflexivity|]. split; [reflexivity|].
    intros _. exists (c :: r). split; [discriminate|]. split; reflexivity.
  - destruct (orStr (SCORCHCRAWL_API_KEY senv) (SCORCHCRAWL_API_URL env))
      as [[|c r]|] eqn:Hset; try discriminate.
    intros [= <-]. cbn [mbind option_bind scraperApiKey copilotToken].
    assert (exists c' r', orStr (SCORCHCRAWL_API_URL env) (SCORCHCRAWL_API_KEY senv)
                          = Some (c' :: r')) as (c' & r' & ->).
    { unfold orStr in *.
      destruct (SCORCHCRAWL_API_URL env) as [[|a u]|];
        destruct (SCORCHCRAWL_API_KEY senv) as [[|b k]|];
        try discriminate; by eexists _, _. }
    eexists. split; [reflexivity|]. split; [reflexivity|]. split; [reflexivity|].
    intros Htrue. apply bool_decide_eq_false in Hcloud. contradiction.
Qed.

End AuthFacts.

Lemma authenticated_session_gets_client_witness :
  exists cfg,
    @getClient Examples.cloudEnv Examples.localProxyEnv None
      (Some {| scraperApiKey := Some (js "sk-123");
               copilotToken := Some (js "ghu_alice") |}) = inr cfg
    /\ apiKey cfg = Some (js "sk-123")
    /\ Some (js "ghu_alice") = extractCopilotToken Examples.cloudEnv Examples.bearerHeaders
    /\ (CLOUD_SERVICE Examples.cloudEnv = Some (js "true") ->
        exists key, key <> [] /\ apiKey cfg = Some key
                    /\ @extractApiKey Examples.pageLibs Examples.bearerHeaders = Some key).
Proof.
  apply (@authenticated_session_gets_client Examples.pageLibs Examples.cloudEnv
           Examples.localProxyEnv None Examples.bearerHeaders
           {| scraperApiKey := Some (js "sk-123");
              copilotToken := Some (js "ghu_alice") |}).
  reflexivity.
Defined.
